(** * Workflow memory of Kite: a shallow embedding of [src/memory]

    The development follows three source files:
    - [src/memory/database.py]        the store ([Database]),
    - [src/memory/embedding_store.py] [EmbeddingStore] and [KeywordExtractor],
    - [src/memory/workflow_manager.py] [WorkflowManager].

    Conventions of the embedding.
    - Python [int] is [Z]; a [float] is the rational it denotes ([Q]), so
      that [success_count / total_count] is the exact quotient.
    - A table is the list of its rows in rowid order.  [ORDER BY] is a stable
      sort of the scanned rows and [LIMIT n] keeps the first [n] of them (all
      of them for a negative [n], as SQLite does).
    - JSON and pickle serialisation are injective on the values stored here
      and are left out: a column holds the value itself.
    - [str] is [string] restricted to 7-bit text.
    - The store is SQLite ([aiosqlite.connect] is the only connection the
      sources open).  A statement is prepared before it runs: where the text
      of a statement is one that SQLite refuses, the call raises
      [sqlite3.OperationalError] and no row is read.
    - What the sources use without defining it (the embedding model, the
      FTS5 index [workflows_fts], the foreign key of the schema file) is a
      field of [Env]; so is the distance that the similarity query writes
      as [<=>]. *)

From Stdlib Require Import List ZArith QArith Qabs Bool String Ascii Lia Sorted Permutation.
Import ListNotations.
Local Open Scope string_scope.
Local Open Scope list_scope.
Local Open Scope Z_scope.

(** ** Python values and control *)

Module Py.

Inductive error : Type :=
| TypeError
| ZeroDivisionError
| IntegrityError
| OperationalError.

Inductive result (A : Type) : Type :=
| Ok (a : A)
| Err (e : error).

Arguments Ok {A} a.
Arguments Err {A} e.

Definition bind {A B : Type} (m : result A) (k : A -> result B) : result B :=
  match m with
  | Ok a => k a
  | Err e => Err e
  end.

(** [l[:n]] *)
Definition slice_to {A : Type} (n : Z) (l : list A) : list A :=
  if n <? 0 then firstn (Z.to_nat (Z.of_nat (List.length l) + n)) l
  else firstn (Z.to_nat n) l.

(** Truth value of an [Optional[List]]: [None] and [[]] are false. *)
Definition truthy {A : Type} (o : option (list A)) : bool :=
  match o with
  | Some (_ :: _) => true
  | _ => false
  end.

(** Truth value of an [Optional[str]]. *)
Definition truthy_str (o : option string) : bool :=
  match o with
  | Some (String _ _) => true
  | _ => false
  end.

(** [sorted(l, key=..., reverse=True)]: descending and stable.  [gtb a b]
    says that the key of [a] is strictly greater than the key of [b]; an
    element is placed after the strictly greater ones and before the equal
    ones that followed it in the input. *)
Section Sorting.
Context {A : Type} (gtb : A -> A -> bool).

Fixpoint insert_desc (x : A) (l : list A) : list A :=
  match l with
  | [] => [x]
  | y :: s => if gtb y x then y :: insert_desc x s else x :: l
  end.

Definition sorted_desc (l : list A) : list A :=
  fold_right insert_desc [] l.

(** [a] does not come after [b] in a descending order. *)
Definition not_below (a b : A) : Prop := gtb b a = false.

(** [a] is placed before [b] by a stable descending sort of a list in which
    the positions are related by [before]. *)
Definition placed_before (before : A -> A -> Prop) (a b : A) : Prop :=
  gtb a b = true \/ (gtb b a = false /\ before a b).

End Sorting.

(** The order of a sort on a [float] key. *)
Definition key_gtb {A : Type} (key : A -> Q) (a b : A) : bool :=
  negb (Qle_bool (key a) (key b)).

(** The two operand kinds of [keywords & workflow_keywords]. *)
Inductive value : Type :=
| PyList (l : list string)
| PySet (s : list string).

Definition mem (w : string) (l : list string) : bool :=
  existsb (String.eqb w) l.

(** [set(l)]: the distinct elements. *)
Fixpoint set_of (l : list string) : list string :=
  match l with
  | [] => []
  | w :: r => if mem w r then set_of r else w :: set_of r
  end.

(** [a & b]: defined between two sets only; [list] has no [__and__] and
    [set.__rand__] answers [NotImplemented] to a list. *)
Definition and_ (a b : value) : result value :=
  match a, b with
  | PySet x, PySet y => Ok (PySet (filter (fun w => mem w y) x))
  | _, _ => Err TypeError
  end.

Definition is_upper (c : ascii) : bool :=
  (65 <=? nat_of_ascii c)%nat && (nat_of_ascii c <=? 90)%nat.

Definition is_lower (c : ascii) : bool :=
  (97 <=? nat_of_ascii c)%nat && (nat_of_ascii c <=? 122)%nat.

(** [[a-zA-Z]] *)
Definition is_alpha (c : ascii) : bool := is_upper c || is_lower c.

Definition is_digit (c : ascii) : bool :=
  (48 <=? nat_of_ascii c)%nat && (nat_of_ascii c <=? 57)%nat.

(** [\w] on 7-bit text: letters, digits and the underscore. *)
Definition is_word (c : ascii) : bool :=
  is_alpha c || is_digit c || (nat_of_ascii c =? 95)%nat.

Definition lower_char (c : ascii) : ascii :=
  if is_upper c then ascii_of_nat (nat_of_ascii c + 32) else c.

(** [text.lower()] *)
Fixpoint lower (s : string) : string :=
  match s with
  | EmptyString => EmptyString
  | String c r => String (lower_char c) (lower r)
  end.

Fixpoint all_chars (p : ascii -> bool) (s : string) : bool :=
  match s with
  | EmptyString => true
  | String c r => p c && all_chars p r
  end.

Definition len (v : value) : Z :=
  match v with
  | PyList l => Z.of_nat (List.length l)
  | PySet s => Z.of_nat (List.length s)
  end.

(** The order of [ORDER BY k DESC] on an integer column. *)
Definition int_gtb {A : Type} (key : A -> Z) (a b : A) : bool := key b <? key a.

(** The order of [ORDER BY k1 DESC, k2 DESC] on a [REAL] and an integer
    column. *)
Definition lex_gtb {A : Type} (k1 : A -> Q) (k2 : A -> Z) (a b : A) : bool :=
  if negb (Qle_bool (k1 a) (k1 b)) then true
  else if negb (Qle_bool (k1 b) (k1 a)) then false
  else k2 b <? k2 a.

End Py.

Import Py.

(** ** [KeywordExtractor] *)

Module KeywordExtractor.

Definition STOPWORDS : list string :=
  [ "a"; "an"; "the"; "and"; "or"; "but"; "is"; "are"; "was"; "were";
    "be"; "been"; "being"; "have"; "has"; "had"; "do"; "does"; "did";
    "will"; "would"; "could"; "should"; "may"; "might"; "must"; "shall";
    "can"; "to"; "of"; "in"; "for"; "on"; "with"; "at"; "by"; "from";
    "as"; "into"; "through"; "during"; "before"; "after"; "above";
    "below"; "between"; "under"; "again"; "further"; "then"; "once";
    "here"; "there"; "when"; "where"; "why"; "how"; "all"; "each";
    "few"; "more"; "most"; "other"; "some"; "such"; "no"; "nor"; "not";
    "only"; "own"; "same"; "so"; "than"; "too"; "very"; "just"; "also";
    "now"; "this"; "that"; "these"; "those"; "i"; "me"; "my"; "we"; "our";
    "you"; "your"; "he"; "him"; "his"; "she"; "her"; "it"; "its"; "they";
    "them"; "their"; "what"; "which"; "who"; "whom"; "how"; "please";
    "thanks"; "thank"; "sorry"; "help"; "make"; "want"; "like"; "know";
    "think"; "take"; "see"; "come"; "want"; "use"; "find"; "give"; "tell" ].

Record t : Type := { max_keywords : Z }.

(** [KeywordExtractor(max_keywords=10)]: the constructor and its default. *)
Definition init (max_keywords : option Z) : t :=
  {| max_keywords := match max_keywords with Some k => k | None => 10 end |}.

(** The maximal runs of [\w] characters of [s], left to right; [cur] is the
    run being read. *)
Fixpoint word_runs (s : string) (cur : string) : list string :=
  match s with
  | EmptyString => [cur]
  | String c r =>
      if is_word c then word_runs r (cur ++ String c EmptyString)%string
      else cur :: word_runs r EmptyString
  end.

(** [re.findall(r'\b[a-zA-Z]{2,}\b', s)].  [\b] holds between a [\w] and a
    non-[\w] character (or the end of the text), so a match starts at the
    beginning of a run of [\w] characters and ends at its end: the matches
    are the runs made of letters only, two or more of them.  A run with a
    digit or an underscore in it gives no match at all. *)
Definition findall_words (s : string) : list string :=
  filter (fun w => all_chars is_alpha w && (2 <=? String.length w)%nat)
         (word_runs s EmptyString).

(** [Counter.update], one element: a known key is incremented in place, a
    new key is added at the end (dictionaries keep insertion order). *)
Fixpoint counter_add (w : string) (d : list (string * Z)) : list (string * Z) :=
  match d with
  | [] => [(w, 1)]
  | (k, n) :: r =>
      if String.eqb k w then (k, n + 1) :: r else (k, n) :: counter_add w r
  end.

(** [Counter(keywords)] *)
Definition Counter (ws : list string) : list (string * Z) :=
  fold_left (fun d w => counter_add w d) ws [].

Definition count_gtb (a b : string * Z) : bool := snd b <? snd a.

(** [Counter.most_common(n)] is [heapq.nlargest(n, items, key=count)], that
    is [sorted(items, key=count, reverse=True)[:n]], and is empty for
    [n <= 0]. *)
Definition most_common (n : Z) (d : list (string * Z)) : list (string * Z) :=
  firstn (Z.to_nat n) (sorted_desc count_gtb d).

(** The comprehension [word for word in words if word not in STOPWORDS and
    len(word) > 2]. *)
Definition keep (w : string) : bool :=
  negb (mem w STOPWORDS) && (2 <? String.length w)%nat.

Definition candidates (text : string) : list string :=
  filter keep (findall_words (lower text)).

Definition extract (self : t) (text : string) : list string :=
  map fst (most_common (max_keywords self) (Counter (candidates text))).

Fixpoint join (sep : string) (l : list string) : string :=
  match l with
  | [] => EmptyString
  | [w] => w
  | w :: r => (w ++ sep ++ join sep r)%string
  end.

Definition extract_as_string (self : t) (text : string) : string :=
  join "," (extract self text).

End KeywordExtractor.

(** ** Rows of the three tables *)

(** [Dict[str, Any]]: keys with their values, in insertion order. *)
Definition dict : Type := list (string * string).

Definition vector : Type := list Q.

Module Workflow.

Record t : Type := {
  id : Z;
  user_id : Z;
  category : string;
  intent_type : string;
  keywords : string;
  original_prompt : string;
  summary : string;
  steps : list dict;
  parameters : dict;
  success_rate : Q;
  success_count : Z;
  total_count : Z;
  rating : Z;
  is_template : bool;
  created_at : Z;
  updated_at : Z
}.

End Workflow.

Module Execution.

Record t : Type := {
  id : Z;
  workflow_id : Z;
  user_id : Z;
  status : string;
  step_results : option (list dict);
  error_message : option string;
  started_at : Z;
  completed_at : option Z
}.

End Execution.

Module Embedding.

Record t : Type := {
  content_id : Z;
  table_name : string;
  content : string;
  embedding : vector;
  metadata : option dict;
  created_at : Z;
  updated_at : Z
}.

End Embedding.

(** ** The store and the logger *)

Inductive level : Type := DEBUG | INFO | WARNING.

Inductive event : Type :=
| RecordedWorkflow (workflow_id : Z) (summary : string)
| WorkflowNotFound (workflow_id : Z)
| UpdatedWorkflow (workflow_id : Z) (success_rate : Q)
| StoredEmbedding (table_name : string) (content_id : Z).

(** The state the memory subsystem works on: the three tables, the records
    the module loggers received, and the value of [CURRENT_TIMESTAMP]. *)
Record state : Type := {
  workflows : list Workflow.t;
  workflow_executions : list Execution.t;
  embeddings : list Embedding.t;
  log : list (level * event);
  now : Z
}.

(** A row of the result of [search_keyword]. *)
Module KeywordHit.

Record t : Type := {
  content_id : Z;
  content : string;
  relevance : Q
}.

End KeywordHit.

(** What the sources use and do not define. *)
Record Env : Type := {
  (** [SentenceTransformer.encode] of the loaded model *)
  encode : string -> vector;
  (** the distance that the similarity query asks for with [<=>]; SQLite
      has no such operator and refuses the statement (see
      [Database.prepare]), so no row is ever computed with it *)
  distance : vector -> vector -> Q;
  (** what SQLite answers to the statement of [search_keyword], given the
      text of the [MATCH] conditions pasted into it, the category and the
      limit: the rows of [workflows_fts], best [bm25] first, or the error it
      raises (the schema is not in the sources, and a keyword is pasted
      between double quotes as it is, so that it can end the quoted text) *)
  fts_match : string -> string -> Z -> Py.result (list KeywordHit.t);
  (** whether the schema declares [workflow_executions.workflow_id] as a
      foreign key (the connection runs with [PRAGMA foreign_keys = ON]) *)
  workflow_fk : bool
}.

(** ** [Database] *)

Module Database.

(** A computation on the store that may raise. *)
Definition M (A : Type) : Type := state -> state * result A.

Definition ret {A : Type} (a : A) : M A := fun st => (st, Ok a).

Definition raise {A : Type} (e : error) : M A := fun st => (st, Err e).

Definition bind {A B : Type} (m : M A) (k : A -> M B) : M B :=
  fun st =>
    match m st with
    | (st', Ok a) => k a st'
    | (st', Err e) => (st', Err e)
    end.

(** The rowid of an inserted row: one more than the largest in use. *)
Definition next_rowid (ids : list Z) : Z := 1 + fold_right Z.max 0 ids.

(** [LIMIT n] *)
Definition sql_limit {A : Type} (n : Z) (rows : list A) : list A :=
  if n <? 0 then rows else firstn (Z.to_nat n) rows.

Definition emit (l : level) (e : event) : M unit :=
  fun st =>
    ({| workflows := workflows st;
        workflow_executions := workflow_executions st;
        embeddings := embeddings st;
        log := log st ++ [(l, e)];
        now := now st |}, Ok tt).

Definition set_workflows (ws : list Workflow.t) (st : state) : state :=
  {| workflows := ws;
     workflow_executions := workflow_executions st;
     embeddings := embeddings st;
     log := log st;
     now := now st |}.

Definition set_workflow_executions (xs : list Execution.t) (st : state) : state :=
  {| workflows := workflows st;
     workflow_executions := xs;
     embeddings := embeddings st;
     log := log st;
     now := now st |}.

Definition set_embeddings (es : list Embedding.t) (st : state) : state :=
  {| workflows := workflows st;
     workflow_executions := workflow_executions st;
     embeddings := es;
     log := log st;
     now := now st |}.

(** Whether [needle] occurs in [hay]. *)
Fixpoint mentions (needle hay : string) : bool :=
  match hay with
  | EmptyString => String.prefix needle EmptyString
  | String _ rest => String.prefix needle hay || mentions needle rest
  end.

(** [sqlite3_prepare] on the text of a statement, for what the statements of
    these classes depend on.  SQLite has no operator [<=>]: its tokenizer
    reads [<=] and then [>], no operand starts with [>], and the statement
    is refused with a syntax error, which [sqlite3] raises as
    [OperationalError]. *)
Definition prepare (sql : string) : result unit :=
  if mentions "<=>" sql then Err OperationalError else Ok tt.

(** [db.fetchall(sql, params)]: the statement is prepared, then [rows], the
    rows it selects, are read. *)
Definition fetchall {A : Type} (sql : string) (rows : list A) : result (list A) :=
  Py.bind (prepare sql) (fun _ => Ok rows).

(** [SELECT * FROM workflows WHERE id = ?], first row *)
Definition select_workflow (workflow_id : Z) (st : state) : option Workflow.t :=
  find (fun w => Workflow.id w =? workflow_id) (workflows st).

End Database.

Import Database.

Notation "x <- m ;; k" := (Database.bind m (fun x => k))
  (at level 61, m at next level, right associativity).

Notation "'try' x := m 'in' k" := (Py.bind m (fun x => k))
  (at level 61, x name, m at next level, right associativity).

(** ** [EmbeddingStore] *)

(** A row of the result of [search_similar]. *)
Module Hit.

Record t : Type := {
  content_id : Z;
  content : string;
  metadata : option dict;
  similarity : Q
}.

End Hit.

(** A value of [combined_scores] in [hybrid_search]; a key the dictionary
    does not have is [None]. *)
Module Combined.

Record t : Type := {
  content_id : Z;
  content : string;
  metadata : option (option dict);
  similarity : option Q;
  relevance : option Q;
  semantic_score : Q;
  keyword_score : Q;
  combined_score : Q
}.

End Combined.

Module EmbeddingStore.

Definition embed_text (env : Env) (text : string) : vector := encode env text.

Definition same_key (content_id : Z) (table_name : string) (e : Embedding.t) : bool :=
  (Embedding.content_id e =? content_id) && String.eqb (Embedding.table_name e) table_name.

(** [DO UPDATE SET content = excluded.content, embedding = excluded.embedding,
    metadata = excluded.metadata, updated_at = CURRENT_TIMESTAMP] *)
Definition overwrite (excluded e : Embedding.t) : Embedding.t :=
  {| Embedding.content_id := Embedding.content_id e;
     Embedding.table_name := Embedding.table_name e;
     Embedding.content := Embedding.content excluded;
     Embedding.embedding := Embedding.embedding excluded;
     Embedding.metadata := Embedding.metadata excluded;
     Embedding.created_at := Embedding.created_at e;
     Embedding.updated_at := Embedding.updated_at excluded |}.

(** [INSERT INTO embeddings ... ON CONFLICT(content_id, table_name) DO UPDATE] *)
Definition upsert (row : Embedding.t) (rows : list Embedding.t) : list Embedding.t :=
  let conflict := same_key (Embedding.content_id row) (Embedding.table_name row) in
  if existsb conflict rows
  then map (fun e => if conflict e then overwrite row e else e) rows
  else rows ++ [row].

Definition store_embedding (env : Env) (content_id : Z) (table_name content : string)
    (embedding : option vector) (metadata : option dict) : M unit :=
  let embedding :=
    match embedding with
    | None => embed_text env content
    | Some v => v
    end in
  let metadata_json := if truthy metadata then metadata else None in
  _ <- (fun st =>
          (set_embeddings
             (upsert {| Embedding.content_id := content_id;
                        Embedding.table_name := table_name;
                        Embedding.content := content;
                        Embedding.embedding := embedding;
                        Embedding.metadata := metadata_json;
                        Embedding.created_at := now st;
                        Embedding.updated_at := now st |}
                     (embeddings st)) st, Ok tt)) ;;
  emit DEBUG (StoredEmbedding table_name content_id).

Definition similarity_gtb : Hit.t -> Hit.t -> bool := key_gtb Hit.similarity.

(** The [SELECT] of [search_similar], before [ORDER BY] and [LIMIT]. *)
Definition similarity_rows (env : Env) (query_embedding : vector) (table_name : string)
    (st : state) : list Hit.t :=
  map (fun e =>
         {| Hit.content_id := Embedding.content_id e;
            Hit.content := Embedding.content e;
            Hit.metadata := Embedding.metadata e;
            Hit.similarity := (1 - distance env (Embedding.embedding e) query_embedding)%Q |})
      (filter (fun e => String.eqb (Embedding.table_name e) table_name) (embeddings st)).

Definition default_limit : Z := 10.

Definition default_threshold : Q := (1 # 2)%Q.

(** The statement of [search_similar], its line breaks written as spaces. *)
Definition similarity_query : string :=
  "SELECT content_id, content, metadata, ( 1 - ( embedding <=> CAST(? AS BLOB) ) ) as similarity FROM embeddings WHERE table_name = ? ORDER BY similarity DESC LIMIT ?".

(** The comprehension [filtered_results]. *)
Definition filtered_results (threshold : Q) (results : list Hit.t) : list Hit.t :=
  filter (fun r => Qle_bool threshold (Hit.similarity r)) results.

Definition search_similar (env : Env) (query table_name : string)
    (limit : option Z) (threshold : option Q) (st : state) : result (list Hit.t) :=
  let limit := match limit with Some n => n | None => default_limit end in
  let threshold := match threshold with Some q => q | None => default_threshold end in
  let query_embedding := embed_text env query in
  try results :=
    fetchall similarity_query
      (sql_limit limit
         (sorted_desc similarity_gtb
            (similarity_rows env query_embedding table_name st))) in
  Ok (filtered_results threshold results).

(** Whitespace for [str.split()]. *)
Definition is_space (c : ascii) : bool :=
  let n := nat_of_ascii c in
  ((9 <=? n)%nat && (n <=? 13)%nat) || ((28 <=? n)%nat && (n <=? 32)%nat).

Fixpoint split_ws (s : string) (cur : string) : list string :=
  match s with
  | EmptyString => match cur with EmptyString => [] | _ => [cur] end
  | String c r =>
      if is_space c
      then match cur with
           | EmptyString => split_ws r EmptyString
           | _ => cur :: split_ws r EmptyString
           end
      else split_ws r (cur ++ String c EmptyString)%string
  end.

(** The double quote. *)
Definition dquote : string := String (ascii_of_nat 34) EmptyString.

(** [f'content MATCH "{keyword}"'] *)
Definition match_condition (keyword : string) : string :=
  ("content MATCH " ++ dquote ++ keyword ++ dquote)%string.

Definition search_keyword (env : Env) (query table_name : string) (limit : Z)
    (st : state) : result (list KeywordHit.t) :=
  let keywords := split_ws (lower query) EmptyString in
  let keyword_conditions :=
    KeywordExtractor.join " OR "
      (map match_condition
           (filter (fun k => negb (String.eqb k EmptyString)) keywords)) in
  if String.eqb keyword_conditions EmptyString then Ok []
  else fts_match env keyword_conditions table_name limit.

(** [combined_scores]: a dictionary in insertion order. *)
Definition scores : Type := list (Z * Combined.t).

Fixpoint dict_set (k : Z) (v : Combined.t) (d : scores) : scores :=
  match d with
  | [] => [(k, v)]
  | (k', v') :: r => if k' =? k then (k, v) :: r else (k', v') :: dict_set k v r
  end.

Definition dict_get (k : Z) (d : scores) : option Combined.t :=
  option_map snd (find (fun kv => fst kv =? k) d).

Definition semantic_entry (semantic_weight : Q) (r : Hit.t) : Combined.t :=
  {| Combined.content_id := Hit.content_id r;
     Combined.content := Hit.content r;
     Combined.metadata := Some (Hit.metadata r);
     Combined.similarity := Some (Hit.similarity r);
     Combined.relevance := None;
     Combined.semantic_score := Hit.similarity r;
     Combined.keyword_score := 0;
     Combined.combined_score := (Hit.similarity r * semantic_weight)%Q |}.

(** [1.0 / x] *)
Definition inverse (x : Q) : result Q :=
  if Qeq_bool x 0 then Err ZeroDivisionError else Ok (1 / x)%Q.

(** One turn of [for result in keyword_results]. *)
Definition keyword_entry (semantic_weight keyword_weight : Q) (d : scores)
    (r : KeywordHit.t) : result scores :=
  let content_id := KeywordHit.content_id r in
  try keyword_score := inverse (KeywordHit.relevance r + 1)%Q in
  match dict_get content_id d with
  | Some c =>
      Ok (dict_set content_id
            {| Combined.content_id := Combined.content_id c;
               Combined.content := Combined.content c;
               Combined.metadata := Combined.metadata c;
               Combined.similarity := Combined.similarity c;
               Combined.relevance := Combined.relevance c;
               Combined.semantic_score := Combined.semantic_score c;
               Combined.keyword_score := keyword_score;
               Combined.combined_score :=
                 (Combined.semantic_score c * semantic_weight
                  + keyword_score * keyword_weight)%Q |} d)
  | None =>
      Ok (dict_set content_id
            {| Combined.content_id := content_id;
               Combined.content := KeywordHit.content r;
               Combined.metadata := None;
               Combined.similarity := None;
               Combined.relevance := Some (KeywordHit.relevance r);
               Combined.semantic_score := 0;
               Combined.keyword_score := keyword_score;
               Combined.combined_score := (keyword_score * keyword_weight)%Q |} d)
  end.

Fixpoint keyword_loop (semantic_weight keyword_weight : Q)
    (keyword_results : list KeywordHit.t) (d : scores) : result scores :=
  match keyword_results with
  | [] => Ok d
  | r :: rest =>
      try d' := keyword_entry semantic_weight keyword_weight d r in
      keyword_loop semantic_weight keyword_weight rest d'
  end.

Definition combined_gtb : Combined.t -> Combined.t -> bool :=
  key_gtb Combined.combined_score.

Definition hybrid_search (env : Env) (query table_name : string) (limit : Z)
    (semantic_weight keyword_weight : Q) (st : state) : result (list Combined.t) :=
  try semantic_results := search_similar env query table_name (Some (limit * 2)) None st in
  try keyword_results := search_keyword env query table_name (limit * 2) st in
  let combined_scores :=
    fold_left (fun d r => dict_set (Hit.content_id r) (semantic_entry semantic_weight r) d)
              semantic_results [] in
  try combined_scores :=
    keyword_loop semantic_weight keyword_weight keyword_results combined_scores in
  let sorted_results := sorted_desc combined_gtb (map snd combined_scores) in
  Ok (slice_to limit sorted_results).

(** The [UNIQUE(content_id, table_name)] constraint that the [ON CONFLICT]
    clause of [store_embedding] names. *)
Definition unique_keys (rows : list Embedding.t) : Prop :=
  forall content_id table_name,
    (List.length (filter (same_key content_id table_name) rows) <= 1)%nat.

(** [DELETE FROM embeddings WHERE content_id = ? AND table_name = ?] *)
Definition delete_embeddings (content_id : Z) (table_name : string) : M unit :=
  fun st =>
    (set_embeddings
       (filter (fun e => negb (same_key content_id table_name e)) (embeddings st)) st,
     Ok tt).

(** [(content_id, table_name) IN (SELECT id, 'workflows' FROM workflows)] *)
Definition references_workflow (st : state) (e : Embedding.t) : bool :=
  existsb (fun w => (Embedding.content_id e =? Workflow.id w) &&
                    String.eqb (Embedding.table_name e) "workflows")
          (workflows st).

(** [cleanup_orphaned_embeddings]: its [DELETE ... WHERE (content_id,
    table_name) NOT IN (...)].  The record it sends to the logger afterwards
    has no counterpart among the events of the model and is left out; the
    tables are as the code leaves them. *)
Definition cleanup_orphaned_embeddings : M unit :=
  fun st =>
    (set_embeddings (filter (references_workflow st) (embeddings st)) st, Ok tt).

End EmbeddingStore.

(** ** [WorkflowManager] *)

Module WorkflowManager.

Record t : Type := {
  (** whether an [EmbeddingStore] was passed to the constructor *)
  embedding_store : bool;
  keyword_extractor : KeywordExtractor.t
}.

(** [WorkflowManager.__init__] *)
Definition init (embedding_store : bool) : t :=
  {| embedding_store := embedding_store;
     keyword_extractor := KeywordExtractor.init (Some 15) |}.

Definition record_workflow (self : t) (env : Env) (user_id : Z)
    (category intent_type original_prompt summary : string) (steps : list dict)
    (parameters : option dict) (is_template : bool) (rating : Z) : M Z :=
  let keywords := KeywordExtractor.extract_as_string (keyword_extractor self) original_prompt in
  workflow_id <-
    (fun st =>
       let workflow_id := next_rowid (map Workflow.id (workflows st)) in
       (set_workflows
          (workflows st ++
           [{| Workflow.id := workflow_id;
               Workflow.user_id := user_id;
               Workflow.category := category;
               Workflow.intent_type := intent_type;
               Workflow.keywords := keywords;
               Workflow.original_prompt := original_prompt;
               Workflow.summary := summary;
               Workflow.steps := steps;
               Workflow.parameters :=
                 match parameters with Some p => p | None => [] end;
               Workflow.success_rate := 1;
               Workflow.success_count := 1;
               Workflow.total_count := 1;
               Workflow.rating := rating;
               Workflow.is_template := is_template;
               Workflow.created_at := now st;
               Workflow.updated_at := now st |}]) st, Ok workflow_id)) ;;
  _ <- (if embedding_store self
        then EmbeddingStore.store_embedding env workflow_id "workflows"
               (original_prompt ++ " " ++ summary)%string None
               (Some [("category", category); ("intent_type", intent_type);
                      ("keywords", keywords)])
        else ret tt) ;;
  _ <- emit INFO (RecordedWorkflow workflow_id summary) ;;
  ret workflow_id.

(** The [UPDATE workflows SET success_count = ?, total_count = ?,
    success_rate = ?, updated_at = CURRENT_TIMESTAMP [, steps = ?]
    WHERE id = ?] that [update_workflow_success] builds. *)
Definition update_row (success_count total_count : Z) (success_rate : Q)
    (new_steps : option (list dict)) (timestamp : Z) (w : Workflow.t) : Workflow.t :=
  {| Workflow.id := Workflow.id w;
     Workflow.user_id := Workflow.user_id w;
     Workflow.category := Workflow.category w;
     Workflow.intent_type := Workflow.intent_type w;
     Workflow.keywords := Workflow.keywords w;
     Workflow.original_prompt := Workflow.original_prompt w;
     Workflow.summary := Workflow.summary w;
     Workflow.steps :=
       match new_steps with
       | Some (s :: r) => s :: r
       | _ => Workflow.steps w
       end;
     Workflow.parameters := Workflow.parameters w;
     Workflow.success_rate := success_rate;
     Workflow.success_count := success_count;
     Workflow.total_count := total_count;
     Workflow.rating := Workflow.rating w;
     Workflow.is_template := Workflow.is_template w;
     Workflow.created_at := Workflow.created_at w;
     Workflow.updated_at := timestamp |}.

Definition execute_update (workflow_id success_count total_count : Z)
    (success_rate : Q) (new_steps : option (list dict)) (st : state) : state :=
  set_workflows
    (map (fun w =>
            if Workflow.id w =? workflow_id
            then update_row success_count total_count success_rate new_steps (now st) w
            else w)
         (workflows st)) st.

(** [update_workflow_success] as the coroutine it is.  It gives control back
    to the event loop at its two [await]s: the [SELECT] of [db.fetchone] and
    the [UPDATE] of [db.execute].  The counters are computed in between, from
    the row the [SELECT] returned. *)
Inductive coroutine : Type :=
| AwaitFetchone (workflow_id : Z) (was_successful : bool) (new_steps : option (list dict))
| AwaitExecute (workflow_id success_count total_count : Z) (success_rate : Q)
    (new_steps : option (list dict))
| Returned
| Raised (e : error).

Definition resume (c : coroutine) (st : state) : state * coroutine :=
  match c with
  | AwaitFetchone workflow_id was_successful new_steps =>
      match select_workflow workflow_id st with
      | None => (fst (emit WARNING (WorkflowNotFound workflow_id) st), Returned)
      | Some workflow =>
          let success_count :=
            Workflow.success_count workflow + (if was_successful then 1 else 0) in
          let total_count := Workflow.total_count workflow + 1 in
          if total_count =? 0 then (st, Raised ZeroDivisionError)
          else
            let success_rate := (inject_Z success_count / inject_Z total_count)%Q in
            (st, AwaitExecute workflow_id success_count total_count success_rate new_steps)
      end
  | AwaitExecute workflow_id success_count total_count success_rate new_steps =>
      let st := execute_update workflow_id success_count total_count success_rate new_steps st in
      (fst (emit DEBUG (UpdatedWorkflow workflow_id success_rate) st), Returned)
  | Returned => (st, Returned)
  | Raised e => (st, Raised e)
  end.

(** A coroutine awaited alone: resumed until it finishes. *)
Definition await (c : coroutine) : M unit :=
  fun st =>
    let (st1, c1) := resume c st in
    let (st2, c2) := resume c1 st1 in
    (st2, match c2 with Raised e => Err e | _ => Ok tt end).

Definition update_workflow_success (workflow_id : Z) (was_successful : bool)
    (new_steps : option (list dict)) : M unit :=
  await (AwaitFetchone workflow_id was_successful new_steps).

Definition get_workflow (workflow_id : Z) (st : state) : option Workflow.t :=
  select_workflow workflow_id st.

(** [INSERT INTO workflow_executions (...) VALUES (?, ?, ?, ?, ?)] *)
Definition insert_execution (env : Env) (workflow_id user_id : Z) (status : string)
    (step_results : option (list dict)) (error_message : option string) : M Z :=
  fun st =>
    if workflow_fk env &&
       match select_workflow workflow_id st with Some _ => false | None => true end
    then (st, Err IntegrityError)
    else
      let execution_id := next_rowid (map Execution.id (workflow_executions st)) in
      (set_workflow_executions
         (workflow_executions st ++
          [{| Execution.id := execution_id;
              Execution.workflow_id := workflow_id;
              Execution.user_id := user_id;
              Execution.status := status;
              Execution.step_results :=
                if truthy step_results then step_results else None;
              Execution.error_message := error_message;
              Execution.started_at := now st;
              Execution.completed_at := None |}]) st, Ok execution_id).

(** [UPDATE workflow_executions SET completed_at = CURRENT_TIMESTAMP
    WHERE id = ?] *)
Definition complete_execution (execution_id : Z) : M unit :=
  fun st =>
    (set_workflow_executions
       (map (fun x =>
               if Execution.id x =? execution_id
               then {| Execution.id := Execution.id x;
                       Execution.workflow_id := Execution.workflow_id x;
                       Execution.user_id := Execution.user_id x;
                       Execution.status := Execution.status x;
                       Execution.step_results := Execution.step_results x;
                       Execution.error_message := Execution.error_message x;
                       Execution.started_at := Execution.started_at x;
                       Execution.completed_at := Some (now st) |}
               else x)
            (workflow_executions st)) st, Ok tt).

(** [status in ["completed", "failed"]] *)
Definition terminal (status : string) : bool :=
  String.eqb status "completed" || String.eqb status "failed".

Definition record_execution (env : Env) (workflow_id user_id : Z) (status : string)
    (step_results : option (list dict)) (error_message : option string) : M Z :=
  execution_id <- insert_execution env workflow_id user_id status step_results error_message ;;
  _ <- (if terminal status
        then
          let was_successful := String.eqb status "completed" in
          _ <- update_workflow_success workflow_id was_successful step_results ;;
          if was_successful then complete_execution execution_id else ret tt
        else ret tt) ;;
  ret execution_id.

(** [ORDER BY success_rate DESC, success_count DESC, rating DESC] *)
Definition rank_gtb (a b : Workflow.t) : bool :=
  if negb (Qle_bool (Workflow.success_rate a) (Workflow.success_rate b)) then true
  else if negb (Qle_bool (Workflow.success_rate b) (Workflow.success_rate a)) then false
  else if Workflow.success_count b <? Workflow.success_count a then true
  else if Workflow.success_count a <? Workflow.success_count b then false
  else Workflow.rating b <? Workflow.rating a.

(** [s.split(",")] *)
Fixpoint split_comma (s : string) (cur : string) : list string :=
  match s with
  | EmptyString => [cur]
  | String c r =>
      if (nat_of_ascii c =? 44)%nat then cur :: split_comma r EmptyString
      else split_comma r (cur ++ String c EmptyString)%string
  end.

Definition row_to_workflow (row : Workflow.t) : Workflow.t := row.

(** The candidate rows of [find_similar_workflows]. *)
Definition candidate_rows (user_id : Z) (category : option string) (limit : Z)
    (st : state) : list Workflow.t :=
  sql_limit (limit * 2)
    (sorted_desc rank_gtb
       (filter (fun w =>
                  (Workflow.user_id w =? user_id) &&
                  (if truthy_str category
                   then match category with
                        | Some c => String.eqb (Workflow.category w) c
                        | None => true
                        end
                   else true))
               (workflows st))).

(** [for row in rows: ...], the keyword loop. *)
Fixpoint keyword_loop (keywords : value) (rows : list Workflow.t)
    (workflows : list Workflow.t) : result (list Workflow.t) :=
  match rows with
  | [] => Ok workflows
  | row :: rest =>
      let workflow_keywords := PySet (set_of (split_comma (Workflow.keywords row) EmptyString)) in
      try common := and_ keywords workflow_keywords in
      let keyword_matches := len common in
      if 0 <? keyword_matches
      then keyword_loop keywords rest (workflows ++ [row_to_workflow row])
      else keyword_loop keywords rest workflows
  end.

(** [for result in semantic_results: ...], with its [break]. *)
Fixpoint semantic_loop (limit : Z) (semantic_results : list Hit.t) (st : state)
    (workflows : list Workflow.t) : list Workflow.t :=
  match semantic_results with
  | [] => workflows
  | r :: rest =>
      match get_workflow (Hit.content_id r) st with
      | Some workflow =>
          if negb (existsb (Z.eqb (Workflow.id workflow)) (map Workflow.id workflows))
          then
            let workflows := workflows ++ [workflow] in
            if limit <=? Z.of_nat (List.length workflows) then workflows
            else semantic_loop limit rest st workflows
          else semantic_loop limit rest st workflows
      | None => semantic_loop limit rest st workflows
      end
  end.

(** The second phase: the embedding search with its default threshold. *)
Definition semantic_phase (self : t) (env : Env) (prompt : string) (limit : Z)
    (st : state) (workflows : list Workflow.t) : result (list Workflow.t) :=
  if embedding_store self && (Z.of_nat (List.length workflows) <? limit)
  then
    try semantic_results :=
      EmbeddingStore.search_similar env prompt "workflows" (Some limit) None st in
    Ok (semantic_loop limit semantic_results st workflows)
  else Ok workflows.

Definition find_similar_workflows (self : t) (env : Env) (user_id : Z) (prompt : string)
    (category : option string) (limit : Z) (st : state) : result (list Workflow.t) :=
  let rows := candidate_rows user_id category limit st in
  let keywords := PyList (KeywordExtractor.extract (keyword_extractor self) prompt) in
  try workflows := keyword_loop keywords rows [] in
  try workflows := semantic_phase self env prompt limit st workflows in
  Ok (slice_to limit workflows).

(** Coroutines of the event loop and a schedule for them: the positions of
    the coroutines resumed, in order. *)
Fixpoint resume_nth (i : nat) (cs : list coroutine) (st : state) : state * list coroutine :=
  match cs, i with
  | [], _ => (st, [])
  | c :: r, O => let (st', c') := resume c st in (st', c' :: r)
  | c :: r, S j => let (st', r') := resume_nth j r st in (st', c :: r')
  end.

Fixpoint run (schedule : list nat) (cs : list coroutine) (st : state) : state * list coroutine :=
  match schedule with
  | [] => (st, cs)
  | i :: rest => let (st', cs') := resume_nth i cs st in run rest cs' st'
  end.

(** [if category:] and the condition it adds to a query. *)
Definition optional_filter (value : option string) (column : string) : bool :=
  if truthy_str value
  then match value with
       | Some v => String.eqb column v
       | None => true
       end
  else true.

(** [get_best_workflow]: the first row of [... WHERE user_id = ? AND
    intent_type = ? [AND category = ?] ORDER BY success_rate DESC,
    success_count DESC LIMIT 1]. *)
Definition get_best_workflow (user_id : Z) (intent_type : string)
    (category : option string) (st : state) : option Workflow.t :=
  match
    sql_limit 1
      (sorted_desc (lex_gtb Workflow.success_rate Workflow.success_count)
         (filter (fun w =>
                    (Workflow.user_id w =? user_id) &&
                    String.eqb (Workflow.intent_type w) intent_type &&
                    optional_filter category (Workflow.category w))
                 (workflows st)))
  with
  | row :: _ => Some (row_to_workflow row)
  | [] => None
  end.

(** [get_workflow_templates]: [... WHERE is_template = 1 [AND category = ?]
    [AND intent_type = ?] ORDER BY success_rate DESC, rating DESC LIMIT ?]. *)
Definition get_workflow_templates (category intent_type : option string) (limit : Z)
    (st : state) : list Workflow.t :=
  map row_to_workflow
    (sql_limit limit
       (sorted_desc (lex_gtb Workflow.success_rate Workflow.rating)
          (filter (fun w =>
                     Workflow.is_template w &&
                     optional_filter category (Workflow.category w) &&
                     optional_filter intent_type (Workflow.intent_type w))
                  (workflows st)))).

(** [SET is_template = 1, updated_at = CURRENT_TIMESTAMP] *)
Definition mark_template (timestamp : Z) (w : Workflow.t) : Workflow.t :=
  {| Workflow.id := Workflow.id w;
     Workflow.user_id := Workflow.user_id w;
     Workflow.category := Workflow.category w;
     Workflow.intent_type := Workflow.intent_type w;
     Workflow.keywords := Workflow.keywords w;
     Workflow.original_prompt := Workflow.original_prompt w;
     Workflow.summary := Workflow.summary w;
     Workflow.steps := Workflow.steps w;
     Workflow.parameters := Workflow.parameters w;
     Workflow.success_rate := Workflow.success_rate w;
     Workflow.success_count := Workflow.success_count w;
     Workflow.total_count := Workflow.total_count w;
     Workflow.rating := Workflow.rating w;
     Workflow.is_template := true;
     Workflow.created_at := Workflow.created_at w;
     Workflow.updated_at := timestamp |}.

(** [convert_to_template]: the [UPDATE ... WHERE id = ? AND user_id = ?] and
    [result.rowcount > 0]. *)
Definition convert_to_template (workflow_id user_id : Z) : M bool :=
  fun st =>
    let matched := fun w =>
      (Workflow.id w =? workflow_id) && (Workflow.user_id w =? user_id) in
    (set_workflows
       (map (fun w => if matched w then mark_template (now st) w else w)
            (workflows st)) st,
     Ok (existsb matched (workflows st))).

(** [get_execution_history]: [... WHERE workflow_id = ? ORDER BY started_at
    DESC LIMIT ?]. *)
Definition get_execution_history (workflow_id limit : Z) (st : state)
    : list Execution.t :=
  sql_limit limit
    (sorted_desc (int_gtb Execution.started_at)
       (filter (fun x => Execution.workflow_id x =? workflow_id)
               (workflow_executions st))).

(** The dictionary [get_statistics] returns. *)
Record statistics : Type := {
  total_workflows : Z;
  successful_workflows : Z;
  average_success_rate : Q;
  top_categories : dict;
  top_intents : dict
}.

(** What [sqlite3] raises for a statement it cannot parse. *)
Inductive sqlite_error : Type := OperationalError.

(** Truth value of an [Optional[int]]. *)
Definition truthy_int (o : option Z) : bool :=
  match o with
  | Some n => negb (n =? 0)
  | None => false
  end.

(** The text that [get_statistics] appends to each of its three queries:
    [" WHERE " + " AND ".join(conditions)] under [if user_id or category]. *)
Definition where_clause (user_id : option Z) (category : option string) : string :=
  if truthy_int user_id || truthy_str category
  then (" WHERE " ++
        KeywordExtractor.join " AND "
          ((if truthy_int user_id then ["user_id = ?"] else []) ++
           (if truthy_str category then ["category = ?"] else [])))%string
  else EmptyString.

(** The second query, with the line breaks of its literal written as
    spaces. *)
Definition success_query (user_id : option Z) (category : option string) : string :=
  ("SELECT COUNT(*) as count FROM workflows WHERE success_rate >= 0.8 "
   ++ where_clause user_id category)%string.

Fixpoint occurrences_of (needle hay : string) : nat :=
  match hay with
  | EmptyString => O
  | String _ rest =>
      ((if String.prefix needle hay then 1 else 0) + occurrences_of needle rest)%nat
  end.

Definition sum_rates (rows : list Workflow.t) : Q :=
  fold_right (fun w acc => (Workflow.success_rate w + acc)%Q) 0%Q rows.

(** [get_statistics].  The first query runs in every case.  The second has a
    [WHERE] of its own before [where_clause] is appended: with a filter its
    text has two [WHERE] clauses, which SQLite refuses to parse, and the call
    raises there.  Without a filter the three queries run over the table. *)
Definition get_statistics (user_id : option Z) (category : option string)
    (st : state) : statistics + sqlite_error :=
  if (1 <? occurrences_of "WHERE" (success_query user_id category))%nat
  then inr OperationalError
  else
    let rows := workflows st in
    let total := Z.of_nat (List.length rows) in
    let success :=
      Z.of_nat (List.length
                  (filter (fun w => Qle_bool (8 # 10) (Workflow.success_rate w)) rows)) in
    let avg :=
      match rows with
      | [] => None
      | _ => Some (sum_rates rows / inject_Z total)%Q
      end in
    inl {| total_workflows := total;
           successful_workflows := success;
           average_success_rate :=
             match avg with
             | Some a => if Qeq_bool a 0 then 0%Q else a
             | None => 0%Q
             end;
           top_categories := [];
           top_intents := [] |}.

End WorkflowManager.

(** ** Runs of calls *)

Module Scenario.

(** The arguments of one [record_execution] against a given workflow. *)
Record call : Type := {
  user_id : Z;
  status : string;
  step_results : option (list dict);
  error_message : option string
}.

(** The calls made one after the other, each awaited before the next. *)
Fixpoint record_executions (env : Env) (workflow_id : Z) (calls : list call) : M unit :=
  match calls with
  | [] => ret tt
  | c :: rest =>
      _ <- WorkflowManager.record_execution env workflow_id
             (user_id c) (status c) (step_results c) (error_message c) ;;
      record_executions env workflow_id rest
  end.

Definition terminal_calls (calls : list call) : Z :=
  Z.of_nat (List.length (filter (fun c => WorkflowManager.terminal (status c)) calls)).

Definition completed_calls (calls : list call) : Z :=
  Z.of_nat (List.length (filter (fun c => String.eqb (status c) "completed") calls)).

End Scenario.

(** ** The claims of the specification that the code is compared with *)

Module Claimed.

(** A workflow row that differs from another in its statistics and its
    [updated_at] at most. *)
Definition same_but_statistics (w w' : Workflow.t) : Prop :=
  Workflow.id w' = Workflow.id w /\
  Workflow.user_id w' = Workflow.user_id w /\
  Workflow.category w' = Workflow.category w /\
  Workflow.intent_type w' = Workflow.intent_type w /\
  Workflow.keywords w' = Workflow.keywords w /\
  Workflow.original_prompt w' = Workflow.original_prompt w /\
  Workflow.summary w' = Workflow.summary w /\
  Workflow.steps w' = Workflow.steps w /\
  Workflow.parameters w' = Workflow.parameters w /\
  Workflow.rating w' = Workflow.rating w /\
  Workflow.is_template w' = Workflow.is_template w /\
  Workflow.created_at w' = Workflow.created_at w.

(** "[recordExecution] referencing a nonexistent workflowId is [...] a
    no-op, not raised to the caller": it returns, and no table has changed. *)
Definition not_found_is_noop (env : Env) (workflow_id : Z) (st : state) : Prop :=
  select_workflow workflow_id st = None ->
  forall user_id status step_results error_message,
  exists st' execution_id,
    WorkflowManager.record_execution env workflow_id user_id status
      step_results error_message st = (st', Ok execution_id) /\
    workflows st' = workflows st /\
    workflow_executions st' = workflow_executions st /\
    embeddings st' = embeddings st.

(** "For any two concurrent terminal completions of the same workflow,
    neither increment is lost": however the event loop schedules the two
    [update_workflow_success] coroutines, once both have returned the
    counters have moved by both completions. *)
Definition no_lost_update (workflow_id : Z) (ok1 ok2 : bool) (st : state) : Prop :=
  forall schedule st' w w',
    select_workflow workflow_id st = Some w ->
    WorkflowManager.run schedule
      [WorkflowManager.AwaitFetchone workflow_id ok1 None;
       WorkflowManager.AwaitFetchone workflow_id ok2 None] st
    = (st', [WorkflowManager.Returned; WorkflowManager.Returned]) ->
    select_workflow workflow_id st' = Some w' ->
    Workflow.total_count w' = Workflow.total_count w + 2 /\
    Workflow.success_count w' =
      Workflow.success_count w + (if ok1 then 1 else 0) + (if ok2 then 1 else 0).

(** "Discard results below [threshold], sort descending by similarity, break
    ties by contentId ascending, truncate to [limit]": the order of the
    ranking, and the search over all stored records of the kind. *)
Definition ranked_gtb (a b : Hit.t) : bool :=
  EmbeddingStore.similarity_gtb a b ||
  (Qeq_bool (Hit.similarity a) (Hit.similarity b) &&
   (Hit.content_id a <? Hit.content_id b)).

Definition search (env : Env) (query table_name : string) (limit : Z) (threshold : Q)
    (st : state) : list Hit.t :=
  firstn (Z.to_nat limit)
    (sorted_desc ranked_gtb
       (filter (fun r => Qle_bool threshold (Hit.similarity r))
          (EmbeddingStore.similarity_rows env (EmbeddingStore.embed_text env query)
             table_name st))).

(** "Rank by frequency descending (ties broken by first-occurrence order)":
    the number of occurrences of a word among the candidate words, the place
    of its first occurrence, and the order of the ranking. *)
Fixpoint occurrences (w : string) (ws : list string) : Z :=
  match ws with
  | [] => 0
  | x :: r => (if String.eqb x w then 1 else 0) + occurrences w r
  end.

Fixpoint first_index (w : string) (ws : list string) : nat :=
  match ws with
  | [] => 0
  | x :: r => if String.eqb x w then 0 else S (first_index w r)
  end.

Definition ranks_before (ws : list string) (a b : string) : Prop :=
  occurrences b ws < occurrences a ws \/
  (occurrences a ws = occurrences b ws /\ (first_index a ws < first_index b ws)%nat).

(** "Lower-case, strip non-alphabetic runs shorter than 3 characters, discard
    a fixed stop-word set": what a kept word is. *)
Definition keyword_ok (w : string) : Prop :=
  all_chars is_lower w = true /\
  (3 <= String.length w)%nat /\
  ~ In w KeywordExtractor.STOPWORDS.

(** "K=10 for query-time extraction": the keywords that
    [find_similar_workflows] extracts from a prompt are ten at most. *)
Definition query_keeps_at_most_10 : Prop :=
  forall embedding_store prompt,
    (List.length
       (KeywordExtractor.extract
          (WorkflowManager.keyword_extractor (WorkflowManager.init embedding_store))
          prompt) <= 10)%nat.

(** "[hybridSearch(..., semanticWeight=1, keywordWeight=0)] produces the same
    ordering as pure semantic search over the same corpus." *)
Definition hybrid_is_semantic (env : Env) (query table_name : string) (limit : Z)
    (st : state) : Prop :=
  exists res semantic,
    EmbeddingStore.hybrid_search env query table_name limit 1 0 st = Ok res /\
    EmbeddingStore.search_similar env query table_name (Some limit) None st
    = Ok semantic /\
    map Combined.content_id res = map Hit.content_id semantic.

End Claimed.

(** ** Sample stores *)

Module Sample.

(** An embedder that places a text on a line, by its length in hundredths,
    and the distance of that line. *)
Definition env (workflow_fk : bool) : Env :=
  {| encode := fun text => [(Z.of_nat (String.length text) # 100)%Q];
     distance := fun v q =>
       match v, q with
       | [x], [y] => Qabs (x - y)
       | _, _ => 1%Q
       end;
     fts_match := fun _ _ _ => Ok [];
     workflow_fk := workflow_fk |}.

Definition empty : state :=
  {| workflows := [];
     workflow_executions := [];
     embeddings := [];
     log := [];
     now := 0 |}.

(** The store after one [record_workflow] by user 1. *)
Definition one_workflow : state :=
  fst (WorkflowManager.record_workflow (WorkflowManager.init true) (env false)
         1 "linkedin" "connection_request" "connect with a product manager"
         "sent a connection request"
         [[("action", "open_profile")]; [("action", "click_connect")]]
         None false 5 empty).

(** The embedder and the distance of [env], with a full-text index that
    matches the workflow 2 for any query. *)
Definition fts_env : Env :=
  {| encode := encode (env false);
     distance := distance (env false);
     fts_match := fun _ _ _ =>
       Ok [{| KeywordHit.content_id := 2;
              KeywordHit.content := "message a founder";
              KeywordHit.relevance := (-3 # 1)%Q |}];
     workflow_fk := false |}.

(** The store after a second [record_workflow] by user 1, of a workflow
    whose text is far from a short prompt. *)
Definition two_workflows : state :=
  fst (WorkflowManager.record_workflow (WorkflowManager.init true) (env false)
         1 "linkedin" "message" "message a founder"
         "opened the profile of the founder and sent a long introduction message"
         [[("action", "open_profile")]; [("action", "send_message")]]
         None false 5 one_workflow).

End Sample.

(** ** Sessions: the writes of the two classes, in any order *)

Module Session.

Inductive operation : Type :=
| RecordWorkflow (self : WorkflowManager.t) (user_id : Z)
    (category intent_type original_prompt summary : string) (steps : list dict)
    (parameters : option dict) (is_template : bool) (rating : Z)
| UpdateWorkflowSuccess (workflow_id : Z) (was_successful : bool)
    (new_steps : option (list dict))
| RecordExecution (workflow_id user_id : Z) (status : string)
    (step_results : option (list dict)) (error_message : option string)
| ConvertToTemplate (workflow_id user_id : Z)
| StoreEmbedding (content_id : Z) (table_name content : string)
    (embedding : option vector) (metadata : option dict)
| DeleteEmbeddings (content_id : Z) (table_name : string)
| CleanupOrphanedEmbeddings
| Clock (timestamp : Z).

(** The store after one call, whether it returned or raised. *)
Definition perform (env : Env) (op : operation) (st : state) : state :=
  match op with
  | RecordWorkflow self user_id category intent_type original_prompt summary steps
      parameters is_template rating =>
      fst (WorkflowManager.record_workflow self env user_id category intent_type
             original_prompt summary steps parameters is_template rating st)
  | UpdateWorkflowSuccess workflow_id was_successful new_steps =>
      fst (WorkflowManager.update_workflow_success workflow_id was_successful
             new_steps st)
  | RecordExecution workflow_id user_id status step_results error_message =>
      fst (WorkflowManager.record_execution env workflow_id user_id status
             step_results error_message st)
  | ConvertToTemplate workflow_id user_id =>
      fst (WorkflowManager.convert_to_template workflow_id user_id st)
  | StoreEmbedding content_id table_name content embedding metadata =>
      fst (EmbeddingStore.store_embedding env content_id table_name content
             embedding metadata st)
  | DeleteEmbeddings content_id table_name =>
      fst (EmbeddingStore.delete_embeddings content_id table_name st)
  | CleanupOrphanedEmbeddings =>
      fst (EmbeddingStore.cleanup_orphaned_embeddings st)
  | Clock timestamp =>
      {| workflows := workflows st;
         workflow_executions := workflow_executions st;
         embeddings := embeddings st;
         log := log st;
         now := timestamp |}
  end.

Definition perform_all (env : Env) (ops : list operation) (st : state) : state :=
  fold_left (fun st op => perform env op st) ops st.

(** The statistics of a workflow row agree with each other. *)
Definition consistent (w : Workflow.t) : Prop :=
  1 <= Workflow.total_count w /\
  0 <= Workflow.success_count w <= Workflow.total_count w /\
  (Workflow.success_rate w ==
     inject_Z (Workflow.success_count w) / inject_Z (Workflow.total_count w))%Q.

(** What the schema and the statistics promise of a store. *)
Definition sound (st : state) : Prop :=
  NoDup (map Workflow.id (workflows st)) /\
  NoDup (map Execution.id (workflow_executions st)) /\
  EmbeddingStore.unique_keys (embeddings st) /\
  Forall consistent (workflows st).

(** A computation keeps a property of the store, whether it returns or
    raises. *)
Definition preserves {A : Type} (P : state -> Prop) (m : M A) : Prop :=
  forall st, P st -> P (fst (m st)).

End Session.

(** * Properties *)

(** ** Facts on [sorted_desc] *)

Section SortingFacts.
Context {A : Type} (gtb : A -> A -> bool).
Hypothesis gtb_asym : forall a b, gtb a b = true -> gtb b a = false.
Hypothesis gtb_negtrans :
  forall a b c, gtb a b = false -> gtb b c = false -> gtb a c = false.

Lemma insert_desc_perm (x : A) (l : list A) :
  Permutation (insert_desc gtb x l) (x :: l).
Proof.
  induction l as [|y s IH]; simpl.
  - apply Permutation_refl.
  - destruct (gtb y x).
    + eapply perm_trans; [apply perm_skip, IH | apply perm_swap].
    + apply Permutation_refl.
Qed.

Lemma sorted_desc_perm (l : list A) : Permutation (sorted_desc gtb l) l.
Proof.
  induction l as [|x l IH]; simpl.
  - constructor.
  - eapply perm_trans; [apply insert_desc_perm | apply perm_skip, IH].
Qed.

Lemma insert_desc_placed (before : A -> A -> Prop) (x : A) (s : list A) :
  StronglySorted (placed_before gtb before) s ->
  Forall (before x) s ->
  StronglySorted (placed_before gtb before) (insert_desc gtb x s).
Proof.
  induction s as [|y s IH]; simpl; intros Hs Hx.
  - repeat constructor.
  - inversion Hs as [|? ? Hs' Hy]; subst.
    inversion Hx as [|? ? Hxy Hxs]; subst.
    destruct (gtb y x) eqn:Eyx.
    + constructor; [apply IH; assumption|].
      apply (@Permutation_Forall _ _ (x :: s)).
      * apply Permutation_sym, insert_desc_perm.
      * constructor; [left; exact Eyx | exact Hy].
    + constructor; [exact Hs|].
      constructor.
      * destruct (gtb x y) eqn:Exy; [left; exact Exy | right; split; assumption].
      * rewrite Forall_forall in Hy, Hxs |- *.
        intros z Hz.
        destruct (gtb x z) eqn:Exz; [left; exact Exz|].
        right; split; [|apply Hxs; exact Hz].
        apply gtb_negtrans with (b := y); [|exact Eyx].
        destruct (Hy z Hz) as [H|[H _]]; [apply gtb_asym; exact H | exact H].
Qed.

(** Stability: elements are ordered by key, and equal keys by their place in
    the input. *)
Lemma sorted_desc_stable (before : A -> A -> Prop) (l : list A) :
  StronglySorted before l ->
  StronglySorted (placed_before gtb before) (sorted_desc gtb l).
Proof.
  induction l as [|x l IH]; simpl; intros Hl.
  - constructor.
  - inversion Hl as [|? ? Hl' Hx]; subst.
    apply insert_desc_placed; [apply IH; exact Hl'|].
    apply (@Permutation_Forall _ _ l); [|exact Hx].
    apply Permutation_sym, sorted_desc_perm.
Qed.

Lemma StronglySorted_weaken (R S : A -> A -> Prop) (l : list A) :
  (forall a b, R a b -> S a b) -> StronglySorted R l -> StronglySorted S l.
Proof.
  intros HRS Hl; induction Hl as [|a l Hl IH Ha]; constructor.
  - exact IH.
  - rewrite Forall_forall in Ha |- *; intros b Hb; apply HRS, Ha, Hb.
Qed.

Lemma StronglySorted_total (l : list A) : StronglySorted (fun _ _ => True) l.
Proof. induction l; constructor; [assumption | rewrite Forall_forall; trivial]. Qed.

Lemma sorted_desc_sorted (l : list A) :
  StronglySorted (not_below gtb) (sorted_desc gtb l).
Proof.
  apply StronglySorted_weaken with (R := placed_before gtb (fun _ _ => True)).
  - intros a b [H|[H _]]; [apply gtb_asym; exact H | exact H].
  - apply sorted_desc_stable, StronglySorted_total.
Qed.

Lemma insert_desc_head (x : A) (l : list A) :
  Forall (not_below gtb x) l -> insert_desc gtb x l = x :: l.
Proof.
  destruct l as [|y s]; simpl; [reflexivity|].
  intros H; inversion H as [|? ? Hy _]; subst.
  unfold not_below in Hy; rewrite Hy; reflexivity.
Qed.

(** A list that is already in descending order is left as it is. *)
Lemma sorted_desc_id (l : list A) :
  StronglySorted (not_below gtb) l -> sorted_desc gtb l = l.
Proof.
  induction 1 as [|x l Hl IH Hx]; simpl; [reflexivity|].
  rewrite IH; apply insert_desc_head; exact Hx.
Qed.

Lemma insert_desc_filter (p : A -> bool) (x : A) (s : list A) :
  StronglySorted (not_below gtb) s ->
  filter p (insert_desc gtb x s) =
  if p x then insert_desc gtb x (filter p s) else filter p s.
Proof.
  induction s as [|y s IH]; simpl; intros Hs.
  - destruct (p x); reflexivity.
  - inversion Hs as [|? ? Hs' Hy]; subst.
    destruct (gtb y x) eqn:Eyx; simpl.
    + rewrite (IH Hs').
      destruct (p y), (p x); simpl; try rewrite Eyx; reflexivity.
    + destruct (p x) eqn:Epx; [|reflexivity].
      destruct (p y); simpl; [rewrite Eyx; reflexivity|].
      symmetry; apply insert_desc_head.
      rewrite Forall_forall in Hy |- *.
      intros z Hz; apply filter_In in Hz; destruct Hz as [Hz _].
      unfold not_below in *.
      apply gtb_negtrans with (b := y); [apply Hy; exact Hz | exact Eyx].
Qed.

(** Sorting and filtering commute. *)
Lemma sorted_desc_filter (p : A -> bool) (l : list A) :
  filter p (sorted_desc gtb l) = sorted_desc gtb (filter p l).
Proof.
  induction l as [|x l IH]; simpl; [reflexivity|].
  rewrite insert_desc_filter by apply sorted_desc_sorted.
  rewrite IH; destruct (p x); reflexivity.
Qed.

End SortingFacts.

(** ** The workflows table *)

Import WorkflowManager.

Lemma next_rowid_above (ids : list Z) : Forall (fun i => i < next_rowid ids) ids.
Proof.
  unfold next_rowid; induction ids as [|i ids IH]; cbn [fold_right]; constructor.
  - pose proof (Z.le_max_l i (fold_right Z.max 0 ids)); lia.
  - rewrite Forall_forall in IH |- *; intros j Hj; specialize (IH j Hj).
    pose proof (Z.le_max_r i (fold_right Z.max 0 ids)); lia.
Qed.

Lemma find_app_last {A : Type} (p : A -> bool) (l : list A) (x : A) :
  Forall (fun y => p y = false) l -> p x = true -> find p (l ++ [x]) = Some x.
Proof.
  induction 1 as [|y l Hy _ IH]; simpl; intros Hx.
  - rewrite Hx; reflexivity.
  - rewrite Hy; apply IH; exact Hx.
Qed.

Lemma find_map_same (workflow_id : Z) (g : Workflow.t -> Workflow.t) (l : list Workflow.t) :
  (forall w, Workflow.id (g w) = Workflow.id w) ->
  find (fun w => Workflow.id w =? workflow_id)
       (map (fun w => if Workflow.id w =? workflow_id then g w else w) l)
  = option_map g (find (fun w => Workflow.id w =? workflow_id) l).
Proof.
  intros Hg; induction l as [|w l IH]; simpl; [reflexivity|].
  destruct (Workflow.id w =? workflow_id) eqn:E; simpl.
  - rewrite Hg, E; reflexivity.
  - rewrite E; exact IH.
Qed.

Lemma find_map_other (workflow_id other : Z) (g : Workflow.t -> Workflow.t)
    (l : list Workflow.t) :
  (forall w, Workflow.id (g w) = Workflow.id w) ->
  other <> workflow_id ->
  find (fun w => Workflow.id w =? other)
       (map (fun w => if Workflow.id w =? workflow_id then g w else w) l)
  = find (fun w => Workflow.id w =? other) l.
Proof.
  intros Hg Hne; induction l as [|w l IH]; simpl; [reflexivity|].
  destruct (Workflow.id w =? workflow_id) eqn:E; simpl.
  - rewrite Hg.
    apply Z.eqb_eq in E.
    destruct (Workflow.id w =? other) eqn:E'; [apply Z.eqb_eq in E'; congruence | exact IH].
  - destruct (Workflow.id w =? other); [reflexivity | exact IH].
Qed.

(** What [update_workflow_success] does to a workflow that exists. *)
Lemma update_workflow_success_found (workflow_id : Z) (was_successful : bool)
    (new_steps : option (list dict)) (st : state) (w : Workflow.t) :
  select_workflow workflow_id st = Some w ->
  Workflow.total_count w + 1 <> 0 ->
  let success_count := Workflow.success_count w + (if was_successful then 1 else 0) in
  let total_count := Workflow.total_count w + 1 in
  let success_rate := (inject_Z success_count / inject_Z total_count)%Q in
  update_workflow_success workflow_id was_successful new_steps st
  = (fst (emit DEBUG (UpdatedWorkflow workflow_id success_rate)
            (execute_update workflow_id success_count total_count success_rate new_steps st)),
     Ok tt).
Proof.
  intros Hsel Hne; simpl.
  unfold update_workflow_success, await; simpl.
  rewrite Hsel.
  apply Z.eqb_neq in Hne; rewrite Hne; reflexivity.
Qed.

Lemma select_execute_update (workflow_id sc tc : Z) (sr : Q) (ns : option (list dict))
    (st : state) :
  select_workflow workflow_id (execute_update workflow_id sc tc sr ns st)
  = option_map (update_row sc tc sr ns (now st)) (select_workflow workflow_id st).
Proof.
  unfold select_workflow, execute_update; simpl.
  apply find_map_same; reflexivity.
Qed.

Lemma select_execute_update_other (workflow_id other sc tc : Z) (sr : Q)
    (ns : option (list dict)) (st : state) :
  other <> workflow_id ->
  select_workflow other (execute_update workflow_id sc tc sr ns st)
  = select_workflow other st.
Proof.
  intros Hne; unfold select_workflow, execute_update; simpl.
  apply find_map_other; [reflexivity | exact Hne].
Qed.

(** What [record_execution] does against a workflow that exists: the row it
    leaves and the result it returns. *)
Lemma record_execution_found (env : Env) (workflow_id user_id : Z) (status : string)
    (step_results : option (list dict)) (error_message : option string)
    (st : state) (w : Workflow.t) :
  select_workflow workflow_id st = Some w ->
  Workflow.total_count w + 1 <> 0 ->
  exists st' execution_id,
    record_execution env workflow_id user_id status step_results error_message st
    = (st', Ok execution_id) /\
    now st' = now st /\
    (forall other, other <> workflow_id ->
       select_workflow other st' = select_workflow other st) /\
    select_workflow workflow_id st' =
      Some (if terminal status
            then
              let sc := Workflow.success_count w
                        + (if String.eqb status "completed" then 1 else 0) in
              let tc := Workflow.total_count w + 1 in
              update_row sc tc (inject_Z sc / inject_Z tc)%Q step_results (now st) w
            else w).
Proof.
  intros Hsel Hne.
  unfold record_execution, Database.bind, insert_execution.
  rewrite Hsel, andb_false_r.
  destruct (terminal status) eqn:Et.
  - match goal with |- context [update_workflow_success ?a ?b ?c ?s] =>
      rewrite (update_workflow_success_found a b c s w Hsel Hne)
    end.
    destruct (String.eqb status "completed") eqn:Ec;
      (do 2 eexists; split; [reflexivity|]; split; [reflexivity|];
       unfold select_workflow in *;
       cbn [workflows fst emit execute_update set_workflows set_workflow_executions
            complete_execution now Database.ret];
       split;
       [ intros other Ho; apply find_map_other; [reflexivity | exact Ho]
       | rewrite find_map_same by reflexivity; rewrite Hsel; reflexivity ]).
  - do 2 eexists; split; [reflexivity|]; split; [reflexivity|]; split.
    + intros other _; reflexivity.
    + exact Hsel.
Qed.

Lemma completed_terminal (status : string) :
  String.eqb status "completed" = true -> terminal status = true.
Proof. intros H; unfold terminal; rewrite H; reflexivity. Qed.

(** The row [record_workflow] inserts, found again under the id returned. *)
Lemma record_workflow_inserts (self : t) (env : Env) (user_id : Z)
    (category intent_type original_prompt summary : string) (steps : list dict)
    (parameters : option dict) (is_template : bool) (rating : Z) (st : state) :
  exists st1 workflow_id w0,
    record_workflow self env user_id category intent_type original_prompt summary
      steps parameters is_template rating st = (st1, Ok workflow_id) /\
    get_workflow workflow_id st1 = Some w0 /\
    Workflow.id w0 = workflow_id /\
    Workflow.steps w0 = steps /\
    Workflow.total_count w0 = 1 /\
    Workflow.success_count w0 = 1 /\
    Workflow.success_rate w0 = 1%Q /\
    Workflow.keywords w0
    = KeywordExtractor.extract_as_string (keyword_extractor self) original_prompt.
Proof.
  unfold record_workflow, Database.bind.
  assert (Hfresh : forall rows (x : Workflow.t),
             Workflow.id x = next_rowid (map Workflow.id rows) ->
             find (fun w => Workflow.id w =? next_rowid (map Workflow.id rows))
                  (rows ++ [x]) = Some x).
  { intros rows x Hx; apply find_app_last; [|rewrite Hx; apply Z.eqb_refl].
    pose proof (next_rowid_above (map Workflow.id rows)) as H.
    rewrite Forall_map in H.
    eapply Forall_impl; [|exact H].
    cbn beta; intros a Ha; apply Z.eqb_neq; lia. }
  destruct (embedding_store self);
    (do 3 eexists; split; [reflexivity|]; split;
     [ unfold get_workflow, select_workflow;
       cbn [workflows fst emit set_workflows set_embeddings
            EmbeddingStore.store_embedding Database.bind Database.ret];
       apply Hfresh; reflexivity
     | repeat split ]).
Qed.

Lemma record_executions_counters (env : Env) (workflow_id : Z) (calls : list Scenario.call) :
  forall (st : state) (w : Workflow.t),
    select_workflow workflow_id st = Some w ->
    0 <= Workflow.total_count w ->
    exists st' w',
      Scenario.record_executions env workflow_id calls st = (st', Ok tt) /\
      select_workflow workflow_id st' = Some w' /\
      Workflow.total_count w' = Workflow.total_count w + Scenario.terminal_calls calls /\
      Workflow.success_count w' = Workflow.success_count w + Scenario.completed_calls calls /\
      ((Workflow.success_rate w ==
          inject_Z (Workflow.success_count w) / inject_Z (Workflow.total_count w))%Q ->
       (Workflow.success_rate w' ==
          inject_Z (Workflow.success_count w') / inject_Z (Workflow.total_count w'))%Q).
Proof.
  unfold Scenario.terminal_calls, Scenario.completed_calls.
  induction calls as [|c calls IH]; intros st w Hsel Hpos.
  - exists st, w; cbn [filter List.length Z.of_nat]; repeat split; try lia; auto.
  - assert (Hne : Workflow.total_count w + 1 <> 0) by lia.
    destruct (record_execution_found env workflow_id (Scenario.user_id c)
                (Scenario.status c) (Scenario.step_results c)
                (Scenario.error_message c) st w Hsel Hne)
      as (st1 & eid & Hrun & _ & _ & Hsel1).
    cbn [Scenario.record_executions]; unfold Database.bind at 1; rewrite Hrun.
    cbn [filter].
    destruct (terminal (Scenario.status c)) eqn:Et.
    + specialize (IH st1 _ Hsel1).
      cbn [update_row Workflow.total_count Workflow.success_count Workflow.success_rate] in IH.
      destruct IH as (st' & w' & Hrun' & Hsel' & Htc & Hsc & Hsr); [lia|].
      exists st', w'; split; [exact Hrun'|]; split; [exact Hsel'|].
      destruct (String.eqb (Scenario.status c) "completed") eqn:Ec;
        cbn [List.length]; rewrite ?Nat2Z.inj_succ;
        (split; [lia|]); (split; [lia|]);
        intros _; apply Hsr; reflexivity.
    + assert (Ec : String.eqb (Scenario.status c) "completed" = false).
      { destruct (String.eqb (Scenario.status c) "completed") eqn:Ec; [|reflexivity].
        rewrite (completed_terminal _ Ec) in Et; discriminate. }
      rewrite Ec.
      destruct (IH st1 w Hsel1 Hpos) as (st' & w' & Hrun' & Hsel' & Htc & Hsc & Hsr).
      exists st', w'; repeat split; assumption.
Qed.

(** C1.  A workflow created by [record_workflow] has [total_count = 1],
    [success_count = 1] and [success_rate = 1].  After any run of
    [record_execution] calls against it, [N] of them with a terminal status
    and [k] of them with the status [completed], it has
    [total_count = N + 1], [success_count = k + 1] and
    [success_rate = success_count / total_count], and every call returned. *)
Theorem record_execution_counters (self : t) (env : Env) (user_id : Z)
    (category intent_type original_prompt summary : string) (steps : list dict)
    (parameters : option dict) (is_template : bool) (rating : Z)
    (calls : list Scenario.call) (st : state) :
  exists st1 workflow_id w0 st2 w,
    record_workflow self env user_id category intent_type original_prompt summary
      steps parameters is_template rating st = (st1, Ok workflow_id) /\
    get_workflow workflow_id st1 = Some w0 /\
    Workflow.total_count w0 = 1 /\
    Workflow.success_count w0 = 1 /\
    (Workflow.success_rate w0 == 1)%Q /\
    Scenario.record_executions env workflow_id calls st1 = (st2, Ok tt) /\
    get_workflow workflow_id st2 = Some w /\
    Workflow.total_count w = Scenario.terminal_calls calls + 1 /\
    Workflow.success_count w = Scenario.completed_calls calls + 1 /\
    (Workflow.success_rate w ==
       inject_Z (Workflow.success_count w) / inject_Z (Workflow.total_count w))%Q.
Proof.
  destruct (record_workflow_inserts self env user_id category intent_type
              original_prompt summary steps parameters is_template rating st)
    as (st1 & workflow_id & w0 & Hrec & Hget & _ & _ & Htc & Hsc & Hsr & _).
  destruct (record_executions_counters env workflow_id calls st1 w0 Hget)
    as (st2 & w & Hrun & Hsel & Htc' & Hsc' & Hsr'); [lia|].
  exists st1, workflow_id, w0, st2, w.
  repeat split; try assumption; try lia.
  - rewrite Hsr; reflexivity.
  - apply Hsr'; rewrite Hsr, Hsc, Htc; reflexivity.
Qed.

(** ** Steps and statistics *)

Lemma update_row_frame (sc tc : Z) (sr : Q) (ns : option (list dict)) (ts : Z)
    (w : Workflow.t) :
  truthy ns = false ->
  Claimed.same_but_statistics w (update_row sc tc sr ns ts w).
Proof.
  intros Hns; unfold Claimed.same_but_statistics; cbn.
  repeat split.
  destruct ns as [[|s r]|]; [reflexivity | discriminate | reflexivity].
Qed.

(** When the counters cannot be computed the call raises after the insert
    and the workflows table is as it was. *)
Lemma record_execution_division (env : Env) (workflow_id user_id : Z) (status : string)
    (step_results : option (list dict)) (error_message : option string)
    (st : state) (w : Workflow.t) :
  select_workflow workflow_id st = Some w ->
  Workflow.total_count w + 1 = 0 ->
  terminal status = true ->
  snd (record_execution env workflow_id user_id status step_results error_message st)
  = Err ZeroDivisionError /\
  workflows (fst (record_execution env workflow_id user_id status step_results
                    error_message st)) = workflows st.
Proof.
  intros Hsel Hz Ht.
  unfold record_execution, Database.bind, insert_execution.
  rewrite Hsel, andb_false_r, Ht.
  unfold update_workflow_success, await.
  cbn [resume].
  change (select_workflow workflow_id (set_workflow_executions ?x st))
    with (select_workflow workflow_id st).
  rewrite Hsel.
  apply Z.eqb_eq in Hz; rewrite Hz.
  split; reflexivity.
Qed.

(** The calls that leave the steps alone.  A [record_execution] with a
    terminal status whose [step_results] are [None] or empty (so that
    [if new_steps:] is not taken) leaves the steps of an existing workflow, and every
    field of it other than [success_count], [total_count], [success_rate] and
    [updated_at], as they were; the other workflows are untouched. *)
Theorem record_execution_keeps_steps (env : Env) (workflow_id user_id : Z)
    (status : string) (step_results : option (list dict))
    (error_message : option string) (st : state) (w : Workflow.t) :
  select_workflow workflow_id st = Some w ->
  terminal status = true ->
  truthy step_results = false ->
  let run := record_execution env workflow_id user_id status step_results
               error_message st in
  exists w',
    select_workflow workflow_id (fst run) = Some w' /\
    Workflow.steps w' = Workflow.steps w /\
    Claimed.same_but_statistics w w' /\
    (forall other, other <> workflow_id ->
       select_workflow other (fst run) = select_workflow other st) /\
    (Workflow.total_count w + 1 <> 0 ->
     (exists execution_id, snd run = Ok execution_id) /\
     Workflow.total_count w' = Workflow.total_count w + 1 /\
     Workflow.success_count w' =
       Workflow.success_count w + (if String.eqb status "completed" then 1 else 0) /\
     (Workflow.success_rate w' ==
        inject_Z (Workflow.success_count w') / inject_Z (Workflow.total_count w'))%Q /\
     Workflow.updated_at w' = now st).
Proof.
  intros Hsel Ht Hns run.
  destruct (Z.eq_dec (Workflow.total_count w + 1) 0) as [Hz|Hne].
  - destruct (record_execution_division env workflow_id user_id status step_results
                error_message st w Hsel Hz Ht) as [_ Hw].
    fold run in Hw.
    exists w; unfold select_workflow in *; rewrite Hw.
    split; [exact Hsel|]; split; [reflexivity|]; split.
    + unfold Claimed.same_but_statistics; repeat split.
    + split; [reflexivity | intros H; contradiction].
  - destruct (record_execution_found env workflow_id user_id status step_results
                error_message st w Hsel Hne) as (st' & eid & Hrun & _ & Hother & Hsel').
    fold run in Hrun; rewrite Hrun; cbn [fst snd].
    rewrite Ht in Hsel'.
    eexists; split; [exact Hsel'|].
    pose proof (update_row_frame
                  (Workflow.success_count w
                   + (if String.eqb status "completed" then 1 else 0))
                  (Workflow.total_count w + 1)
                  (inject_Z (Workflow.success_count w
                             + (if String.eqb status "completed" then 1 else 0))
                   / inject_Z (Workflow.total_count w + 1))%Q
                  step_results (now st) w Hns) as Hframe.
    split; [apply Hframe|]; split; [exact Hframe|]; split; [exact Hother|].
    intros _; split; [eexists; reflexivity|].
    cbn; repeat split; reflexivity.
Qed.

(** The other case: a non-empty [step_results] is written to the steps. *)
Lemma record_execution_replaces_steps (env : Env) (workflow_id user_id : Z)
    (status : string) (s : dict) (r : list dict) (error_message : option string)
    (st : state) (w : Workflow.t) :
  select_workflow workflow_id st = Some w ->
  terminal status = true ->
  Workflow.total_count w + 1 <> 0 ->
  exists w',
    select_workflow workflow_id
      (fst (record_execution env workflow_id user_id status (Some (s :: r))
              error_message st)) = Some w' /\
    Workflow.steps w' = s :: r.
Proof.
  intros Hsel Ht Hne.
  destruct (record_execution_found env workflow_id user_id status (Some (s :: r))
              error_message st w Hsel Hne) as (st' & eid & Hrun & _ & _ & Hsel').
  rewrite Hrun; cbn [fst]; rewrite Ht in Hsel'.
  eexists; split; [exact Hsel' | reflexivity].
Qed.

(** C8.  [record_execution] has no parameter for replacement steps: it
    forwards [step_results], the results of the execution, as the
    [new_steps] of [update_workflow_success], which writes any non-empty
    list to the [steps] column.  So a terminal call that only reports its
    results replaces the steps of an existing workflow by that report:
    whenever the report differs from the steps, the steps are not what they
    were. *)
Theorem record_execution_overwrites_steps (env : Env) (workflow_id user_id : Z)
    (status : string) (s : dict) (r : list dict) (error_message : option string)
    (st : state) (w : Workflow.t) :
  get_workflow workflow_id st = Some w ->
  terminal status = true ->
  Workflow.total_count w + 1 <> 0 ->
  Workflow.steps w <> s :: r ->
  exists w',
    get_workflow workflow_id
      (fst (record_execution env workflow_id user_id status (Some (s :: r))
              error_message st)) = Some w' /\
    Workflow.steps w' = s :: r /\
    Workflow.steps w' <> Workflow.steps w.
Proof.
  unfold get_workflow; intros Hsel Ht Hne Hdiff.
  destruct (record_execution_found env workflow_id user_id status (Some (s :: r))
              error_message st w Hsel Hne) as (st' & eid & Hrun & _ & _ & Hsel').
  rewrite Hrun; cbn [fst]; rewrite Ht in Hsel'.
  eexists; split; [exact Hsel'|]; split; [reflexivity|].
  cbn; intros Heq; apply Hdiff; symmetry; exact Heq.
Qed.

(** At a concrete input: a failed execution of the workflow recorded first,
    reporting one error. *)
Lemma record_execution_overwrites_steps_witness :
  exists w w',
    get_workflow 1 Sample.one_workflow = Some w /\
    Workflow.steps w = [[("action", "open_profile")]; [("action", "click_connect")]] /\
    get_workflow 1
      (fst (record_execution (Sample.env false) 1 1 "failed"
              (Some [[("error", "timeout")]]) (Some "timeout") Sample.one_workflow))
    = Some w' /\
    Workflow.steps w' = [[("error", "timeout")]].
Proof.
  destruct (get_workflow 1 Sample.one_workflow) as [w|] eqn:Hsel;
    [|vm_compute in Hsel; discriminate].
  assert (Hw : Workflow.steps w
               = [[("action", "open_profile")]; [("action", "click_connect")]] /\
               Workflow.total_count w = 1).
  { vm_compute in Hsel; injection Hsel as <-; split; reflexivity. }
  destruct Hw as [Hsteps Htc].
  destruct (record_execution_overwrites_steps (Sample.env false) 1 1 "failed"
              [("error", "timeout")] [] (Some "timeout") Sample.one_workflow w
              Hsel eq_refl) as (w' & Hget & Hnew & _).
  - rewrite Htc; discriminate.
  - rewrite Hsteps; discriminate.
  - exists w, w'; split; [reflexivity|]; split; [exact Hsteps|].
    split; [exact Hget | exact Hnew].
Defined.

Lemma record_execution_keeps_steps_witness :
  exists w w',
    select_workflow 1 Sample.one_workflow = Some w /\
    select_workflow 1
      (fst (record_execution (Sample.env false) 1 1 "failed" None None
              Sample.one_workflow)) = Some w' /\
    Workflow.steps w' = Workflow.steps w /\
    Workflow.total_count w' = 2.
Proof.
  destruct (select_workflow 1 Sample.one_workflow) as [w|] eqn:Hsel;
    [|vm_compute in Hsel; discriminate].
  destruct (record_execution_keeps_steps (Sample.env false) 1 1 "failed" None None
              Sample.one_workflow w Hsel eq_refl eq_refl)
    as (w' & Hsel' & Hsteps & _ & _ & Hstat).
  exists w, w'; split; [reflexivity|]; split; [exact Hsel'|]; split; [exact Hsteps|].
  assert (Htc : Workflow.total_count w = 1).
  { vm_compute in Hsel; injection Hsel as <-; reflexivity. }
  destruct Hstat as (_ & Htc' & _); [rewrite Htc; discriminate|].
  rewrite Htc', Htc; reflexivity.
Defined.

(** ** A workflow id that does not exist *)

Lemma update_workflow_success_not_found (workflow_id : Z) (was_successful : bool)
    (new_steps : option (list dict)) (st : state) :
  select_workflow workflow_id st = None ->
  update_workflow_success workflow_id was_successful new_steps st
  = (fst (emit WARNING (WorkflowNotFound workflow_id) st), Ok tt).
Proof.
  intros Hsel; unfold update_workflow_success, await; cbn [resume].
  rewrite Hsel; reflexivity.
Qed.

Lemma map_last_execution (f : Execution.t -> Execution.t) (xs : list Execution.t)
    (x : Execution.t) :
  Execution.id x = next_rowid (map Execution.id xs) ->
  map (fun y => if Execution.id y =? Execution.id x then f y else y) (xs ++ [x])
  = xs ++ [f x].
Proof.
  intros Hx; rewrite map_app; cbn [map]; rewrite Z.eqb_refl; f_equal.
  pose proof (next_rowid_above (map Execution.id xs)) as H.
  rewrite Forall_map, Forall_forall in H.
  rewrite <- (map_id xs) at 2.
  apply map_ext_in; intros y Hy; specialize (H y Hy).
  destruct (Execution.id y =? Execution.id x) eqn:E; [|reflexivity].
  apply Z.eqb_eq in E; lia.
Qed.

(** C7, as the code has it.  For a workflow id that is not in the store,
    [update_workflow_success] logs a warning, changes no table and returns.
    [record_execution] never touches the workflows and the embeddings, but it
    is not a no-op: where the schema does not enforce the foreign key it
    appends the execution row (stamped as completed for the status
    [completed]), logs the warning of [update_workflow_success] for a terminal
    status and returns the id of the row; where the schema enforces it, the
    insert raises [IntegrityError] to the caller and nothing is written. *)
Theorem not_found_behaviour (env : Env) (workflow_id : Z) (st : state) :
  select_workflow workflow_id st = None ->
  (forall was_successful new_steps,
     let run := update_workflow_success workflow_id was_successful new_steps st in
     snd run = Ok tt /\
     workflows (fst run) = workflows st /\
     workflow_executions (fst run) = workflow_executions st /\
     embeddings (fst run) = embeddings st /\
     log (fst run) = log st ++ [(WARNING, WorkflowNotFound workflow_id)]) /\
  (forall user_id status step_results error_message,
     let run := record_execution env workflow_id user_id status step_results
                  error_message st in
     workflows (fst run) = workflows st /\
     embeddings (fst run) = embeddings st /\
     if workflow_fk env
     then run = (st, Err IntegrityError)
     else
       let execution_id := next_rowid (map Execution.id (workflow_executions st)) in
       snd run = Ok execution_id /\
       workflow_executions (fst run) =
         workflow_executions st ++
         [{| Execution.id := execution_id;
             Execution.workflow_id := workflow_id;
             Execution.user_id := user_id;
             Execution.status := status;
             Execution.step_results :=
               if truthy step_results then step_results else None;
             Execution.error_message := error_message;
             Execution.started_at := now st;
             Execution.completed_at :=
               if String.eqb status "completed" then Some (now st) else None |}] /\
       log (fst run) =
         log st ++ (if terminal status then [(WARNING, WorkflowNotFound workflow_id)]
                    else [])).
Proof.
  intros Hsel; split.
  - intros ok ns; cbv zeta.
    rewrite (update_workflow_success_not_found _ _ _ _ Hsel).
    repeat split.
  - intros user_id status step_results error_message; cbv zeta.
    unfold record_execution, Database.bind, insert_execution.
    rewrite Hsel.
    destruct (workflow_fk env); cbn [andb]; [repeat split|].
    unfold terminal.
    destruct (String.eqb status "completed") eqn:Ec; cbn [orb].
    + rewrite update_workflow_success_not_found by exact Hsel.
      cbn [fst snd emit complete_execution set_workflow_executions workflows
           workflow_executions embeddings log now Database.ret].
      repeat split.
      * apply (map_last_execution
                 (fun x => {| Execution.id := Execution.id x;
                              Execution.workflow_id := Execution.workflow_id x;
                              Execution.user_id := Execution.user_id x;
                              Execution.status := Execution.status x;
                              Execution.step_results := Execution.step_results x;
                              Execution.error_message := Execution.error_message x;
                              Execution.started_at := Execution.started_at x;
                              Execution.completed_at := Some (now st) |})
                 (workflow_executions st)
                 {| Execution.id := next_rowid (map Execution.id (workflow_executions st));
                    Execution.workflow_id := workflow_id;
                    Execution.user_id := user_id;
                    Execution.status := status;
                    Execution.step_results :=
                      if truthy step_results then step_results else None;
                    Execution.error_message := error_message;
                    Execution.started_at := now st;
                    Execution.completed_at := None |}).
        reflexivity.
    + destruct (String.eqb status "failed").
      * rewrite update_workflow_success_not_found by exact Hsel.
        repeat split.
      * cbn [fst snd Database.ret set_workflow_executions workflows
             workflow_executions embeddings log].
        repeat split; symmetry; apply app_nil_r.
Qed.

Lemma not_found_behaviour_witness :
  select_workflow 99 Sample.one_workflow = None /\
  List.length
    (workflow_executions
       (fst (record_execution (Sample.env false) 99 1 "completed" None None
               Sample.one_workflow))) = 1%nat /\
  record_execution (Sample.env true) 99 1 "completed" None None Sample.one_workflow
  = (Sample.one_workflow, Err IntegrityError).
Proof.
  assert (Hsel : select_workflow 99 Sample.one_workflow = None) by reflexivity.
  split; [exact Hsel|]; split.
  - destruct (not_found_behaviour (Sample.env false) 99 Sample.one_workflow Hsel)
      as [_ H].
    destruct (H 1 "completed" None None) as (_ & _ & _ & Hx & _).
    rewrite Hx; reflexivity.
  - destruct (not_found_behaviour (Sample.env true) 99 Sample.one_workflow Hsel)
      as [_ H].
    destruct (H 1 "completed" None None) as (_ & _ & Hx).
    exact Hx.
Defined.

(** C7 as stated fails on the code, whether or not the schema enforces the
    foreign key: against the unknown id 99 a [record_execution] either leaves
    a new execution row or raises. *)
Lemma not_found_is_not_noop :
  ~ Claimed.not_found_is_noop (Sample.env false) 99 Sample.one_workflow /\
  ~ Claimed.not_found_is_noop (Sample.env true) 99 Sample.one_workflow.
Proof.
  split; intros H;
    destruct (H eq_refl 1 "completed" None None) as (st' & eid & Hrun & _ & Hx & _).
  - apply (f_equal (fun r => List.length (workflow_executions (fst r)))) in Hrun.
    cbn [fst] in Hrun; rewrite Hx in Hrun.
    vm_compute in Hrun; discriminate.
  - apply (f_equal snd) in Hrun; vm_compute in Hrun; discriminate.
Qed.

(** ** The two round trips of [update_workflow_success] *)

Lemma resume_fetchone (workflow_id : Z) (was_successful : bool)
    (new_steps : option (list dict)) (st : state) (w : Workflow.t) :
  select_workflow workflow_id st = Some w ->
  Workflow.total_count w + 1 <> 0 ->
  resume (AwaitFetchone workflow_id was_successful new_steps) st
  = (st, AwaitExecute workflow_id
           (Workflow.success_count w + (if was_successful then 1 else 0))
           (Workflow.total_count w + 1)
           (inject_Z (Workflow.success_count w + (if was_successful then 1 else 0))
            / inject_Z (Workflow.total_count w + 1))%Q
           new_steps).
Proof.
  intros Hsel Hne; cbn [resume]; rewrite Hsel.
  apply Z.eqb_neq in Hne; rewrite Hne; reflexivity.
Qed.

Lemma resume_execute (workflow_id sc tc : Z) (sr : Q) (ns : option (list dict))
    (st : state) :
  exists st',
    resume (AwaitExecute workflow_id sc tc sr ns) st = (st', Returned) /\
    select_workflow workflow_id st'
    = option_map (update_row sc tc sr ns (now st)) (select_workflow workflow_id st).
Proof.
  eexists; split; [reflexivity|].
  exact (select_execute_update workflow_id sc tc sr ns st).
Qed.

(** Two completions run one after the other. *)
Lemma serial_updates (workflow_id : Z) (ok1 ok2 : bool)
    (ns1 ns2 : option (list dict)) (st : state) (w : Workflow.t) :
  select_workflow workflow_id st = Some w ->
  0 <= Workflow.total_count w ->
  let c1 := AwaitFetchone workflow_id ok1 ns1 in
  let c2 := AwaitFetchone workflow_id ok2 ns2 in
  let b1 := if ok1 then 1 else 0 in
  let b2 := if ok2 then 1 else 0 in
  exists st' w',
    run [0; 0; 1; 1]%nat [c1; c2] st = (st', [Returned; Returned]) /\
    select_workflow workflow_id st' = Some w' /\
    Workflow.total_count w' = Workflow.total_count w + 2 /\
    Workflow.success_count w' = Workflow.success_count w + b1 + b2.
Proof.
  intros Hsel Hpos c1 c2 b1 b2.
  assert (Hne : Workflow.total_count w + 1 <> 0) by lia.
  cbn [run resume_nth].
  unfold c1 at 1; rewrite (resume_fetchone _ _ _ _ _ Hsel Hne).
  destruct (resume_execute workflow_id (Workflow.success_count w + b1)
              (Workflow.total_count w + 1)
              (inject_Z (Workflow.success_count w + b1)
               / inject_Z (Workflow.total_count w + 1))%Q ns1 st)
    as (st1 & Hrun1 & Hsel1).
  fold b1; rewrite Hrun1.
  rewrite Hsel in Hsel1; cbn [option_map] in Hsel1.
  unfold c2.
  rewrite (resume_fetchone _ _ _ _ _ Hsel1)
    by (cbn [update_row Workflow.total_count]; lia).
  match goal with |- context [resume (AwaitExecute ?i ?a ?b ?c ?d) st1] =>
    destruct (resume_execute i a b c d st1) as (st2 & Hrun2 & Hsel2)
  end.
  rewrite Hrun2.
  rewrite Hsel1 in Hsel2; cbn [option_map] in Hsel2.
  do 2 eexists; split; [reflexivity|]; split; [exact Hsel2|].
  cbn [update_row Workflow.total_count Workflow.success_count]; fold b2; lia.
Qed.

(** Two completions whose reads are both resumed before their writes. *)
Lemma interleaved_updates (workflow_id : Z) (ok1 ok2 : bool)
    (ns1 ns2 : option (list dict)) (st : state) (w : Workflow.t) :
  select_workflow workflow_id st = Some w ->
  0 <= Workflow.total_count w ->
  let c1 := AwaitFetchone workflow_id ok1 ns1 in
  let c2 := AwaitFetchone workflow_id ok2 ns2 in
  let b2 := if ok2 then 1 else 0 in
  exists st' w',
    run [0; 1; 0; 1]%nat [c1; c2] st = (st', [Returned; Returned]) /\
    select_workflow workflow_id st' = Some w' /\
    Workflow.total_count w' = Workflow.total_count w + 1 /\
    Workflow.success_count w' = Workflow.success_count w + b2.
Proof.
  intros Hsel Hpos c1 c2 b2.
  pose (b1 := if ok1 then 1 else 0).
  assert (Hne : Workflow.total_count w + 1 <> 0) by lia.
  cbn [run resume_nth].
  unfold c1 at 1; rewrite (resume_fetchone _ _ _ _ _ Hsel Hne).
  unfold c2; rewrite (resume_fetchone _ _ _ _ _ Hsel Hne).
  fold b1 b2.
  destruct (resume_execute workflow_id (Workflow.success_count w + b1)
              (Workflow.total_count w + 1)
              (inject_Z (Workflow.success_count w + b1)
               / inject_Z (Workflow.total_count w + 1))%Q ns1 st)
    as (st1 & Hrun1 & Hsel1).
  rewrite Hrun1.
  rewrite Hsel in Hsel1; cbn [option_map] in Hsel1.
  destruct (resume_execute workflow_id (Workflow.success_count w + b2)
              (Workflow.total_count w + 1)
              (inject_Z (Workflow.success_count w + b2)
               / inject_Z (Workflow.total_count w + 1))%Q ns2 st1)
    as (st2 & Hrun2 & Hsel2).
  rewrite Hrun2.
  rewrite Hsel1 in Hsel2; cbn [option_map] in Hsel2.
  do 2 eexists; split; [reflexivity|]; split; [exact Hsel2|].
  cbn [update_row Workflow.total_count Workflow.success_count]; lia.
Qed.

(** C2, as the code has it.  [update_workflow_success] reads the row in one
    round trip, which leaves the store as it is, and computes the counters in
    memory; it writes them back in a second round trip.  Two completions of
    one workflow that run one after the other move [total_count] by two and
    [success_count] by both outcomes.  When the event loop resumes both reads
    before both writes, the second write overwrites the first:
    [total_count] has moved by one and only the outcome of the later writer
    is counted. *)
Theorem update_is_read_then_write (workflow_id : Z) (ok1 ok2 : bool)
    (ns1 ns2 : option (list dict)) (st : state) (w : Workflow.t) :
  select_workflow workflow_id st = Some w ->
  0 <= Workflow.total_count w ->
  let c1 := AwaitFetchone workflow_id ok1 ns1 in
  let c2 := AwaitFetchone workflow_id ok2 ns2 in
  let b1 := if ok1 then 1 else 0 in
  let b2 := if ok2 then 1 else 0 in
  (exists sc tc sr,
     resume c1 st = (st, AwaitExecute workflow_id sc tc sr ns1) /\
     sc = Workflow.success_count w + b1 /\ tc = Workflow.total_count w + 1) /\
  (exists st' w',
     run [0; 0; 1; 1]%nat [c1; c2] st = (st', [Returned; Returned]) /\
     select_workflow workflow_id st' = Some w' /\
     Workflow.total_count w' = Workflow.total_count w + 2 /\
     Workflow.success_count w' = Workflow.success_count w + b1 + b2) /\
  (exists st' w',
     run [0; 1; 0; 1]%nat [c1; c2] st = (st', [Returned; Returned]) /\
     select_workflow workflow_id st' = Some w' /\
     Workflow.total_count w' = Workflow.total_count w + 1 /\
     Workflow.success_count w' = Workflow.success_count w + b2).
Proof.
  intros Hsel Hpos c1 c2 b1 b2.
  assert (Hne : Workflow.total_count w + 1 <> 0) by lia.
  split; [|split].
  - do 3 eexists; split; [apply resume_fetchone; eassumption | split; reflexivity].
  - exact (serial_updates workflow_id ok1 ok2 ns1 ns2 st w Hsel Hpos).
  - exact (interleaved_updates workflow_id ok1 ok2 ns1 ns2 st w Hsel Hpos).
Qed.

Lemma update_is_read_then_write_witness :
  exists st' w',
    run [0; 1; 0; 1]%nat [AwaitFetchone 1 true None; AwaitFetchone 1 false None]
      Sample.one_workflow = (st', [Returned; Returned]) /\
    select_workflow 1 st' = Some w' /\
    Workflow.total_count w' = 2 /\
    Workflow.success_count w' = 1.
Proof.
  destruct (select_workflow 1 Sample.one_workflow) as [w|] eqn:Hsel;
    [|vm_compute in Hsel; discriminate].
  assert (Hw : Workflow.total_count w = 1 /\ Workflow.success_count w = 1).
  { vm_compute in Hsel; injection Hsel as <-; split; reflexivity. }
  destruct Hw as [Htc Hsc].
  destruct (update_is_read_then_write 1 true false None None Sample.one_workflow w Hsel)
    as (_ & _ & st' & w' & Hrun & Hsel' & Htc' & Hsc'); [lia|].
  exists st', w'; repeat split; [exact Hrun | exact Hsel' | lia | lia].
Defined.

(** C2 as stated fails on the code: with the reads of two successful
    completions resumed before their writes, the workflow recorded once ends
    with [total_count = 2], not 3. *)
Lemma lost_update : ~ Claimed.no_lost_update 1 true true Sample.one_workflow.
Proof.
  intros H.
  destruct (select_workflow 1 Sample.one_workflow) as [w|] eqn:Hsel;
    [|vm_compute in Hsel; discriminate].
  destruct (interleaved_updates 1 true true None None Sample.one_workflow w Hsel)
    as (st' & w' & Hrun & Hsel' & Htc' & _).
  { vm_compute in Hsel; injection Hsel as <-; cbn; lia. }
  destruct (H [0; 1; 0; 1]%nat st' w w' Hsel Hrun Hsel') as [Htc _].
  lia.
Qed.

(** ** The embeddings table *)

Import EmbeddingStore.

Lemma same_key_overwrite (content_id : Z) (table_name : string) (row e : Embedding.t) :
  same_key content_id table_name (overwrite row e) = same_key content_id table_name e.
Proof. reflexivity. Qed.

Lemma existsb_filter_nil {A : Type} (p : A -> bool) (l : list A) :
  existsb p l = false -> filter p l = [].
Proof.
  induction l as [|x l IH]; simpl; [reflexivity|].
  destruct (p x); simpl; [discriminate | exact IH].
Qed.

Lemma existsb_filter_cons {A : Type} (p : A -> bool) (l : list A) :
  existsb p l = true -> (1 <= List.length (filter p l))%nat.
Proof.
  induction l as [|x l IH]; simpl; [discriminate|].
  destruct (p x); simpl; [lia | exact IH].
Qed.

Lemma filter_map_overwrite (p q : Embedding.t -> bool) (row : Embedding.t)
    (rows : list Embedding.t) :
  (forall e, p (overwrite row e) = p e) ->
  filter p (map (fun e => if q e then overwrite row e else e) rows)
  = map (fun e => if q e then overwrite row e else e) (filter p rows).
Proof.
  intros Hp; induction rows as [|e rows IH]; simpl; [reflexivity|].
  destruct (q e) eqn:Eq; rewrite ?Hp; destruct (p e); simpl; rewrite ?Eq, IH; reflexivity.
Qed.

Lemma same_key_eq (c1 c2 : Z) (t1 t2 : string) (e : Embedding.t) :
  same_key c1 t1 e = true -> same_key c2 t2 e = true -> c1 = c2 /\ t1 = t2.
Proof.
  unfold same_key; intros H1 H2.
  apply andb_prop in H1; destruct H1 as [H1 H1'].
  apply andb_prop in H2; destruct H2 as [H2 H2'].
  apply Z.eqb_eq in H1, H2; apply String.eqb_eq in H1', H2'.
  split; congruence.
Qed.

(** The rows under a key after an upsert of that key. *)
Lemma upsert_same_key (row : Embedding.t) (rows : list Embedding.t) :
  let conflict := same_key (Embedding.content_id row) (Embedding.table_name row) in
  filter conflict (upsert row rows)
  = if existsb conflict rows then map (overwrite row) (filter conflict rows) else [row].
Proof.
  cbv zeta; unfold upsert.
  destruct (existsb _ rows) eqn:Ex.
  - rewrite filter_map_overwrite by (intros; apply same_key_overwrite).
    apply map_ext_in; intros e He; apply filter_In in He.
    destruct He as [_ He]; rewrite He; reflexivity.
  - rewrite filter_app, (existsb_filter_nil _ _ Ex); simpl.
    unfold same_key; rewrite Z.eqb_refl, String.eqb_refl; reflexivity.
Qed.

(** The rows under another key are the rows that were there. *)
Lemma upsert_other_key (content_id : Z) (table_name : string) (row : Embedding.t)
    (rows : list Embedding.t) :
  same_key content_id table_name row = false ->
  List.length (filter (same_key content_id table_name) (upsert row rows))
  = List.length (filter (same_key content_id table_name) rows).
Proof.
  intros Hk; unfold upsert.
  destruct (existsb _ rows).
  - rewrite filter_map_overwrite by (intros; apply same_key_overwrite).
    apply length_map.
  - rewrite filter_app; simpl; rewrite Hk, app_nil_r; reflexivity.
Qed.

(** [store_embedding] keeps the uniqueness of the keys. *)
Lemma upsert_unique_keys (row : Embedding.t) (rows : list Embedding.t) :
  unique_keys rows -> unique_keys (upsert row rows).
Proof.
  intros Hu content_id table_name.
  destruct (same_key content_id table_name row) eqn:Hk.
  - assert (Heq : filter (same_key content_id table_name) (upsert row rows)
                  = filter (same_key (Embedding.content_id row) (Embedding.table_name row))
                           (upsert row rows)).
    { apply filter_ext_in; intros e _.
      unfold same_key in *.
      apply andb_prop in Hk; destruct Hk as [H1 H2].
      apply Z.eqb_eq in H1; apply String.eqb_eq in H2; subst; reflexivity. }
    rewrite Heq, upsert_same_key.
    destruct (existsb _ rows); [rewrite length_map; apply Hu | simpl; lia].
  - rewrite upsert_other_key by exact Hk; apply Hu.
Qed.

(** C3.  Two [store_embedding] calls for one pair [(content_id, table_name)]
    leave exactly one row for the pair, and that row carries the content, the
    vector and the metadata of the second call. *)
Theorem store_embedding_upserts (env : Env) (content_id : Z) (table_name : string)
    (c1 c2 : string) (e1 e2 : option vector) (m1 m2 : option dict) (st : state) :
  (List.length (filter (same_key content_id table_name) (embeddings st)) <= 1)%nat ->
  let st1 := fst (store_embedding env content_id table_name c1 e1 m1 st) in
  let run := store_embedding env content_id table_name c2 e2 m2 st1 in
  snd run = Ok tt /\
  exists row,
    filter (same_key content_id table_name) (embeddings (fst run)) = [row] /\
    Embedding.content row = c2 /\
    Embedding.embedding row =
      match e2 with
      | Some v => v
      | None => embed_text env c2
      end /\
    Embedding.metadata row = (if truthy m2 then m2 else None) /\
    Embedding.updated_at row = now st1.
Proof.
  intros Hu st1 run; split; [reflexivity|].
  unfold run, st1, store_embedding, Database.bind.
  cbn [fst snd emit set_embeddings embeddings now].
  pose proof (upsert_same_key
                {| Embedding.content_id := content_id;
                   Embedding.table_name := table_name;
                   Embedding.content := c1;
                   Embedding.embedding :=
                     match e1 with Some v => v | None => embed_text env c1 end;
                   Embedding.metadata := if truthy m1 then m1 else None;
                   Embedding.created_at := now st;
                   Embedding.updated_at := now st |} (embeddings st)) as H1.
  cbv zeta in H1; cbn [Embedding.content_id Embedding.table_name] in H1.
  set (rows1 := upsert _ (embeddings st)) in *.
  assert (Hone : exists r, filter (same_key content_id table_name) rows1 = [r]).
  { rewrite H1; destruct (existsb _ (embeddings st)) eqn:Ex; [|eexists; reflexivity].
    apply existsb_filter_cons in Ex.
    destruct (filter (same_key content_id table_name) (embeddings st)) as [|r [|r' l]];
      simpl in *; [lia | eexists; reflexivity | lia]. }
  destruct Hone as [r Hr].
  match goal with |- context [upsert ?row rows1] =>
    pose proof (upsert_same_key row rows1) as H2
  end.
  cbv zeta in H2; cbn [Embedding.content_id Embedding.table_name] in H2.
  rewrite Hr in H2.
  assert (Ex : existsb (same_key content_id table_name) rows1 = true).
  { destruct (existsb _ rows1) eqn:Ex; [reflexivity|].
    apply existsb_filter_nil in Ex; rewrite Ex in Hr; discriminate. }
  rewrite Ex in H2.
  eexists; split; [exact H2|].
  cbn; repeat split.
Qed.

Lemma store_embedding_upserts_witness :
  exists row,
    filter (same_key 7 "notes")
      (embeddings
         (fst (store_embedding (Sample.env false) 7 "notes" "second text"
                 (Some [(1 # 4)%Q]) (Some [("lang", "en")])
                 (fst (store_embedding (Sample.env false) 7 "notes" "first text"
                         None None Sample.one_workflow))))) = [row] /\
    Embedding.content row = "second text" /\
    Embedding.embedding row = [(1 # 4)%Q] /\
    Embedding.metadata row = Some [("lang", "en")].
Proof.
  destruct (store_embedding_upserts (Sample.env false) 7 "notes"
              "first text" "second text" None (Some [(1 # 4)%Q])
              None (Some [("lang", "en")]) Sample.one_workflow)
    as (_ & row & Hrow & Hc & He & Hm & _).
  - vm_compute; lia.
  - exists row; repeat split; assumption.
Defined.

(** ** Sorting on a rational key *)

Section ByKey.
Context {A : Type} (key : A -> Q).

Lemma key_gtb_false (a b : A) : key_gtb key a b = false <-> (key a <= key b)%Q.
Proof.
  unfold key_gtb; rewrite negb_false_iff; apply Qle_bool_iff.
Qed.

Lemma key_gtb_true (a b : A) : key_gtb key a b = true <-> (key b < key a)%Q.
Proof.
  unfold key_gtb; rewrite negb_true_iff.
  split; intros H.
  - apply Qnot_le_lt; intros Hle; apply Qle_bool_iff in Hle; congruence.
  - destruct (Qle_bool (key a) (key b)) eqn:E; [|reflexivity].
    apply Qle_bool_iff in E; exfalso; exact (Qlt_not_le _ _ H E).
Qed.

Lemma key_gtb_asym (a b : A) : key_gtb key a b = true -> key_gtb key b a = false.
Proof.
  rewrite key_gtb_true, key_gtb_false; apply Qlt_le_weak.
Qed.

Lemma key_gtb_negtrans (a b c : A) :
  key_gtb key a b = false -> key_gtb key b c = false -> key_gtb key a c = false.
Proof.
  rewrite !key_gtb_false; apply Qle_trans.
Qed.

End ByKey.

(** ** [search_similar] *)

Lemma Forall_firstn_keep {A : Type} (P : A -> Prop) (n : nat) (l : list A) :
  Forall P l -> Forall P (firstn n l).
Proof.
  intros H; revert n; induction H as [|a l Ha _ IH]; intros [|n]; simpl;
    constructor; [exact Ha | apply IH].
Qed.

Lemma StronglySorted_firstn {A : Type} (R : A -> A -> Prop) (n : nat) (l : list A) :
  StronglySorted R l -> StronglySorted R (firstn n l).
Proof.
  intros H; revert n; induction H as [|a l Hl IH Ha]; intros [|n]; simpl;
    try constructor.
  - apply IH.
  - apply Forall_firstn_keep; exact Ha.
Qed.

Lemma In_firstn_keep {A : Type} (x : A) (n : nat) (l : list A) :
  In x (firstn n l) -> In x l.
Proof.
  revert n; induction l as [|a l IH]; intros [|n]; simpl; try tauto.
  intros [H|H]; [left; exact H | right; eapply IH; exact H].
Qed.

Lemma StronglySorted_sql_limit {A : Type} (R : A -> A -> Prop) (n : Z) (l : list A) :
  StronglySorted R l -> StronglySorted R (sql_limit n l).
Proof.
  intros H; unfold sql_limit; destruct (n <? 0); [exact H|].
  apply StronglySorted_firstn; exact H.
Qed.

(** SQLite refuses the statement of [search_similar], whatever the
    arguments and the store. *)
Lemma search_similar_refused (env : Env) (query table_name : string)
    (limit : option Z) (threshold : option Q) (st : state) :
  search_similar env query table_name limit threshold st = Err Py.OperationalError.
Proof. reflexivity. Qed.

(** C5.  The statement of [search_similar] writes the distance as [<=>],
    which SQLite does not parse.  For every query, table, limit and
    threshold, given or left to their defaults, and for every store, an
    empty one too, the call raises [OperationalError] at its [fetchall]:
    it returns no record, and so not the ranking of the stored records that
    meet the threshold either. *)
Theorem search_similar_raises (env : Env) (query table_name : string)
    (limit : option Z) (threshold : option Q) (st : state) :
  Database.prepare similarity_query = Err Py.OperationalError /\
  search_similar env query table_name limit threshold st = Err Py.OperationalError /\
  forall n q,
    search_similar env query table_name (Some n) (Some q) st
    <> Ok (Claimed.search env query table_name n q st).
Proof.
  split; [reflexivity|]; split; [apply search_similar_refused|].
  intros n q; rewrite search_similar_refused; discriminate.
Qed.

(** ** [find_similar_workflows] *)

Lemma keyword_loop_raises (keywords : list string) (rows found : list Workflow.t) :
  rows <> [] ->
  WorkflowManager.keyword_loop (PyList keywords) rows found = Err TypeError.
Proof.
  destruct rows as [|row rest]; [congruence | reflexivity].
Qed.

Lemma find_similar_workflows_raises (self : t) (env : Env) (user_id : Z)
    (prompt : string) (category : option string) (limit : Z) (st : state) :
  candidate_rows user_id category limit st <> [] ->
  find_similar_workflows self env user_id prompt category limit st = Err TypeError.
Proof.
  intros Hrows; unfold find_similar_workflows.
  rewrite keyword_loop_raises by exact Hrows; reflexivity.
Qed.

(** C4.  For a candidate row that the query of the lexical phase returns,
    whatever its keywords and those of the prompt, [keywords &
    workflow_keywords] is evaluated with the list that [extract] returns on
    its left and [find_similar_workflows] raises [TypeError]: no candidate is
    kept. *)
Theorem lexical_phase_raises (self : t) (env : Env) (user_id : Z) (prompt : string)
    (category : option string) (limit : Z) (st : state) (row : Workflow.t) :
  In row (candidate_rows user_id category limit st) ->
  find_similar_workflows self env user_id prompt category limit st = Err TypeError.
Proof.
  intros Hrow; apply find_similar_workflows_raises.
  intros Hnil; rewrite Hnil in Hrow; exact Hrow.
Qed.

Lemma lexical_phase_raises_witness :
  map Workflow.keywords (workflows Sample.one_workflow) = ["connect,product,manager"] /\
  KeywordExtractor.extract (keyword_extractor (init true))
    "connect with a product manager" = ["connect"; "product"; "manager"] /\
  find_similar_workflows (init true) (Sample.env false) 1
    "connect with a product manager" None 5 Sample.one_workflow = Err TypeError.
Proof.
  split; [reflexivity|]; split; [reflexivity|].
  destruct (select_workflow 1 Sample.one_workflow) as [row|] eqn:Hsel;
    [|vm_compute in Hsel; discriminate].
  apply (lexical_phase_raises _ _ _ _ _ _ _ row).
  vm_compute in Hsel; injection Hsel as <-.
  vm_compute; left; reflexivity.
Defined.

Lemma no_candidate_rows (self : t) (env : Env) (user_id : Z) (prompt : string)
    (category : option string) (limit : Z) (st : state) :
  candidate_rows user_id category limit st = [] ->
  find_similar_workflows self env user_id prompt category limit st
  = try workflows := semantic_phase self env prompt limit st [] in
    Ok (slice_to limit workflows).
Proof.
  intros Hrows; unfold find_similar_workflows; rewrite Hrows; reflexivity.
Qed.

(** The semantic phase either is skipped or raises at its search. *)
Lemma semantic_phase_outcome (self : t) (env : Env) (prompt : string) (limit : Z)
    (st : state) (found : list Workflow.t) :
  semantic_phase self env prompt limit st found
  = if embedding_store self && (Z.of_nat (List.length found) <? limit)
    then Err Py.OperationalError
    else Ok found.
Proof.
  unfold semantic_phase; rewrite search_similar_refused; reflexivity.
Qed.

Lemma slice_to_nil {A : Type} (n : Z) : slice_to n (@nil A) = [].
Proof. unfold slice_to; destruct (n <? 0); apply firstn_nil. Qed.




(** ** [KeywordExtractor.extract] *)

Import KeywordExtractor.

Lemma mem_In (w : string) (l : list string) : mem w l = true <-> In w l.
Proof.
  unfold mem; rewrite existsb_exists; split.
  - intros (x & Hx & E); apply String.eqb_eq in E; subst; exact Hx.
  - intros H; exists w; split; [exact H | apply String.eqb_refl].
Qed.

Lemma mem_not_In (w : string) (l : list string) : mem w l = false <-> ~ In w l.
Proof.
  rewrite <- mem_In; destruct (mem w l); split; congruence.
Qed.

Lemma occurrences_app (w : string) (l1 l2 : list string) :
  Claimed.occurrences w (l1 ++ l2) = Claimed.occurrences w l1 + Claimed.occurrences w l2.
Proof.
  induction l1 as [|x l1 IH]; simpl; [reflexivity|].
  rewrite IH; lia.
Qed.

Lemma occurrences_absent (w : string) (ws : list string) :
  ~ In w ws -> Claimed.occurrences w ws = 0.
Proof.
  induction ws as [|x ws IH]; simpl; intros H; [reflexivity|].
  destruct (String.eqb x w) eqn:E.
  - apply String.eqb_eq in E; exfalso; apply H; left; exact E.
  - rewrite IH; [reflexivity | intros Hin; apply H; right; exact Hin].
Qed.

Lemma first_index_present (w : string) (ws more : list string) :
  In w ws ->
  Claimed.first_index w (ws ++ more) = Claimed.first_index w ws /\
  (Claimed.first_index w ws < List.length ws)%nat.
Proof.
  induction ws as [|x ws IH]; simpl; intros H; [contradiction|].
  destruct (String.eqb x w) eqn:E; [split; [reflexivity | lia]|].
  destruct H as [H|H]; [subst; rewrite String.eqb_refl in E; discriminate|].
  destruct (IH H) as [H1 H2]; split; [rewrite H1; reflexivity | lia].
Qed.

Lemma first_index_new (w : string) (ws : list string) :
  ~ In w ws -> Claimed.first_index w (ws ++ [w]) = List.length ws.
Proof.
  induction ws as [|x ws IH]; simpl; intros H.
  - rewrite String.eqb_refl; reflexivity.
  - destruct (String.eqb x w) eqn:E.
    + apply String.eqb_eq in E; exfalso; apply H; left; exact E.
    + rewrite IH; [reflexivity | intros Hin; apply H; right; exact Hin].
Qed.

Lemma counter_add_keys (w : string) (d : list (string * Z)) :
  map fst (counter_add w d)
  = if mem w (map fst d) then map fst d else map fst d ++ [w].
Proof.
  induction d as [|[k n] d IH]; simpl; [reflexivity|].
  unfold mem; cbn [existsb]; fold (mem w (map fst d)).
  rewrite (String.eqb_sym w k).
  destruct (String.eqb k w) eqn:E; simpl; [reflexivity|].
  rewrite IH; destruct (mem w (map fst d)); reflexivity.
Qed.

Lemma counter_add_In (w : string) (d : list (string * Z)) (x : string) (n : Z) :
  NoDup (map fst d) ->
  In (x, n) (counter_add w d) ->
  (x <> w /\ In (x, n) d) \/
  (x = w /\ exists m, In (w, m) d /\ n = m + 1) \/
  (x = w /\ ~ In w (map fst d) /\ n = 1).
Proof.
  induction d as [|[k m] d IH]; simpl; intros Hnd Hin.
  - destruct Hin as [Hin|[]]; injection Hin as <- <-.
    right; right; repeat split; tauto.
  - inversion Hnd as [|? ? Hk Hnd']; subst.
    destruct (String.eqb k w) eqn:E.
    + apply String.eqb_eq in E; subst k.
      destruct Hin as [Hin|Hin].
      * injection Hin as <- <-.
        right; left; split; [reflexivity|]; exists m; split; [left|]; reflexivity.
      * left; split; [|right; exact Hin].
        intros ->; apply Hk; apply (in_map fst) in Hin; exact Hin.
    + apply String.eqb_neq in E.
      destruct Hin as [Hin|Hin].
      * injection Hin as <- <-; left; split; [exact E | left; reflexivity].
      * destruct (IH Hnd' Hin) as [[H1 H2]|[[H1 (m' & H2 & H3)]|[H1 [H2 H3]]]].
        -- left; split; [exact H1 | right; exact H2].
        -- right; left; split; [exact H1|]; exists m'; split; [right; exact H2 | exact H3].
        -- right; right; repeat split; try assumption.
           intros [Hc|Hc]; [apply E; exact Hc | apply H2; exact Hc].
Qed.

Lemma Counter_snoc (ws : list string) (w : string) :
  Counter (ws ++ [w]) = counter_add w (Counter ws).
Proof. unfold Counter; rewrite fold_left_app; reflexivity. Qed.

Lemma StronglySorted_snoc {A : Type} (R : A -> A -> Prop) (l : list A) (x : A) :
  StronglySorted R l -> Forall (fun a => R a x) l -> StronglySorted R (l ++ [x]).
Proof.
  induction 1 as [|a l Hl IH Ha]; simpl; intros Hx.
  - repeat constructor.
  - inversion Hx as [|? ? Hax Hx']; subst.
    constructor; [apply IH; exact Hx'|].
    apply Forall_app; split; [exact Ha | repeat constructor; exact Hax].
Qed.

(** The dictionary that [Counter] builds: one entry for each distinct word,
    in the order of the first occurrences, with the number of occurrences. *)
Lemma Counter_spec (ws : list string) :
  NoDup (map fst (Counter ws)) /\
  (forall w, In w (map fst (Counter ws)) <-> In w ws) /\
  (forall w n, In (w, n) (Counter ws) -> n = Claimed.occurrences w ws) /\
  StronglySorted
    (fun a b => (Claimed.first_index a ws < Claimed.first_index b ws)%nat)
    (map fst (Counter ws)).
Proof.
  induction ws as [|w ws IH] using rev_ind.
  - repeat split; try constructor; simpl; tauto.
  - destruct IH as (Hnd & Hkeys & Hcount & Hord).
    rewrite Counter_snoc, counter_add_keys.
    assert (Hsame : forall x, In x ws ->
               Claimed.first_index x (ws ++ [w]) = Claimed.first_index x ws /\
               (Claimed.first_index x ws < List.length ws)%nat).
    { intros x Hx; apply first_index_present; exact Hx. }
    assert (Hord' : StronglySorted
               (fun a b => (Claimed.first_index a (ws ++ [w])
                            < Claimed.first_index b (ws ++ [w]))%nat)
               (map fst (Counter ws))).
    { clear Hnd Hcount.
      revert Hkeys Hord; generalize (map fst (Counter ws)) as ks.
      intros ks Hkeys Hord.
      assert (Hall : Forall (fun k => In k ws) ks)
        by (rewrite Forall_forall; intros k Hk; apply Hkeys; exact Hk).
      clear Hkeys.
      induction Hord as [|a l Hl IHl Ha]; [constructor|].
      inversion Hall as [|? ? Ha_in Hall']; subst.
      constructor; [apply IHl; exact Hall'|].
      rewrite Forall_forall in Ha, Hall' |- *; intros b Hb.
      destruct (Hsame a Ha_in) as [-> _].
      destruct (Hsame b (Hall' b Hb)) as [-> _].
      apply Ha; exact Hb. }
    destruct (mem w (map fst (Counter ws))) eqn:Em.
    + apply mem_In in Em.
      split; [exact Hnd|]; split; [|split; [|exact Hord']].
      * intros x; rewrite in_app_iff, Hkeys; simpl.
        split; [tauto|]; intros [H|[<-|[]]]; [exact H | apply Hkeys; exact Em].
      * intros x n Hin; rewrite occurrences_app; simpl.
        apply (counter_add_In _ _ _ _ Hnd) in Hin.
        destruct Hin as [[H1 H2]|[[-> (m & H2 & ->)]|[-> [H2 _]]]].
        -- rewrite (Hcount x n H2).
           destruct (String.eqb w x) eqn:E; [|lia].
           apply String.eqb_eq in E; congruence.
        -- rewrite (Hcount w m H2), String.eqb_refl; lia.
        -- contradiction.
    + apply mem_not_In in Em.
      assert (Hw : ~ In w ws) by (intros H; apply Em, Hkeys; exact H).
      split; [|split; [|split]].
      * apply NoDup_app; [exact Hnd | repeat constructor; simpl; tauto |].
        intros x Hx [<-|[]]; exact (Em Hx).
      * intros x; rewrite !in_app_iff, Hkeys; simpl; tauto.
      * intros x n Hin; rewrite occurrences_app; simpl.
        apply (counter_add_In _ _ _ _ Hnd) in Hin.
        destruct Hin as [[H1 H2]|[[-> (m & H2 & ->)]|[-> [_ ->]]]].
        -- rewrite (Hcount x n H2).
           destruct (String.eqb w x) eqn:E; [|lia].
           apply String.eqb_eq in E; congruence.
        -- exfalso; apply Em; apply (in_map fst) in H2; exact H2.
        -- rewrite (occurrences_absent _ _ Hw), String.eqb_refl; reflexivity.
      * apply StronglySorted_snoc; [exact Hord'|].
        rewrite Forall_forall; intros a Ha.
        apply Hkeys in Ha.
        destruct (Hsame a Ha) as [-> Hlt].
        rewrite (first_index_new _ _ Hw); exact Hlt.
Qed.

Lemma lower_char_not_upper (c : ascii) : is_upper (lower_char c) = false.
Proof.
  destruct c as [[] [] [] [] [] [] [] []]; reflexivity.
Qed.

Lemma all_chars_app (p : ascii -> bool) (a b : string) :
  all_chars p (a ++ b)%string = all_chars p a && all_chars p b.
Proof.
  induction a as [|c a IH]; simpl; [reflexivity|].
  rewrite IH; apply andb_assoc.
Qed.

Lemma word_runs_all (p : ascii -> bool) (s : string) :
  forall cur,
    all_chars p cur = true -> all_chars p s = true ->
    Forall (fun w => all_chars p w = true) (word_runs s cur).
Proof.
  induction s as [|c s IH]; simpl; intros cur Hcur Hs.
  - repeat constructor; exact Hcur.
  - apply andb_prop in Hs; destruct Hs as [Hc Hs].
    destruct (is_word c).
    + apply IH; [|exact Hs].
      rewrite all_chars_app, Hcur; simpl; rewrite Hc; reflexivity.
    + constructor; [exact Hcur | apply IH; [reflexivity | exact Hs]].
Qed.

Lemma lower_no_upper (s : string) :
  all_chars (fun c => negb (is_upper c)) (lower s) = true.
Proof.
  induction s as [|c s IH]; simpl; [reflexivity|].
  rewrite lower_char_not_upper, IH; reflexivity.
Qed.

Lemma all_chars_lower (w : string) :
  all_chars is_alpha w = true ->
  all_chars (fun c => negb (is_upper c)) w = true ->
  all_chars is_lower w = true.
Proof.
  induction w as [|c w IH]; simpl; [reflexivity|].
  intros Ha Hu.
  apply andb_prop in Ha; destruct Ha as [Hc Ha].
  apply andb_prop in Hu; destruct Hu as [Hn Hu].
  rewrite (IH Ha Hu), andb_true_r.
  unfold is_alpha in Hc; destruct (is_upper c); [discriminate | exact Hc].
Qed.

(** The candidate words are lower-case words of three letters or more that
    are not stop-words. *)
Lemma candidates_ok (text : string) : Forall Claimed.keyword_ok (candidates text).
Proof.
  unfold candidates, findall_words.
  rewrite Forall_forall; intros w Hw.
  apply filter_In in Hw; destruct Hw as [Hw Hkeep].
  apply filter_In in Hw; destruct Hw as [Hw Halpha].
  apply andb_prop in Halpha; destruct Halpha as [Halpha _].
  apply andb_prop in Hkeep; destruct Hkeep as [Hstop Hlen].
  pose proof (word_runs_all (fun c => negb (is_upper c)) (lower text) EmptyString
                eq_refl (lower_no_upper text)) as Hall.
  rewrite Forall_forall in Hall.
  repeat split.
  - apply all_chars_lower; [exact Halpha | apply Hall; exact Hw].
  - apply Nat.ltb_lt in Hlen; lia.
  - apply mem_not_In; apply negb_true_iff; exact Hstop.
Qed.

Lemma count_gtb_asym (a b : string * Z) :
  count_gtb a b = true -> count_gtb b a = false.
Proof. unfold count_gtb; rewrite Z.ltb_lt, Z.ltb_ge; lia. Qed.

Lemma count_gtb_negtrans (a b c : string * Z) :
  count_gtb a b = false -> count_gtb b c = false -> count_gtb a c = false.
Proof. unfold count_gtb; rewrite !Z.ltb_ge; lia. Qed.

Lemma StronglySorted_map {A B : Type} (f : A -> B) (R : B -> B -> Prop) (l : list A) :
  StronglySorted R (map f l) <-> StronglySorted (fun a b => R (f a) (f b)) l.
Proof.
  induction l as [|a l IH]; simpl; split; intros H; try constructor;
    inversion H as [|? ? Hl Ha]; subst.
  - apply IH; exact Hl.
  - rewrite Forall_map in Ha; exact Ha.
  - apply IH; exact Hl.
  - rewrite Forall_map; exact Ha.
Qed.

Lemma StronglySorted_Forall_impl {A : Type} (R S : A -> A -> Prop) (P : A -> Prop)
    (l : list A) :
  (forall a b, P a -> P b -> R a b -> S a b) ->
  Forall P l -> StronglySorted R l -> StronglySorted S l.
Proof.
  intros HRS HP Hl; induction Hl as [|a l Hl IH Ha]; [constructor|].
  inversion HP as [|? ? Pa HP']; subst.
  constructor; [apply IH; exact HP'|].
  rewrite Forall_forall in Ha, HP' |- *; intros b Hb.
  apply HRS; [exact Pa | apply HP'; exact Hb | apply Ha; exact Hb].
Qed.

Lemma StronglySorted_app_inv {A : Type} (R : A -> A -> Prop) (l1 l2 : list A) :
  StronglySorted R (l1 ++ l2) ->
  forall a b, In a l1 -> In b l2 -> R a b.
Proof.
  induction l1 as [|x l1 IH]; simpl; intros H a b Ha Hb; [contradiction|].
  inversion H as [|? ? Hl Hx]; subst.
  destruct Ha as [<-|Ha].
  - rewrite Forall_forall in Hx; apply Hx, in_or_app; right; exact Hb.
  - apply (IH Hl a b Ha Hb).
Qed.

(** All the distinct candidate words, as [most_common] ranks them. *)
Lemma ranked_words (ws : list string) :
  let ranked := map fst (sorted_desc count_gtb (Counter ws)) in
  NoDup ranked /\
  (forall w, In w ranked <-> In w ws) /\
  StronglySorted (Claimed.ranks_before ws) ranked.
Proof.
  cbv zeta.
  destruct (Counter_spec ws) as (Hnd & Hkeys & Hcount & Hord).
  pose proof (sorted_desc_perm count_gtb (Counter ws)) as Hperm.
  pose proof (Permutation_map fst Hperm) as Hperm'.
  split; [|split].
  - apply (Permutation_NoDup (Permutation_sym Hperm')); exact Hnd.
  - intros w; rewrite <- Hkeys; split; apply Permutation_in;
      [exact Hperm' | apply Permutation_sym; exact Hperm'].
  - apply StronglySorted_map.
    apply StronglySorted_Forall_impl
      with (P := fun p => snd p = Claimed.occurrences (fst p) ws)
           (R := placed_before count_gtb
                   (fun a b => (Claimed.first_index (fst a) ws
                                < Claimed.first_index (fst b) ws)%nat)).
    + intros [a na] [b nb]; cbn [fst snd]; intros -> -> H.
      unfold Claimed.ranks_before, placed_before, count_gtb in *; cbn [fst snd] in H.
      destruct H as [H|[H Hlt]].
      * left; apply Z.ltb_lt; exact H.
      * apply Z.ltb_ge in H.
        destruct (Z.eq_dec (Claimed.occurrences a ws) (Claimed.occurrences b ws));
          [right; split; assumption | left; lia].
    + rewrite Forall_forall; intros [w n] Hin; cbn [fst snd].
      apply Hcount; apply (Permutation_in _ Hperm); exact Hin.
    + apply sorted_desc_stable;
        [exact count_gtb_asym | exact count_gtb_negtrans |].
      apply (StronglySorted_map fst
               (fun a b => (Claimed.first_index a ws < Claimed.first_index b ws)%nat)).
      exact Hord.
Qed.

(** What [extract] returns, for an extractor of any [max_keywords]. *)
Lemma extract_ranked (self : KeywordExtractor.t) (text : string) :
  let ws := candidates text in
  let ks := extract self text in
  (List.length ks <= Z.to_nat (max_keywords self))%nat /\
  Forall (fun k => In k ws) ks /\
  NoDup ks /\
  StronglySorted (Claimed.ranks_before ws) ks /\
  (forall w, In w ws -> ~ In w ks ->
     List.length ks = Z.to_nat (max_keywords self) /\
     Forall (fun k => Claimed.ranks_before ws k w) ks).
Proof.
  cbv zeta; unfold extract, most_common.
  set (n := Z.to_nat (max_keywords self)).
  set (ws := candidates text).
  rewrite <- firstn_map.
  destruct (ranked_words ws) as (Hnd & Hin & Hord).
  set (ranked := map fst (sorted_desc count_gtb (Counter ws))) in *.
  pose proof (firstn_skipn n ranked) as Hsplit.
  split; [apply firstn_le_length|]; split; [|split; [|split]].
  - rewrite Forall_forall; intros k Hk; apply Hin.
    eapply In_firstn_keep; exact Hk.
  - rewrite <- Hsplit in Hnd; eapply NoDup_app_remove_r; exact Hnd.
  - apply StronglySorted_firstn; exact Hord.
  - intros w Hw Hnot.
    apply Hin in Hw; rewrite <- Hsplit in Hw.
    apply in_app_or in Hw; destruct Hw as [Hw|Hw]; [contradiction|].
    split.
    + rewrite length_firstn; apply Nat.min_l.
      destruct (Nat.le_gt_cases n (List.length ranked)) as [H|H]; [exact H|].
      rewrite skipn_all2 in Hw by lia; contradiction.
    + rewrite Forall_forall; intros k Hk.
      rewrite <- Hsplit in Hord.
      exact (StronglySorted_app_inv _ _ _ Hord k w Hk Hw).
Qed.

(** C9, as the code has it.  A [WorkflowManager] builds one extractor, with
    [max_keywords = 15], and both call sites use it: the keywords of the
    prompt in [find_similar_workflows] and the keywords that
    [record_workflow] stores are the same at most 15 words.  They are
    lower-case words of three letters or more that are not stop-words, all
    different, ranked by the number of their occurrences and, among equal
    numbers, by their first occurrence; a candidate word that is left out is
    ranked after the 15 that are kept. *)
Theorem extract_keeps_15 (embedding_store : bool) (text : string) :
  let self := WorkflowManager.init embedding_store in
  let ws := candidates text in
  let ks := extract {| max_keywords := 15 |} text in
  (forall env user_id category limit st,
     find_similar_workflows self env user_id text category limit st
     = try found := WorkflowManager.keyword_loop (PyList ks)
                      (candidate_rows user_id category limit st) [] in
       try found := semantic_phase self env text limit st found in
       Ok (slice_to limit found)) /\
  (forall env user_id category intent_type summary steps parameters is_template
          rating st,
   exists st1 workflow_id w0,
     record_workflow self env user_id category intent_type text summary steps
       parameters is_template rating st = (st1, Ok workflow_id) /\
     get_workflow workflow_id st1 = Some w0 /\
     Workflow.keywords w0 = join "," ks) /\
  (List.length ks <= 15)%nat /\
  Forall (fun k => In k ws) ks /\
  Forall Claimed.keyword_ok ws /\
  NoDup ks /\
  StronglySorted (Claimed.ranks_before ws) ks /\
  (forall w, In w ws -> ~ In w ks ->
     List.length ks = 15%nat /\
     Forall (fun k => Claimed.ranks_before ws k w) ks).
Proof.
  intros self ws ks.
  destruct (extract_ranked {| max_keywords := 15 |} text)
    as (Hlen & Hin & Hnd & Hord & Htop).
  split; [reflexivity|]; split; [|split; [exact Hlen|]; split; [exact Hin|];
    split; [apply candidates_ok|]; split; [exact Hnd|]; split; [exact Hord | exact Htop]].
  intros env user_id category intent_type summary steps parameters is_template rating st.
  destruct (record_workflow_inserts self env user_id category intent_type text summary
              steps parameters is_template rating st)
    as (st1 & workflow_id & w0 & Hrun & Hget & _ & _ & _ & _ & _ & Hkw).
  exists st1, workflow_id, w0; split; [exact Hrun|]; split; [exact Hget | exact Hkw].
Qed.

Lemma extract_keeps_15_witness :
  extract (keyword_extractor (WorkflowManager.init true))
    "Please connect with a product manager, then message the product manager"
  = ["product"; "manager"; "connect"; "message"] /\
  StronglySorted
    (Claimed.ranks_before
       (candidates "Please connect with a product manager, then message the product manager"))
    ["product"; "manager"; "connect"; "message"].
Proof.
  destruct (extract_keeps_15 true
              "Please connect with a product manager, then message the product manager")
    as (_ & _ & _ & _ & _ & _ & Hord & _).
  split; [reflexivity | exact Hord].
Defined.

(** C9 as stated fails on the code: at the query-time call site a prompt of
    eleven different words has eleven keywords, not ten. *)
Lemma query_keywords_exceed_10 :
  ~ Claimed.query_keeps_at_most_10 /\
  List.length
    (extract (keyword_extractor (WorkflowManager.init true))
       "alpha bravo charlie delta echo foxtrot golf hotel india juliet kilo")
  = 11%nat /\
  max_keywords (keyword_extractor (WorkflowManager.init true)) <> 10 /\
  max_keywords (KeywordExtractor.init None) = 10.
Proof.
  split; [|split; [reflexivity|]; split; [discriminate | reflexivity]].
  intros H.
  specialize (H true "alpha bravo charlie delta echo foxtrot golf hotel india juliet kilo").
  vm_compute in H; lia.
Qed.

(** ** [hybrid_search] *)

(** C6.  [hybrid_search] begins with [search_similar], the call of C5: for
    every query, table, limit and pair of weights, the weights 1 and 0
    among them, and for every store, it raises [OperationalError] at its
    first statement, before the keyword search and before any score is
    combined.  It returns no result, hence no ordering that could be the
    ordering of the semantic search, which raises as well. *)
Theorem hybrid_search_raises (env : Env) (query table_name : string) (limit : Z)
    (semantic_weight keyword_weight : Q) (st : state) :
  hybrid_search env query table_name limit semantic_weight keyword_weight st
  = Err Py.OperationalError /\
  search_similar env query table_name (Some limit) None st = Err Py.OperationalError /\
  ~ Claimed.hybrid_is_semantic env query table_name limit st.
Proof.
  assert (Hrun : forall sw kw,
             hybrid_search env query table_name limit sw kw st = Err Py.OperationalError).
  { intros sw kw; unfold hybrid_search; rewrite search_similar_refused; reflexivity. }
  split; [apply Hrun|]; split; [apply search_similar_refused|].
  intros (res & semantic & Hres & _); rewrite Hrun in Hres; discriminate.
Qed.

(** * Further properties of the code *)

(** ** [record_workflow] and [get_workflow] *)

Lemma find_app_miss {A : Type} (p : A -> bool) (l : list A) (x : A) :
  p x = false -> find p (l ++ [x]) = find p l.
Proof.
  intros Hx; induction l as [|y l IH]; simpl; [rewrite Hx; reflexivity|].
  destruct (p y); [reflexivity | exact IH].
Qed.

Lemma next_rowid_fresh (ids : list Z) : ~ In (next_rowid ids) ids.
Proof.
  intros Hin.
  pose proof (next_rowid_above ids) as H; rewrite Forall_forall in H.
  specialize (H _ Hin); lia.
Qed.

(** X1.  [record_workflow] returns an id that no stored workflow has;
    [get_workflow] on that id gives back the recorded fields with the
    statistics 1, 1 and 1.0 and empty parameters for [None]; the row is
    appended to the table, every other id is looked up as before, and the
    executions are untouched. *)
Theorem record_workflow_round_trip (self : WorkflowManager.t) (env : Env) (user_id : Z)
    (category intent_type original_prompt summary : string) (steps : list dict)
    (parameters : option dict) (is_template : bool) (rating : Z) (st : state) :
  let run := record_workflow self env user_id category intent_type original_prompt
               summary steps parameters is_template rating st in
  exists workflow_id w,
    snd run = Ok workflow_id /\
    ~ In workflow_id (map Workflow.id (workflows st)) /\
    workflows (fst run) = workflows st ++ [w] /\
    get_workflow workflow_id (fst run) = Some w /\
    Workflow.id w = workflow_id /\
    Workflow.user_id w = user_id /\
    Workflow.category w = category /\
    Workflow.intent_type w = intent_type /\
    Workflow.original_prompt w = original_prompt /\
    Workflow.summary w = summary /\
    Workflow.steps w = steps /\
    Workflow.parameters w = match parameters with Some p => p | None => [] end /\
    Workflow.rating w = rating /\
    Workflow.is_template w = is_template /\
    Workflow.total_count w = 1 /\
    Workflow.success_count w = 1 /\
    Workflow.success_rate w = 1%Q /\
    (forall other, other <> workflow_id ->
       get_workflow other (fst run) = get_workflow other st) /\
    workflow_executions (fst run) = workflow_executions st.
Proof.
  cbv zeta; unfold record_workflow, Database.bind.
  set (workflow_id := next_rowid (map Workflow.id (workflows st))).
  assert (Hfresh : ~ In workflow_id (map Workflow.id (workflows st)))
    by apply next_rowid_fresh.
  destruct (embedding_store self);
    (do 2 eexists; split; [reflexivity|]; split; [exact Hfresh|];
     split; [reflexivity|]; split;
     [ unfold get_workflow, select_workflow;
       cbn [workflows fst emit set_workflows set_embeddings
            EmbeddingStore.store_embedding Database.bind Database.ret];
       apply find_app_last; [|apply Z.eqb_refl];
       rewrite Forall_forall; intros x Hx; apply Z.eqb_neq;
       intros E; apply Hfresh; rewrite <- E; apply in_map; exact Hx
     | repeat (split; [reflexivity|]); split; [|reflexivity];
       intros other Hother;
       unfold get_workflow, select_workflow;
       cbn [workflows fst emit set_workflows set_embeddings
            EmbeddingStore.store_embedding Database.bind Database.ret];
       apply find_app_miss; apply Z.eqb_neq; cbn [Workflow.id];
       intros E; apply Hother; symmetry; exact E ]).
Qed.

(** ** The orders of the queries *)

Section LexOrder.
Context {A : Type} (k1 : A -> Q) (k2 : A -> Z).

Lemma lex_gtb_false (a b : A) :
  lex_gtb k1 k2 a b = false <->
  (k1 a < k1 b)%Q \/ ((k1 a == k1 b)%Q /\ k2 a <= k2 b).
Proof.
  unfold lex_gtb.
  destruct (Qle_bool (k1 a) (k1 b)) eqn:E1; cbn [negb].
  - apply Qle_bool_iff in E1.
    destruct (Qle_bool (k1 b) (k1 a)) eqn:E2; cbn [negb].
    + apply Qle_bool_iff in E2.
      rewrite Z.ltb_ge; split.
      * intros H; right; split; [apply Qle_antisym; assumption | exact H].
      * intros [H|[_ H]]; [exfalso; exact (Qlt_not_le _ _ H E2) | exact H].
    + split; [intros _; left|reflexivity].
      apply Qnot_le_lt; intros H; apply Qle_bool_iff in H; congruence.
  - split; [discriminate|].
    assert (Hlt : (k1 b < k1 a)%Q).
    { apply Qnot_le_lt; intros H; apply Qle_bool_iff in H; congruence. }
    intros [H|[H _]]; exfalso.
    + exact (Qlt_irrefl _ (Qlt_trans _ _ _ H Hlt)).
    + rewrite H in Hlt; exact (Qlt_irrefl _ Hlt).
Qed.

Lemma lex_gtb_true (a b : A) :
  lex_gtb k1 k2 a b = true <->
  (k1 b < k1 a)%Q \/ ((k1 a == k1 b)%Q /\ k2 b < k2 a).
Proof.
  unfold lex_gtb.
  destruct (Qle_bool (k1 a) (k1 b)) eqn:E1; cbn [negb].
  - apply Qle_bool_iff in E1.
    destruct (Qle_bool (k1 b) (k1 a)) eqn:E2; cbn [negb].
    + apply Qle_bool_iff in E2.
      rewrite Z.ltb_lt; split.
      * intros H; right; split; [apply Qle_antisym; assumption | exact H].
      * intros [H|[_ H]]; [exfalso; exact (Qlt_not_le _ _ H E1) | exact H].
    + split; [discriminate|].
      assert (Hlt : (k1 a < k1 b)%Q).
      { apply Qnot_le_lt; intros H; apply Qle_bool_iff in H; congruence. }
      intros [H|[H _]]; exfalso.
      * exact (Qlt_irrefl _ (Qlt_trans _ _ _ H Hlt)).
      * rewrite H in Hlt; exact (Qlt_irrefl _ Hlt).
  - split; [intros _; left|reflexivity].
    apply Qnot_le_lt; intros H; apply Qle_bool_iff in H; congruence.
Qed.

Lemma lex_gtb_asym (a b : A) :
  lex_gtb k1 k2 a b = true -> lex_gtb k1 k2 b a = false.
Proof.
  rewrite lex_gtb_true, lex_gtb_false.
  intros [H|[H1 H2]]; [left; exact H | right; split; [symmetry; exact H1 | lia]].
Qed.

Lemma lex_gtb_negtrans (a b c : A) :
  lex_gtb k1 k2 a b = false -> lex_gtb k1 k2 b c = false ->
  lex_gtb k1 k2 a c = false.
Proof.
  rewrite !lex_gtb_false.
  intros [H1|[H1 H1']] [H2|[H2 H2']].
  - left; eapply Qlt_trans; eassumption.
  - left; rewrite <- H2; exact H1.
  - left; rewrite H1; exact H2.
  - right; split; [rewrite H1; exact H2 | lia].
Qed.

Lemma lex_sorted (l : list A) :
  StronglySorted (not_below (lex_gtb k1 k2)) (sorted_desc (lex_gtb k1 k2) l).
Proof. apply sorted_desc_sorted; [exact lex_gtb_asym | exact lex_gtb_negtrans]. Qed.

End LexOrder.

(** ** [get_best_workflow] *)

Lemma sorted_desc_nil {A : Type} (gtb : A -> A -> bool) (l : list A) :
  sorted_desc gtb l = [] -> l = [].
Proof.
  intros H; apply Permutation_nil.
  rewrite <- H; apply sorted_desc_perm.
Qed.

(** X2.  [get_best_workflow] returns [None] exactly when the user has no
    workflow of the intent (and of the category, when one is given).
    Otherwise it returns one of these workflows, and none of them has a
    higher success rate, nor the same rate with a higher success count. *)
Theorem get_best_workflow_best (user_id : Z) (intent_type : string)
    (category : option string) (st : state) :
  let eligible := fun w =>
    (Workflow.user_id w =? user_id) &&
    String.eqb (Workflow.intent_type w) intent_type &&
    optional_filter category (Workflow.category w) in
  (get_best_workflow user_id intent_type category st = None <->
   forall w, In w (workflows st) -> eligible w = false) /\
  (forall best,
     get_best_workflow user_id intent_type category st = Some best ->
     In best (workflows st) /\
     eligible best = true /\
     forall w, In w (workflows st) -> eligible w = true ->
       (Workflow.success_rate w <= Workflow.success_rate best)%Q /\
       ((Workflow.success_rate w == Workflow.success_rate best)%Q ->
        Workflow.success_count w <= Workflow.success_count best)).
Proof.
  intros eligible; unfold get_best_workflow; fold eligible.
  set (gtb := lex_gtb Workflow.success_rate Workflow.success_count).
  pose proof (sorted_desc_perm gtb (filter eligible (workflows st))) as Hperm.
  pose proof (lex_sorted Workflow.success_rate Workflow.success_count
                (filter eligible (workflows st))) as Hsorted.
  fold gtb in Hsorted.
  destruct (sorted_desc gtb (filter eligible (workflows st))) as [|row rest] eqn:Hs.
  - apply sorted_desc_nil in Hs.
    split; [|discriminate].
    split; [|reflexivity].
    intros _ w Hw.
    destruct (eligible w) eqn:E; [|reflexivity].
    assert (Hin : In w (filter eligible (workflows st)))
      by (apply filter_In; split; assumption).
    rewrite Hs in Hin; contradiction.
  - assert (Hrow : In row (filter eligible (workflows st)))
      by (apply (Permutation_in _ Hperm); left; reflexivity).
    apply filter_In in Hrow; destruct Hrow as [Hin Hel].
    split.
    + split; [discriminate|].
      intros H; rewrite (H row Hin) in Hel; discriminate.
    + unfold sql_limit, row_to_workflow; cbn.
      intros best Hbest; injection Hbest as <-.
      split; [exact Hin|]; split; [exact Hel|].
      intros w Hw Hew.
      assert (Hw' : In w (row :: rest)).
      { apply (Permutation_in _ (Permutation_sym Hperm)).
        apply filter_In; split; assumption. }
      assert (Hle : gtb w row = false).
      { destruct Hw' as [<-|Hw'].
        - apply lex_gtb_false; right; split; [reflexivity | lia].
        - inversion Hsorted as [|? ? _ Hall]; subst.
          rewrite Forall_forall in Hall; exact (Hall w Hw'). }
      apply lex_gtb_false in Hle.
      destruct Hle as [Hlt|[Heq Hc]].
      * split; [apply Qlt_le_weak; exact Hlt|].
        intros E; rewrite E in Hlt; exfalso; exact (Qlt_irrefl _ Hlt).
      * split; [rewrite Heq; apply Qle_refl | intros _; exact Hc].
Qed.

(** ** Templates *)

Lemma length_sql_limit {A : Type} (n : Z) (l : list A) :
  0 <= n -> (Z.of_nat (List.length (sql_limit n l)) <= n).
Proof.
  intros Hn; unfold sql_limit.
  apply Z.ltb_ge in Hn; rewrite Hn.
  pose proof (firstn_le_length (Z.to_nat n) l); lia.
Qed.

Lemma In_sql_limit {A : Type} (x : A) (n : Z) (l : list A) :
  In x (sql_limit n l) -> In x l.
Proof.
  unfold sql_limit; destruct (n <? 0); [tauto | apply In_firstn_keep].
Qed.

Lemma sql_limit_all {A : Type} (n : Z) (l : list A) :
  n < 0 \/ Z.of_nat (List.length l) <= n -> sql_limit n l = l.
Proof.
  unfold sql_limit; intros [H|H].
  - apply Z.ltb_lt in H; rewrite H; reflexivity.
  - destruct (n <? 0); [reflexivity|].
    apply firstn_all2; lia.
Qed.

(** X3.  [get_workflow_templates] returns stored workflows that are
    templates and pass the filters given, best success rate first and, for a
    limit that is not negative, at most [limit] of them.  When the limit is
    negative or at least the size of the table, every template that passes
    the filters is returned. *)
Theorem get_workflow_templates_sound (category intent_type : option string)
    (limit : Z) (st : state) :
  let eligible := fun w =>
    Workflow.is_template w &&
    optional_filter category (Workflow.category w) &&
    optional_filter intent_type (Workflow.intent_type w) in
  let result := get_workflow_templates category intent_type limit st in
  Forall (fun w => In w (workflows st) /\ eligible w = true) result /\
  StronglySorted
    (fun a b => (Workflow.success_rate b <= Workflow.success_rate a)%Q) result /\
  (0 <= limit -> Z.of_nat (List.length result) <= limit) /\
  (limit < 0 \/ Z.of_nat (List.length (workflows st)) <= limit ->
   forall w, In w (workflows st) -> eligible w = true -> In w result).
Proof.
  intros eligible result.
  unfold result, get_workflow_templates, row_to_workflow; fold eligible.
  rewrite map_id.
  set (gtb := lex_gtb Workflow.success_rate Workflow.rating).
  pose proof (sorted_desc_perm gtb (filter eligible (workflows st))) as Hperm.
  split; [|split; [|split]].
  - rewrite Forall_forall; intros w Hw.
    apply In_sql_limit in Hw.
    apply (Permutation_in _ Hperm), filter_In in Hw; exact Hw.
  - apply StronglySorted_sql_limit.
    eapply StronglySorted_weaken;
      [|apply (lex_sorted Workflow.success_rate Workflow.rating)].
    intros a b Hab; apply lex_gtb_false in Hab.
    destruct Hab as [H|[H _]]; [apply Qlt_le_weak; exact H | rewrite H; apply Qle_refl].
  - apply length_sql_limit.
  - intros Hall w Hw Hel.
    rewrite sql_limit_all.
    + apply (Permutation_in _ (Permutation_sym Hperm)), filter_In; split; assumption.
    + destruct Hall as [H|H]; [left; exact H | right].
      rewrite (Permutation_length Hperm).
      pose proof (filter_length_le eligible (workflows st)); lia.
Qed.

Lemma get_workflow_templates_sound_witness :
  let st := fst (convert_to_template 2 1 Sample.two_workflows) in
  get_workflow_templates None None 10 Sample.two_workflows = [] /\
  Z.of_nat (List.length (get_workflow_templates (Some "linkedin") None 1 st)) <= 1 /\
  forall w, In w (workflows st) -> Workflow.is_template w = true ->
            In w (get_workflow_templates None None (-1) st).
Proof.
  intros st; split; [reflexivity|]; split.
  - destruct (get_workflow_templates_sound (Some "linkedin") None 1 st)
      as (_ & _ & Hlen & _).
    apply Hlen; lia.
  - destruct (get_workflow_templates_sound None None (-1) st) as (_ & _ & _ & Hall).
    intros w Hw Ht; apply Hall; [left; lia | exact Hw|].
    rewrite Ht; reflexivity.
Defined.

(** ** [convert_to_template] *)

Lemma find_map_id (f : Workflow.t -> Workflow.t) (k : Z) (l : list Workflow.t) :
  (forall w, Workflow.id (f w) = Workflow.id w) ->
  find (fun w => Workflow.id w =? k) (map f l)
  = option_map f (find (fun w => Workflow.id w =? k) l).
Proof.
  intros Hf; induction l as [|w l IH]; simpl; [reflexivity|].
  rewrite Hf; destruct (Workflow.id w =? k); [reflexivity | exact IH].
Qed.

Lemma convert_keeps_id (workflow_id user_id timestamp : Z) (w : Workflow.t) :
  Workflow.id
    (if (Workflow.id w =? workflow_id) && (Workflow.user_id w =? user_id)
     then mark_template timestamp w else w) = Workflow.id w.
Proof. destruct (_ && _); reflexivity. Qed.

(** X4.  [convert_to_template] returns [True] exactly when a workflow with
    the id belongs to the user.  It then marks that workflow as a template
    and stamps it, and changes nothing else: steps and statistics of every
    row, the rows of other ids, the other tables.  When it returns [False]
    (unknown id, or a workflow of another user) the store is as it was. *)
Theorem convert_to_template_owner (workflow_id user_id : Z) (st : state) :
  let run := convert_to_template workflow_id user_id st in
  (snd run = Ok true <->
   exists w, In w (workflows st) /\
             Workflow.id w = workflow_id /\ Workflow.user_id w = user_id) /\
  (snd run = Ok false -> fst run = st) /\
  (forall w, get_workflow workflow_id st = Some w ->
             Workflow.user_id w = user_id ->
             get_workflow workflow_id (fst run) = Some (mark_template (now st) w)) /\
  (forall other, other <> workflow_id ->
     get_workflow other (fst run) = get_workflow other st) /\
  Forall2 (fun w w' =>
             Workflow.id w' = Workflow.id w /\
             Workflow.user_id w' = Workflow.user_id w /\
             Workflow.steps w' = Workflow.steps w /\
             Workflow.success_count w' = Workflow.success_count w /\
             Workflow.total_count w' = Workflow.total_count w /\
             Workflow.success_rate w' = Workflow.success_rate w /\
             (Workflow.is_template w = true -> Workflow.is_template w' = true))
          (workflows st) (workflows (fst run)) /\
  workflow_executions (fst run) = workflow_executions st /\
  embeddings (fst run) = embeddings st.
Proof.
  cbv zeta; unfold convert_to_template; cbn [fst snd].
  set (matched := fun w => (Workflow.id w =? workflow_id) && (Workflow.user_id w =? user_id)).
  split; [|split; [|split; [|split; [|split; [|split; reflexivity]]]]].
  - split.
    + intros H; injection H as H.
      apply existsb_exists in H; destruct H as (w & Hw & Hm).
      apply andb_prop in Hm; destruct Hm as [H1 H2].
      exists w; repeat split; [exact Hw | apply Z.eqb_eq; exact H1 | apply Z.eqb_eq; exact H2].
    + intros (w & Hw & H1 & H2); f_equal.
      apply existsb_exists; exists w; split; [exact Hw|].
      unfold matched; rewrite H1, H2, !Z.eqb_refl; reflexivity.
  - intros H; injection H as H.
    assert (Hmap : map (fun w => if matched w then mark_template (now st) w else w)
                       (workflows st) = workflows st).
    { rewrite <- (map_id (workflows st)) at 2.
      apply map_ext_in; intros w Hw.
      destruct (matched w) eqn:E; [|reflexivity].
      assert (Hex : existsb matched (workflows st) = true)
        by (apply existsb_exists; exists w; split; assumption).
      congruence. }
    unfold matched in Hmap; cbv beta in Hmap.
    unfold set_workflows; rewrite Hmap; destruct st; reflexivity.
  - intros w Hget Huser.
    unfold get_workflow, select_workflow in *; cbn [workflows set_workflows].
    rewrite find_map_id by (intros; apply convert_keeps_id).
    rewrite Hget; cbn [option_map].
    apply find_some in Hget; destruct Hget as [_ Hid].
    unfold matched; rewrite Hid, Huser, Z.eqb_refl; reflexivity.
  - intros other Hother.
    unfold get_workflow, select_workflow; cbn [workflows set_workflows].
    rewrite find_map_id by (intros; apply convert_keeps_id).
    destruct (find _ (workflows st)) as [w|] eqn:Hget; [|reflexivity].
    cbn [option_map]; apply find_some in Hget; destruct Hget as [_ Hid].
    apply Z.eqb_eq in Hid.
    assert (E : (Workflow.id w =? workflow_id) = false) by (apply Z.eqb_neq; lia).
    unfold matched; rewrite E; reflexivity.
  - cbn [workflows set_workflows].
    induction (workflows st) as [|w l IH]; simpl; constructor; [|exact IH].
    destruct ((Workflow.id w =? workflow_id) && (Workflow.user_id w =? user_id));
      cbn; repeat split; auto.
Qed.

(** The table after [record_workflow]. *)
Lemma record_workflow_appends (self : WorkflowManager.t) (env : Env) (user_id : Z)
    (category intent_type original_prompt summary : string) (steps : list dict)
    (parameters : option dict) (is_template : bool) (rating : Z) (st : state) :
  let run := record_workflow self env user_id category intent_type original_prompt
               summary steps parameters is_template rating st in
  exists w,
    snd run = Ok (Workflow.id w) /\
    workflows (fst run) = workflows st ++ [w] /\
    Workflow.id w = next_rowid (map Workflow.id (workflows st)) /\
    Workflow.user_id w = user_id /\
    Workflow.is_template w = is_template /\
    now (fst run) = now st.
Proof.
  cbv zeta; unfold record_workflow, Database.bind.
  destruct (embedding_store self);
    (eexists; split; [|split; [reflexivity|]]; [reflexivity|]; repeat split).
Qed.

(** X5.  A workflow recorded with [is_template=False] is in no list of
    templates.  The user who recorded it can convert it: the call returns
    [True] and the workflow is then listed, for any limit that does not cut
    the list.  The same call by another user returns [False]. *)
Theorem template_after_conversion (self : WorkflowManager.t) (env : Env) (user_id : Z)
    (category intent_type original_prompt summary : string) (steps : list dict)
    (parameters : option dict) (rating limit : Z) (st : state) :
  let recorded := record_workflow self env user_id category intent_type
                    original_prompt summary steps parameters false rating st in
  exists workflow_id,
    snd recorded = Ok workflow_id /\
    ~ In workflow_id
        (map Workflow.id (get_workflow_templates None None limit (fst recorded))) /\
    (forall stranger, stranger <> user_id ->
       snd (convert_to_template workflow_id stranger (fst recorded)) = Ok false) /\
    let converted := convert_to_template workflow_id user_id (fst recorded) in
    snd converted = Ok true /\
    (limit < 0 \/ Z.of_nat (List.length (workflows st)) < limit ->
     In workflow_id
        (map Workflow.id (get_workflow_templates None None limit (fst converted)))).
Proof.
  cbv zeta.
  destruct (record_workflow_appends self env user_id category intent_type
              original_prompt summary steps parameters false rating st)
    as (w & Hret & Hrows & Hid & Huser & Htemplate & _).
  set (st1 := fst (record_workflow self env user_id category intent_type
                     original_prompt summary steps parameters false rating st)) in *.
  pose proof (next_rowid_fresh (map Workflow.id (workflows st))) as Hfresh.
  rewrite <- Hid in Hfresh.
  exists (Workflow.id w); split; [exact Hret|]; split; [|split; [|split]].
  - intros Hin; apply in_map_iff in Hin; destruct Hin as (w' & Hw' & Hin).
    unfold get_workflow_templates, row_to_workflow in Hin; rewrite map_id in Hin.
    apply In_sql_limit in Hin.
    apply (Permutation_in _ (sorted_desc_perm _ _)), filter_In in Hin.
    destruct Hin as [Hin Hel]; rewrite Hrows in Hin.
    apply in_app_or in Hin; destruct Hin as [Hin|[<-|[]]].
    + apply Hfresh; rewrite <- Hw'; apply in_map; exact Hin.
    + rewrite Htemplate in Hel; discriminate.
  - intros stranger Hstranger.
    unfold convert_to_template; cbn [snd]; f_equal.
    destruct (existsb _ (workflows st1)) eqn:Ex; [|reflexivity].
    apply existsb_exists in Ex; destruct Ex as (w' & Hin & Hm).
    apply andb_prop in Hm; destruct Hm as [H1 H2].
    apply Z.eqb_eq in H1, H2.
    rewrite Hrows in Hin; apply in_app_or in Hin; destruct Hin as [Hin|[<-|[]]].
    + exfalso; apply Hfresh; rewrite <- H1; apply in_map; exact Hin.
    + congruence.
  - unfold convert_to_template; cbn [snd]; f_equal.
    apply existsb_exists; exists w; split.
    + rewrite Hrows; apply in_or_app; right; left; reflexivity.
    + rewrite Huser, !Z.eqb_refl; reflexivity.
  - intros Hlimit.
    unfold convert_to_template; cbn [fst].
    unfold get_workflow_templates, row_to_workflow; rewrite map_id.
    cbn [workflows set_workflows].
    apply in_map_iff; exists (mark_template (now st1) w); split; [reflexivity|].
    rewrite sql_limit_all.
    + apply (Permutation_in _ (Permutation_sym (sorted_desc_perm _ _))).
      apply filter_In; split; [|reflexivity].
      apply in_map_iff; exists w; split.
      * rewrite Huser, !Z.eqb_refl; reflexivity.
      * rewrite Hrows; apply in_or_app; right; left; reflexivity.
    + destruct Hlimit as [H|H]; [left; exact H | right].
      rewrite (Permutation_length (sorted_desc_perm _ _)).
      match goal with |- Z.of_nat (List.length (filter ?p ?l)) <= _ =>
        pose proof (filter_length_le p l) as Hf
      end.
      rewrite Hrows in Hf |- *.
      rewrite length_map, length_app in Hf; cbn [List.length] in Hf.
      lia.
Qed.

(** ** The execution log *)

(** The three ways a [record_execution] ends, with the log it leaves. *)
Lemma record_execution_rows (env : Env) (workflow_id user_id : Z) (status : string)
    (step_results : option (list dict)) (error_message : option string) (st : state) :
  let run := record_execution env workflow_id user_id status step_results
               error_message st in
  let execution_id := next_rowid (map Execution.id (workflow_executions st)) in
  let row := fun completed_at =>
    {| Execution.id := execution_id;
       Execution.workflow_id := workflow_id;
       Execution.user_id := user_id;
       Execution.status := status;
       Execution.step_results := if truthy step_results then step_results else None;
       Execution.error_message := error_message;
       Execution.started_at := now st;
       Execution.completed_at := completed_at |} in
  (run = (st, Err IntegrityError) /\
   workflow_fk env = true /\ select_workflow workflow_id st = None) \/
  (snd run = Err ZeroDivisionError /\
   workflow_executions (fst run) = workflow_executions st ++ [row None] /\
   terminal status = true /\
   exists w, select_workflow workflow_id st = Some w /\ Workflow.total_count w + 1 = 0) \/
  (snd run = Ok execution_id /\
   workflow_executions (fst run) =
     workflow_executions st ++
     [row (if String.eqb status "completed" then Some (now st) else None)]).
Proof.
  cbv zeta.
  unfold record_execution, Database.bind, insert_execution.
  destruct (workflow_fk env &&
            match select_workflow workflow_id st with
            | Some _ => false
            | None => true
            end) eqn:Efk.
  - left; apply andb_prop in Efk; destruct Efk as [Hfk Hsel].
    split; [reflexivity|]; split; [exact Hfk|].
    destruct (select_workflow workflow_id st); [discriminate | reflexivity].
  - right.
    unfold terminal.
    destruct (String.eqb status "completed") eqn:Ec; cbn [orb].
    + unfold update_workflow_success, await; cbn [resume].
      change (select_workflow workflow_id (set_workflow_executions ?x st))
        with (select_workflow workflow_id st).
      destruct (select_workflow workflow_id st) as [w|] eqn:Hsel.
      * destruct (Workflow.total_count w + 1 =? 0) eqn:Ez.
        -- left; split; [reflexivity|]; split; [reflexivity|]; split; [reflexivity|].
           exists w; split; [reflexivity | apply Z.eqb_eq; exact Ez].
        -- right; split; [reflexivity|].
           cbn [fst snd emit execute_update complete_execution set_workflows
                set_workflow_executions workflow_executions now resume].
           apply (map_last_execution
                    (fun x => {| Execution.id := Execution.id x;
                                 Execution.workflow_id := Execution.workflow_id x;
                                 Execution.user_id := Execution.user_id x;
                                 Execution.status := Execution.status x;
                                 Execution.step_results := Execution.step_results x;
                                 Execution.error_message := Execution.error_message x;
                                 Execution.started_at := Execution.started_at x;
                                 Execution.completed_at := Some (now st) |})
                    (workflow_executions st)
                    {| Execution.id :=
                         next_rowid (map Execution.id (workflow_executions st));
                       Execution.workflow_id := workflow_id;
                       Execution.user_id := user_id;
                       Execution.status := status;
                       Execution.step_results :=
                         if truthy step_results then step_results else None;
                       Execution.error_message := error_message;
                       Execution.started_at := now st;
                       Execution.completed_at := None |}).
           reflexivity.
      * right; split; [reflexivity|].
        cbn [fst snd emit complete_execution set_workflow_executions
             workflow_executions now resume].
        apply (map_last_execution
                 (fun x => {| Execution.id := Execution.id x;
                              Execution.workflow_id := Execution.workflow_id x;
                              Execution.user_id := Execution.user_id x;
                              Execution.status := Execution.status x;
                              Execution.step_results := Execution.step_results x;
                              Execution.error_message := Execution.error_message x;
                              Execution.started_at := Execution.started_at x;
                              Execution.completed_at := Some (now st) |})
                    (workflow_executions st)
                    {| Execution.id :=
                         next_rowid (map Execution.id (workflow_executions st));
                       Execution.workflow_id := workflow_id;
                       Execution.user_id := user_id;
                       Execution.status := status;
                       Execution.step_results :=
                         if truthy step_results then step_results else None;
                       Execution.error_message := error_message;
                       Execution.started_at := now st;
                       Execution.completed_at := None |}).
        reflexivity.
    + destruct (String.eqb status "failed") eqn:Ef.
      * unfold update_workflow_success, await; cbn [resume].
        change (select_workflow workflow_id (set_workflow_executions ?x st))
          with (select_workflow workflow_id st).
        destruct (select_workflow workflow_id st) as [w|] eqn:Hsel.
        -- destruct (Workflow.total_count w + 1 =? 0) eqn:Ez.
           ++ left; split; [reflexivity|]; split; [reflexivity|]; split; [reflexivity|].
              exists w; split; [reflexivity | apply Z.eqb_eq; exact Ez].
           ++ right; split; reflexivity.
        -- right; split; reflexivity.
      * right; split; reflexivity.
Qed.

(** X6.  [record_execution] ends in one of three ways.  Where the schema
    enforces the foreign key and the workflow is unknown, it raises
    [IntegrityError] and the store is as it was.  Otherwise it appends one
    row to the log, under an id that no logged execution has, and keeps the
    rows that were there; the row is stamped as completed only for the status
    [completed] (a failed execution has no [completed_at]), and the call
    returns the id, unless the counters of the workflow cannot be divided, in
    which case it raises after the insert. *)
Theorem record_execution_outcomes (env : Env) (workflow_id user_id : Z)
    (status : string) (step_results : option (list dict))
    (error_message : option string) (st : state) :
  let run := record_execution env workflow_id user_id status step_results
               error_message st in
  let execution_id := next_rowid (map Execution.id (workflow_executions st)) in
  ~ In execution_id (map Execution.id (workflow_executions st)) /\
  ((run = (st, Err IntegrityError) /\
    workflow_fk env = true /\ get_workflow workflow_id st = None) \/
   exists x,
     workflow_executions (fst run) = workflow_executions st ++ [x] /\
     Execution.id x = execution_id /\
     Execution.workflow_id x = workflow_id /\
     Execution.user_id x = user_id /\
     Execution.status x = status /\
     Execution.error_message x = error_message /\
     Execution.started_at x = now st /\
     ((snd run = Ok execution_id /\
       Execution.completed_at x =
         if String.eqb status "completed" then Some (now st) else None) \/
      (snd run = Err ZeroDivisionError /\
       Execution.completed_at x = None /\
       terminal status = true /\
       exists w, get_workflow workflow_id st = Some w /\
                 Workflow.total_count w + 1 = 0))).
Proof.
  cbv zeta; split; [apply next_rowid_fresh|].
  destruct (record_execution_rows env workflow_id user_id status step_results
              error_message st) as [H|[(Herr & Hrows & Ht & Hw)|(Hok & Hrows)]].
  - left; exact H.
  - right; eexists; split; [exact Hrows|].
    repeat (split; [reflexivity|]).
    right; repeat split; assumption.
  - right; eexists; split; [exact Hrows|].
    repeat (split; [reflexivity|]).
    left; split; [exact Hok | reflexivity].
Qed.

Lemma filter_app_miss {A : Type} (p : A -> bool) (l : list A) (x : A) :
  p x = false -> filter p (l ++ [x]) = filter p l.
Proof.
  intros Hx; rewrite filter_app; simpl; rewrite Hx; apply app_nil_r.
Qed.

(** X7.  [get_execution_history] returns logged executions of the workflow,
    latest start first and, for a limit that is not negative, at most [limit]
    of them.  An execution that [record_execution] returned is in the history
    of its workflow for any limit that does not cut the list, and a
    [record_execution] against one workflow leaves the history of every other
    workflow as it was, however the call ends. *)
Theorem get_execution_history_sound (env : Env) (workflow_id limit : Z) (st : state) :
  let history := get_execution_history workflow_id limit st in
  Forall (fun x => In x (workflow_executions st) /\
                   Execution.workflow_id x = workflow_id) history /\
  StronglySorted (fun a b => Execution.started_at b <= Execution.started_at a) history /\
  (0 <= limit -> Z.of_nat (List.length history) <= limit) /\
  (forall user_id status step_results error_message st' execution_id,
     record_execution env workflow_id user_id status step_results error_message st
     = (st', Ok execution_id) ->
     limit < 0 \/ Z.of_nat (List.length (workflow_executions st)) < limit ->
     exists x, In x (get_execution_history workflow_id limit st') /\
               Execution.id x = execution_id /\ Execution.status x = status) /\
  (forall other user_id status step_results error_message,
     other <> workflow_id ->
     get_execution_history workflow_id limit
       (fst (record_execution env other user_id status step_results error_message st))
     = get_execution_history workflow_id limit st).
Proof.
  cbv zeta; unfold get_execution_history.
  set (gtb := int_gtb Execution.started_at).
  assert (Hasym : forall a b, gtb a b = true -> gtb b a = false).
  { unfold gtb, int_gtb; intros a b; rewrite Z.ltb_lt, Z.ltb_ge; lia. }
  assert (Hneg : forall a b c, gtb a b = false -> gtb b c = false -> gtb a c = false).
  { unfold gtb, int_gtb; intros a b c; rewrite !Z.ltb_ge; lia. }
  split; [|split; [|split; [|split]]].
  - rewrite Forall_forall; intros x Hx.
    apply In_sql_limit in Hx.
    apply (Permutation_in _ (sorted_desc_perm gtb _)), filter_In in Hx.
    destruct Hx as [Hin Hid]; split; [exact Hin | apply Z.eqb_eq; exact Hid].
  - apply StronglySorted_sql_limit.
    eapply StronglySorted_weaken; [|apply (sorted_desc_sorted gtb Hasym Hneg)].
    intros a b Hab; unfold not_below, gtb, int_gtb in Hab.
    apply Z.ltb_ge in Hab; exact Hab.
  - apply length_sql_limit.
  - intros user_id status step_results error_message st' execution_id Hrun Hlimit.
    destruct (record_execution_rows env workflow_id user_id status step_results
                error_message st) as [(H & _)|[(H & _)|(Hok & Hrows)]];
      [rewrite Hrun in H; discriminate
      | rewrite Hrun in H; cbn in H; discriminate |].
    rewrite Hrun in Hok, Hrows; cbn [fst snd] in Hok, Hrows.
    injection Hok as Hok.
    eexists; split.
    + rewrite sql_limit_all.
      * apply (Permutation_in _ (Permutation_sym (sorted_desc_perm gtb _))).
        apply filter_In; split.
        -- rewrite Hrows; apply in_or_app; right; left; reflexivity.
        -- apply Z.eqb_refl.
      * destruct Hlimit as [H|H]; [left; exact H | right].
        rewrite (Permutation_length (sorted_desc_perm gtb _)).
        match goal with |- Z.of_nat (List.length (filter ?p ?l)) <= _ =>
          pose proof (filter_length_le p l) as Hf
        end.
        rewrite Hrows in Hf |- *.
        rewrite length_app in Hf; cbn [List.length] in Hf; lia.
    + split; [cbn [Execution.id]; symmetry; exact Hok | reflexivity].
  - intros other user_id status step_results error_message Hother.
    destruct (record_execution_rows env other user_id status step_results
                error_message st) as [(H & _)|[(_ & Hrows & _)|(_ & Hrows)]].
    + rewrite H; reflexivity.
    + rewrite Hrows, filter_app_miss; [reflexivity|].
      cbn [Execution.workflow_id]; apply Z.eqb_neq; exact Hother.
    + rewrite Hrows, filter_app_miss; [reflexivity|].
      cbn [Execution.workflow_id]; apply Z.eqb_neq; exact Hother.
Qed.

Lemma get_execution_history_sound_witness :
  exists st' execution_id x,
    record_execution (Sample.env true) 1 1 "failed" None (Some "timeout")
      Sample.two_workflows = (st', Ok execution_id) /\
    In x (get_execution_history 1 10 st') /\
    Execution.id x = execution_id /\
    Execution.status x = "failed" /\
    get_execution_history 2 10 st' = get_execution_history 2 10 Sample.two_workflows.
Proof.
  destruct (record_execution (Sample.env true) 1 1 "failed" None (Some "timeout")
              Sample.two_workflows) as [st' [execution_id|e]] eqn:Hrun;
    [|vm_compute in Hrun; discriminate].
  destruct (get_execution_history_sound (Sample.env true) 1 10 Sample.two_workflows)
    as (_ & _ & _ & Hin & _).
  destruct (Hin 1 "failed" None (Some "timeout") st' execution_id Hrun)
    as (x & Hx & Hid & Hstatus); [right; vm_compute; reflexivity|].
  destruct (get_execution_history_sound (Sample.env true) 2 10 Sample.two_workflows)
    as (_ & _ & _ & _ & Hother).
  specialize (Hother 1 1 "failed" None (Some "timeout")).
  rewrite Hrun in Hother; cbn [fst] in Hother.
  exists st', execution_id, x; repeat split; try assumption.
  apply Hother; discriminate.
Defined.

(** X8.  The step results of a finished execution overwrite the steps of the
    workflow: after [record_execution] with the status [completed] or
    [failed] and a non-empty [step_results], the workflow reads back with
    [step_results] as its steps.  With any other status the workflow row is
    left as it was, whatever the step results, and in both cases no other
    workflow is touched. *)
Theorem step_results_become_steps (env : Env) (workflow_id user_id : Z)
    (status : string) (s : dict) (r : list dict) (error_message : option string)
    (st : state) (w : Workflow.t) :
  get_workflow workflow_id st = Some w ->
  Workflow.total_count w + 1 <> 0 ->
  let st' := fst (record_execution env workflow_id user_id status (Some (s :: r))
                    error_message st) in
  (forall other, other <> workflow_id -> get_workflow other st' = get_workflow other st) /\
  (terminal status = true ->
   exists w', get_workflow workflow_id st' = Some w' /\
              Workflow.steps w' = s :: r /\
              Workflow.total_count w' = Workflow.total_count w + 1) /\
  (terminal status = false -> get_workflow workflow_id st' = Some w).
Proof.
  intros Hsel Hne; cbv zeta; unfold get_workflow in *.
  destruct (record_execution_found env workflow_id user_id status (Some (s :: r))
              error_message st w Hsel Hne) as (st' & eid & Hrun & _ & Hother & Hsel').
  rewrite Hrun; cbn [fst]; split; [exact Hother|]; split; intros Ht;
    rewrite Ht in Hsel'; [|exact Hsel'].
  eexists; split; [exact Hsel'|]; split; reflexivity.
Qed.

Lemma step_results_become_steps_witness :
  exists w',
    get_workflow 1
      (fst (record_execution (Sample.env false) 1 1 "completed"
              (Some [[("result", "sent")]]) None Sample.one_workflow)) = Some w' /\
    Workflow.steps w' = [[("result", "sent")]].
Proof.
  destruct (get_workflow 1 Sample.one_workflow) as [w|] eqn:Hsel;
    [|vm_compute in Hsel; discriminate].
  destruct (step_results_become_steps (Sample.env false) 1 1 "completed"
              [("result", "sent")] [] None Sample.one_workflow w Hsel)
    as (_ & Hdone & _).
  - vm_compute in Hsel; injection Hsel as <-; discriminate.
  - destruct (Hdone eq_refl) as (w' & Hget & Hsteps & _).
    exists w'; split; [exact Hget | exact Hsteps].
Defined.

(** ** What every session keeps *)

Lemma preserves_bind {A B : Type} (P : state -> Prop) (m : M A) (k : A -> M B) :
  Session.preserves P m -> (forall a, Session.preserves P (k a)) ->
  Session.preserves P (Database.bind m k).
Proof.
  intros Hm Hk st HP; unfold Database.bind.
  specialize (Hm st HP).
  destruct (m st) as [st' [a|e]]; cbn [fst] in *; [apply Hk; exact Hm | exact Hm].
Qed.

Lemma preserves_ret {A : Type} (P : state -> Prop) (a : A) :
  Session.preserves P (Database.ret a).
Proof. intros st HP; exact HP. Qed.

Lemma preserves_emit (l : level) (e : event) : Session.preserves Session.sound (emit l e).
Proof. intros st H; exact H. Qed.

Lemma unique_keys_filter (p : Embedding.t -> bool) (rows : list Embedding.t) :
  unique_keys rows -> unique_keys (filter p rows).
Proof.
  intros Hu content_id table_name; specialize (Hu content_id table_name).
  assert (Hle : (List.length (filter (same_key content_id table_name) (filter p rows))
                 <= List.length (filter (same_key content_id table_name) rows))%nat).
  { clear Hu; induction rows as [|e rows IH]; simpl; [lia|].
    destruct (p e); simpl; destruct (same_key content_id table_name e); simpl; lia. }
  lia.
Qed.

Lemma preserves_store_embedding (env : Env) (content_id : Z) (table_name content : string)
    (embedding : option vector) (metadata : option dict) :
  Session.preserves Session.sound
    (store_embedding env content_id table_name content embedding metadata).
Proof.
  intros st (Hw & Hx & Hu & Hc); unfold store_embedding, Database.bind.
  unfold Session.sound; cbn [fst emit set_embeddings workflows workflow_executions embeddings].
  repeat split; try assumption.
  apply upsert_unique_keys; exact Hu.
Qed.

Lemma preserves_record_workflow (self : WorkflowManager.t) (env : Env) (user_id : Z)
    (category intent_type original_prompt summary : string) (steps : list dict)
    (parameters : option dict) (is_template : bool) (rating : Z) :
  Session.preserves Session.sound
    (record_workflow self env user_id category intent_type original_prompt summary
       steps parameters is_template rating).
Proof.
  unfold record_workflow.
  apply preserves_bind.
  - intros st (Hw & Hx & Hu & Hc); unfold Session.sound.
    cbn [fst set_workflows workflows workflow_executions embeddings].
    repeat split; try assumption.
    + rewrite map_app; cbn [map Workflow.id].
      apply NoDup_app; [exact Hw | repeat constructor; simpl; tauto |].
      intros x Hx' [<-|[]]; exact (next_rowid_fresh _ Hx').
    + apply Forall_app; split; [exact Hc|].
      repeat constructor; cbn; try lia; reflexivity.
  - intros workflow_id; apply preserves_bind.
    + destruct (embedding_store self);
        [apply preserves_store_embedding | apply preserves_ret].
    + intros _; apply preserves_bind; [apply preserves_emit | intros; apply preserves_ret].
Qed.

Lemma update_row_consistent (w r : Workflow.t) (was_successful : bool)
    (new_steps : option (list dict)) (timestamp : Z) :
  Session.consistent w ->
  Session.consistent
    (update_row
       (Workflow.success_count w + (if was_successful then 1 else 0))
       (Workflow.total_count w + 1)
       (inject_Z (Workflow.success_count w + (if was_successful then 1 else 0))
        / inject_Z (Workflow.total_count w + 1))%Q
       new_steps timestamp r).
Proof.
  intros (H1 & H2 & _); unfold Session.consistent; cbn.
  destruct was_successful; repeat split; try lia; reflexivity.
Qed.

Lemma preserves_update_workflow_success (workflow_id : Z) (was_successful : bool)
    (new_steps : option (list dict)) :
  Session.preserves Session.sound
    (update_workflow_success workflow_id was_successful new_steps).
Proof.
  intros st (Hw & Hx & Hu & Hc).
  unfold update_workflow_success, await; cbn [resume].
  destruct (select_workflow workflow_id st) as [w|] eqn:Hsel;
    [|repeat split; assumption].
  destruct (Workflow.total_count w + 1 =? 0); [repeat split; assumption|].
  cbn [resume fst emit execute_update set_workflows].
  unfold Session.sound; cbn [workflows workflow_executions embeddings].
  assert (Hcw : Session.consistent w).
  { unfold select_workflow in Hsel; apply find_some in Hsel.
    rewrite Forall_forall in Hc; apply Hc, Hsel. }
  repeat split; try assumption;
    unfold execute_update; cbn [set_workflows workflows].
  - rewrite map_map.
    erewrite map_ext; [exact Hw|].
    intros r; cbn beta; destruct (Workflow.id r =? workflow_id); reflexivity.
  - rewrite Forall_map; eapply Forall_impl; [|exact Hc].
    intros r Hr; cbn beta.
    destruct (Workflow.id r =? workflow_id); [|exact Hr].
    apply update_row_consistent; exact Hcw.
Qed.

Lemma preserves_record_execution (env : Env) (workflow_id user_id : Z) (status : string)
    (step_results : option (list dict)) (error_message : option string) :
  Session.preserves Session.sound
    (record_execution env workflow_id user_id status step_results error_message).
Proof.
  unfold record_execution.
  apply preserves_bind.
  - intros st (Hw & Hx & Hu & Hc); unfold insert_execution.
    destruct (workflow_fk env && _); [repeat split; assumption|].
    unfold Session.sound; cbn [fst set_workflow_executions workflows
                               workflow_executions embeddings].
    repeat split; try assumption.
    rewrite map_app; cbn [map Execution.id].
    apply NoDup_app; [exact Hx | repeat constructor; simpl; tauto |].
    intros x Hx' [<-|[]]; exact (next_rowid_fresh _ Hx').
  - intros execution_id; apply preserves_bind; [|intros; apply preserves_ret].
    destruct (terminal status); [|apply preserves_ret].
    apply preserves_bind; [apply preserves_update_workflow_success|].
    intros _; destruct (String.eqb status "completed"); [|apply preserves_ret].
    intros st (Hw & Hx & Hu & Hc); unfold complete_execution, Session.sound.
    cbn [fst set_workflow_executions workflows workflow_executions embeddings].
    repeat split; try assumption.
    rewrite map_map.
    erewrite map_ext; [exact Hx|].
    intros x; cbn beta; destruct (Execution.id x =? execution_id); reflexivity.
Qed.

Lemma preserves_convert_to_template (workflow_id user_id : Z) :
  Session.preserves Session.sound (convert_to_template workflow_id user_id).
Proof.
  intros st (Hw & Hx & Hu & Hc); unfold convert_to_template, Session.sound.
  cbn [fst set_workflows workflows workflow_executions embeddings].
  repeat split; try assumption.
  - rewrite map_map.
    erewrite map_ext; [exact Hw|].
    intros r; cbn beta; destruct (_ && _); reflexivity.
  - rewrite Forall_map; eapply Forall_impl; [|exact Hc].
    intros r Hr; cbn beta; destruct (_ && _); exact Hr.
Qed.

Lemma preserves_delete_embeddings (content_id : Z) (table_name : string) :
  Session.preserves Session.sound (delete_embeddings content_id table_name).
Proof.
  intros st (Hw & Hx & Hu & Hc); unfold delete_embeddings, Session.sound.
  cbn [fst set_embeddings workflows workflow_executions embeddings].
  repeat split; try assumption.
  apply unique_keys_filter; exact Hu.
Qed.

Lemma preserves_cleanup : Session.preserves Session.sound cleanup_orphaned_embeddings.
Proof.
  intros st (Hw & Hx & Hu & Hc); unfold cleanup_orphaned_embeddings, Session.sound.
  cbn [fst set_embeddings workflows workflow_executions embeddings].
  repeat split; try assumption.
  apply unique_keys_filter; exact Hu.
Qed.

Lemma perform_sound (env : Env) (op : Session.operation) (st : state) :
  Session.sound st -> Session.sound (Session.perform env op st).
Proof.
  intros H; destruct op; cbn [Session.perform].
  - apply preserves_record_workflow; exact H.
  - apply preserves_update_workflow_success; exact H.
  - apply preserves_record_execution; exact H.
  - apply preserves_convert_to_template; exact H.
  - apply preserves_store_embedding; exact H.
  - apply preserves_delete_embeddings; exact H.
  - apply preserves_cleanup; exact H.
  - exact H.
Qed.

Lemma consistent_rate (w : Workflow.t) :
  Session.consistent w -> (0 <= Workflow.success_rate w <= 1)%Q.
Proof.
  intros (H1 & H2 & H3); rewrite H3.
  assert (Hpos : (0 < inject_Z (Workflow.total_count w))%Q).
  { change (inject_Z 0 < inject_Z (Workflow.total_count w))%Q.
    rewrite <- Zlt_Qlt; lia. }
  split.
  - apply Qle_shift_div_l; [exact Hpos|].
    rewrite Qmult_0_l.
    change (inject_Z 0 <= inject_Z (Workflow.success_count w))%Q.
    rewrite <- Zle_Qle; lia.
  - apply Qle_shift_div_r; [exact Hpos|].
    rewrite Qmult_1_l, <- Zle_Qle; lia.
Qed.

(** X9.  The writes keep what the schema and the statistics promise.  From a
    store in which workflow ids and execution ids are distinct, the embedding
    keys are unique and every workflow has [total_count >= 1], [0 <=
    success_count <= total_count] and [success_rate = success_count /
    total_count], any sequence of [record_workflow],
    [update_workflow_success], [record_execution], [convert_to_template],
    [store_embedding], [delete_embeddings] and [cleanup_orphaned_embeddings],
    returning or raising, leads to such a store.  There every success rate
    lies between 0 and 1, and no [record_execution] raises
    [ZeroDivisionError]. *)
Theorem session_keeps_sound (env : Env) (ops : list Session.operation) (st : state) :
  Session.sound st ->
  let st' := Session.perform_all env ops st in
  Session.sound st' /\
  Forall (fun w => (0 <= Workflow.success_rate w <= 1)%Q) (workflows st') /\
  forall workflow_id user_id status step_results error_message,
    snd (record_execution env workflow_id user_id status step_results
           error_message st') <> Err ZeroDivisionError.
Proof.
  intros Hsound st'.
  assert (H : Session.sound st').
  { unfold st', Session.perform_all; clear st'.
    revert st Hsound; induction ops as [|op ops IH]; intros st Hsound; simpl.
    - exact Hsound.
    - apply IH, perform_sound; exact Hsound. }
  split; [exact H|]; split.
  - destruct H as (_ & _ & _ & Hc).
    eapply Forall_impl; [|exact Hc]; intros w; apply consistent_rate.
  - intros workflow_id user_id status step_results error_message Herr.
    destruct (record_execution_rows env workflow_id user_id status step_results
                error_message st')
      as [(Hr & _)|[(_ & _ & _ & w & Hsel & Hz)|(Hok & _)]].
    + rewrite Hr in Herr; discriminate.
    + destruct H as (_ & _ & _ & Hc).
      unfold select_workflow in Hsel; apply find_some in Hsel.
      rewrite Forall_forall in Hc; destruct (Hc w (proj1 Hsel)) as (H1 & _); lia.
    + rewrite Hok in Herr; discriminate.
Qed.

Lemma session_keeps_sound_witness :
  Session.sound
    (Session.perform_all (Sample.env true)
       [Session.RecordWorkflow (WorkflowManager.init true) 1 "linkedin"
          "connection_request" "connect with a product manager"
          "sent a connection request" [[("action", "click_connect")]] None false 5;
        Session.RecordExecution 1 1 "completed" None None;
        Session.RecordExecution 7 1 "failed" None None;
        Session.ConvertToTemplate 1 1;
        Session.DeleteEmbeddings 1 "workflows";
        Session.CleanupOrphanedEmbeddings]
       Sample.empty).
Proof.
  apply (session_keeps_sound (Sample.env true)).
  unfold Session.sound, Sample.empty; cbn [workflows workflow_executions embeddings map].
  split; [constructor|]; split; [constructor|]; split; [|constructor].
  intros content_id table_name; simpl; lia.
Defined.

(** ** [get_statistics] *)

Lemma success_query_where (user_id : option Z) (category : option string) :
  occurrences_of "WHERE" (success_query user_id category)
  = if truthy_int user_id || truthy_str category then 2%nat else 1%nat.
Proof.
  unfold success_query, where_clause.
  destruct (truthy_int user_id), (truthy_str category); reflexivity.
Qed.

Lemma sum_rates_bounds (rows : list Workflow.t) :
  Forall (fun w => (0 <= Workflow.success_rate w <= 1)%Q) rows ->
  (0 <= sum_rates rows <= inject_Z (Z.of_nat (List.length rows)))%Q.
Proof.
  induction 1 as [|w rows [H0 H1] _ [IH0 IH1]]; cbn [sum_rates fold_right List.length].
  - split; apply Qle_refl.
  - fold (sum_rates rows); split.
    + rewrite <- (Qplus_0_l 0); apply Qplus_le_compat; assumption.
    + rewrite Nat2Z.inj_succ, <- Z.add_1_l, inject_Z_plus.
      apply Qplus_le_compat; assumption.
Qed.

(** X10.  [get_statistics] with a filter (a user id other than 0, or a
    category that is not empty) raises: its second query already has a
    [WHERE] clause when the filter's is appended.  Without a filter, and a
    user id of 0 counts as none, it returns the number of workflows, the
    number of those with a success rate of 0.8 or more, which is at most the
    former, and the mean success rate, which is 0.0 for an empty table and
    lies between 0 and 1 when the stored rates do. *)
Theorem get_statistics_behaviour (user_id : option Z) (category : option string)
    (st : state) :
  (truthy_int user_id || truthy_str category = true ->
   get_statistics user_id category st = inr OperationalError) /\
  (truthy_int user_id || truthy_str category = false ->
   exists s,
     get_statistics user_id category st = inl s /\
     total_workflows s = Z.of_nat (List.length (workflows st)) /\
     successful_workflows s =
       Z.of_nat (List.length
                   (filter (fun w => Qle_bool (8 # 10) (Workflow.success_rate w))
                           (workflows st))) /\
     0 <= successful_workflows s <= total_workflows s /\
     (workflows st = [] -> average_success_rate s = 0%Q) /\
     (workflows st <> [] ->
      (average_success_rate s ==
         sum_rates (workflows st) / inject_Z (total_workflows s))%Q) /\
     (Forall (fun w => (0 <= Workflow.success_rate w <= 1)%Q) (workflows st) ->
      (0 <= average_success_rate s <= 1)%Q)) /\
  get_statistics (Some 0) None st = get_statistics None None st.
Proof.
  unfold get_statistics; rewrite !success_query_where.
  split; [|split; [|reflexivity]].
  - intros ->; reflexivity.
  - intros ->; cbn [Nat.ltb Nat.leb].
    eexists; split; [reflexivity|].
    cbn [total_workflows successful_workflows average_success_rate].
    split; [reflexivity|]; split; [reflexivity|]; split; [|split; [|split]].
    + pose proof (filter_length_le
                    (fun w => Qle_bool (8 # 10) (Workflow.success_rate w))
                    (workflows st)); lia.
    + intros ->; reflexivity.
    + intros Hne.
      destruct (workflows st) as [|w rows] eqn:Hrows; [congruence|].
      destruct (Qeq_bool _ 0) eqn:E; [|reflexivity].
      apply Qeq_bool_iff in E; symmetry; exact E.
    + intros Hall.
      destruct (workflows st) as [|w rows] eqn:Hrows;
        [split; [apply Qle_refl | discriminate]|].
      pose proof (sum_rates_bounds _ Hall) as [Hs0 Hs1].
      set (n := inject_Z (Z.of_nat (List.length (w :: rows)))) in *.
      assert (Hn : (0 < n)%Q).
      { unfold n; change (inject_Z 0 < inject_Z (Z.of_nat (List.length (w :: rows))))%Q.
        rewrite <- Zlt_Qlt; cbn [List.length]; lia. }
      assert (Havg : (0 <= sum_rates (w :: rows) / n <= 1)%Q).
      { split.
        - apply Qle_shift_div_l; [exact Hn | rewrite Qmult_0_l; exact Hs0].
        - apply Qle_shift_div_r; [exact Hn | rewrite Qmult_1_l; exact Hs1]. }
      destruct (Qeq_bool _ 0); [split; [apply Qle_refl | discriminate] | exact Havg].
Qed.

Lemma get_statistics_behaviour_witness :
  get_statistics (Some 1) None Sample.two_workflows = inr OperationalError /\
  get_statistics None (Some "linkedin") Sample.two_workflows = inr OperationalError /\
  exists s,
    get_statistics None None Sample.two_workflows = inl s /\
    total_workflows s = 2 /\
    (0 <= average_success_rate s <= 1)%Q.
Proof.
  destruct (get_statistics_behaviour (Some 1) None Sample.two_workflows) as (H1 & _).
  destruct (get_statistics_behaviour None (Some "linkedin") Sample.two_workflows)
    as (H2 & _).
  destruct (get_statistics_behaviour None None Sample.two_workflows) as (_ & H3 & _).
  split; [apply H1; reflexivity|]; split; [apply H2; reflexivity|].
  destruct (H3 eq_refl) as (s & Hs & Ht & _ & _ & _ & _ & Havg).
  exists s; split; [exact Hs|]; split; [rewrite Ht; reflexivity|].
  apply Havg; vm_compute; repeat constructor; discriminate.
Defined.

(** ** [delete_embeddings] and [cleanup_orphaned_embeddings] *)

Lemma filter_rejected {A : Type} (p : A -> bool) (l : list A) :
  filter p (filter (fun a => negb (p a)) l) = [].
Proof.
  induction l as [|a l IH]; simpl; [reflexivity|].
  destruct (p a) eqn:E; simpl; [exact IH | rewrite E; exact IH].
Qed.

Lemma filter_within {A : Type} (p q : A -> bool) (l : list A) :
  (forall a, p a = true -> q a = true) -> filter p (filter q l) = filter p l.
Proof.
  intros Hpq; induction l as [|a l IH]; simpl; [reflexivity|].
  destruct (q a) eqn:Eq; simpl.
  - rewrite IH; reflexivity.
  - destruct (p a) eqn:Ep; [|exact IH].
    rewrite (Hpq a Ep) in Eq; discriminate.
Qed.

(** X11.  [delete_embeddings] removes the rows of the pair and only those:
    no row of the pair is left, the rows of every other pair stay, in their
    order, and no other table changes. *)
Theorem delete_embeddings_removes (content_id : Z) (table_name : string) (st : state) :
  let run := delete_embeddings content_id table_name st in
  snd run = Ok tt /\
  filter (same_key content_id table_name) (embeddings (fst run)) = [] /\
  (forall e, In e (embeddings (fst run)) <->
             In e (embeddings st) /\ same_key content_id table_name e = false) /\
  (forall other_id other_table,
     other_id <> content_id \/ other_table <> table_name ->
     filter (same_key other_id other_table) (embeddings (fst run))
     = filter (same_key other_id other_table) (embeddings st)) /\
  workflows (fst run) = workflows st /\
  workflow_executions (fst run) = workflow_executions st.
Proof.
  cbv zeta; unfold delete_embeddings; cbn [fst snd set_embeddings embeddings
                                           workflows workflow_executions].
  split; [reflexivity|]; split; [apply filter_rejected|]; split;
    [|split; [|split; reflexivity]].
  - intros e; rewrite filter_In, negb_true_iff; reflexivity.
  - intros other_id other_table Hother; apply filter_within.
    intros e He; apply negb_true_iff.
    destruct (same_key content_id table_name e) eqn:Hk; [|reflexivity].
    unfold same_key in He, Hk.
    apply andb_true_iff in He; destruct He as [Hi Ht].
    apply andb_true_iff in Hk; destruct Hk as [Hi' Ht'].
    apply Z.eqb_eq in Hi, Hi'; apply String.eqb_eq in Ht, Ht'.
    destruct Hother as [H|H]; exfalso; apply H; congruence.
Qed.

Lemma filter_others_upsert (content_id : Z) (table_name : string) (row : Embedding.t)
    (rows : list Embedding.t) :
  Embedding.content_id row = content_id ->
  Embedding.table_name row = table_name ->
  filter (fun e => negb (same_key content_id table_name e)) (upsert row rows)
  = filter (fun e => negb (same_key content_id table_name e)) rows.
Proof.
  intros Hc Ht; unfold upsert; rewrite Hc, Ht.
  destruct (existsb (same_key content_id table_name) rows).
  - rewrite filter_map_overwrite by reflexivity.
    rewrite <- (map_id (filter _ rows)) at 2.
    apply map_ext_in; intros e He; apply filter_In in He.
    destruct He as [_ He]; apply negb_true_iff in He; rewrite He; reflexivity.
  - apply filter_app_miss.
    unfold same_key; rewrite Hc, Ht, Z.eqb_refl, String.eqb_refl; reflexivity.
Qed.

(** X12.  Storing an embedding and deleting it again leaves the table as a
    deletion alone would: for a pair that was not stored the table is back to
    what it was, and for a pair that was stored the old row is gone as
    well. *)
Theorem store_then_delete (env : Env) (content_id : Z) (table_name content : string)
    (embedding : option vector) (metadata : option dict) (st : state) :
  let stored := fst (store_embedding env content_id table_name content embedding
                       metadata st) in
  let deleted := fst (delete_embeddings content_id table_name stored) in
  embeddings deleted = embeddings (fst (delete_embeddings content_id table_name st)) /\
  (filter (same_key content_id table_name) (embeddings st) = [] ->
   embeddings deleted = embeddings st).
Proof.
  cbv zeta; unfold delete_embeddings, store_embedding, Database.bind.
  cbn [fst snd emit set_embeddings embeddings].
  assert (H : forall row,
             Embedding.content_id row = content_id ->
             Embedding.table_name row = table_name ->
             filter (fun e => negb (same_key content_id table_name e))
                    (upsert row (embeddings st))
             = filter (fun e => negb (same_key content_id table_name e))
                      (embeddings st))
    by (intros; apply filter_others_upsert; assumption).
  split; [apply H; reflexivity|].
  intros Habsent; rewrite H by reflexivity.
  clear H; induction (embeddings st) as [|e rows IH]; simpl in *; [reflexivity|].
  destruct (same_key content_id table_name e); [discriminate|].
  simpl; rewrite IH by exact Habsent; reflexivity.
Qed.

Lemma store_then_delete_witness :
  embeddings
    (fst (delete_embeddings 9 "notes"
            (fst (store_embedding (Sample.env false) 9 "notes" "a note" None None
                    Sample.two_workflows))))
  = embeddings Sample.two_workflows.
Proof.
  apply (store_then_delete (Sample.env false) 9 "notes" "a note" None None
           Sample.two_workflows).
  reflexivity.
Defined.

Lemma references_workflow_iff (st : state) (e : Embedding.t) :
  references_workflow st e = true <->
  Embedding.table_name e = "workflows" /\
  exists w, In w (workflows st) /\ Workflow.id w = Embedding.content_id e.
Proof.
  unfold references_workflow; rewrite existsb_exists; split.
  - intros (w & Hw & H); apply andb_prop in H; destruct H as [H1 H2].
    apply Z.eqb_eq in H1; apply String.eqb_eq in H2.
    split; [exact H2 | exists w; split; [exact Hw | symmetry; exact H1]].
  - intros (Ht & w & Hw & Hid); exists w; split; [exact Hw|].
    rewrite Ht, Hid, Z.eqb_refl; reflexivity.
Qed.

Lemma filter_idempotent {A : Type} (p : A -> bool) (l : list A) :
  filter p (filter p l) = filter p l.
Proof.
  induction l as [|x l IH]; simpl; [reflexivity|].
  destruct (p x) eqn:E; simpl; rewrite ?E, IH; reflexivity.
Qed.

(** X13.  After [cleanup_orphaned_embeddings] the embeddings left are the
    rows of the table [workflows] whose content id is the id of a stored
    workflow, in their order: these are kept, the embeddings of deleted or
    unknown workflows are removed, and so is every embedding stored under
    another table name.  A second cleanup changes nothing, and the workflows
    and executions are never touched. *)
Theorem cleanup_orphaned_embeddings_keeps (st : state) :
  let run := cleanup_orphaned_embeddings st in
  snd run = Ok tt /\
  (forall e, In e (embeddings (fst run)) <->
             In e (embeddings st) /\
             Embedding.table_name e = "workflows" /\
             exists w, In w (workflows st) /\ Workflow.id w = Embedding.content_id e) /\
  (forall e, Embedding.table_name e <> "workflows" -> ~ In e (embeddings (fst run))) /\
  embeddings (fst (cleanup_orphaned_embeddings (fst run))) = embeddings (fst run) /\
  workflows (fst run) = workflows st /\
  workflow_executions (fst run) = workflow_executions st.
Proof.
  cbv zeta; unfold cleanup_orphaned_embeddings.
  cbn [fst snd set_embeddings embeddings workflows workflow_executions].
  assert (Hin : forall e,
             In e (filter (references_workflow st) (embeddings st)) <->
             In e (embeddings st) /\
             Embedding.table_name e = "workflows" /\
             exists w, In w (workflows st) /\ Workflow.id w = Embedding.content_id e).
  { intros e; rewrite filter_In, references_workflow_iff; reflexivity. }
  split; [reflexivity|]; split; [exact Hin|]; split; [|split; [|split; reflexivity]].
  - intros e Hne He; apply Hin in He; apply Hne, He.
  - change (references_workflow (set_embeddings ?x st)) with (references_workflow st).
    apply filter_idempotent.
Qed.

(** ** A blank query *)

Lemma space_not_upper (c : ascii) : is_space c = true -> is_upper c = false.
Proof.
  unfold is_space, is_upper; cbv zeta.
  rewrite orb_true_iff, !andb_true_iff, andb_false_iff, !Nat.leb_le, !Nat.leb_gt.
  lia.
Qed.

Lemma lower_blank (s : string) : all_chars is_space s = true -> lower s = s.
Proof.
  induction s as [|c s IH]; cbn [all_chars lower]; [reflexivity|].
  intros H; apply andb_true_iff in H; destruct H as [Hc Hs].
  unfold lower_char; rewrite (space_not_upper c Hc), (IH Hs); reflexivity.
Qed.

Lemma split_ws_blank (s : string) :
  all_chars is_space s = true -> split_ws s EmptyString = [].
Proof.
  induction s as [|c s IH]; cbn [all_chars split_ws]; [reflexivity|].
  intros H; apply andb_true_iff in H; destruct H as [Hc Hs].
  rewrite Hc; exact (IH Hs).
Qed.

Lemma lower_char_space (c : ascii) : is_space (lower_char c) = is_space c.
Proof.
  unfold lower_char; destruct (is_upper c) eqn:Hu; [|reflexivity].
  unfold is_upper in Hu; apply andb_true_iff in Hu; destruct Hu as [Hlo Hhi].
  apply Nat.leb_le in Hlo, Hhi.
  unfold is_space; cbv zeta.
  rewrite nat_ascii_embedding by lia.
  transitivity false.
  - apply orb_false_iff; split; apply andb_false_iff;
      right; apply Nat.leb_gt; lia.
  - symmetry; apply orb_false_iff; split; apply andb_false_iff;
      right; apply Nat.leb_gt; lia.
Qed.

Lemma lower_spaces (s : string) :
  all_chars is_space (lower s) = all_chars is_space s.
Proof.
  induction s as [|c s IH]; cbn [lower all_chars]; [reflexivity|].
  rewrite lower_char_space, IH; reflexivity.
Qed.

Lemma append_not_empty (cur : string) (c : ascii) :
  (cur ++ String c EmptyString)%string <> EmptyString.
Proof. destruct cur; discriminate. Qed.

(** [split()] gives non-empty words only, and at least one for a text that
    is not blank. *)
Lemma split_ws_words (s : string) :
  forall cur,
    Forall (fun k => k <> EmptyString) (split_ws s cur) /\
    (cur <> EmptyString \/ all_chars is_space s = false -> split_ws s cur <> []).
Proof.
  induction s as [|c s IH]; intros cur; cbn [split_ws all_chars].
  - destruct cur as [|x cur]; split.
    + constructor.
    + intros [H|H]; [congruence | discriminate].
    + constructor; [discriminate | constructor].
    + intros _; discriminate.
  - destruct (is_space c); cbn [andb].
    + destruct cur as [|x cur].
      * destruct (IH EmptyString) as [Hall Hne]; split; [exact Hall|].
        intros [H|H]; [congruence | apply Hne; right; exact H].
      * destruct (IH EmptyString) as [Hall _]; split.
        -- constructor; [discriminate | exact Hall].
        -- intros _; discriminate.
    + destruct (IH (cur ++ String c EmptyString)%string) as [Hall Hne]; split;
        [exact Hall|].
      intros _; apply Hne; left; apply append_not_empty.
Qed.

Lemma filter_all {A : Type} (p : A -> bool) (l : list A) :
  Forall (fun a => p a = true) l -> filter p l = l.
Proof.
  induction 1 as [|a l Ha _ IH]; simpl; [reflexivity|].
  rewrite Ha, IH; reflexivity.
Qed.

Lemma join_conditions_not_empty (k : string) (ks : list string) :
  KeywordExtractor.join " OR " (map match_condition (k :: ks)) <> EmptyString.
Proof.
  cbn [map]; destruct (map match_condition ks); cbn; discriminate.
Qed.

(** X17.  [search_keyword] sends a statement exactly when the query has a
    word.  For a query that is empty or made of whitespace only it returns
    the empty list without a query to the full-text index, whatever the
    index holds and whatever SQLite would answer.  For any other query it
    sends the statement with at least one [MATCH] condition, and what it
    returns or raises is what SQLite answers to that statement. *)
Theorem search_keyword_blank (env : Env) (query table_name : string) (limit : Z)
    (st : state) :
  (all_chars is_space query = true ->
   search_keyword env query table_name limit st = Ok []) /\
  (all_chars is_space query = false ->
   exists keyword keywords,
     split_ws (lower query) EmptyString = keyword :: keywords /\
     search_keyword env query table_name limit st
     = fts_match env
         (KeywordExtractor.join " OR " (map match_condition (keyword :: keywords)))
         table_name limit).
Proof.
  unfold search_keyword; split; intros Hq.
  - rewrite (lower_blank query Hq), (split_ws_blank query Hq); reflexivity.
  - destruct (split_ws_words (lower query) EmptyString) as [Hall Hne].
    rewrite filter_all.
    + destruct (split_ws (lower query) EmptyString) as [|keyword keywords] eqn:Hsplit.
      * exfalso; apply Hne; [right; rewrite lower_spaces; exact Hq | reflexivity].
      * exists keyword, keywords; split; [reflexivity|].
        destruct (String.eqb _ EmptyString) eqn:E; [|reflexivity].
        apply String.eqb_eq in E.
        exfalso; exact (join_conditions_not_empty keyword keywords E).
    + rewrite Forall_forall in Hall |- *; intros k Hk.
      apply negb_true_iff, String.eqb_neq, Hall, Hk.
Qed.

Lemma search_keyword_blank_witness :
  search_keyword Sample.fts_env "  " "workflows" 10 Sample.two_workflows = Ok [] /\
  search_keyword Sample.fts_env "message a founder" "workflows" 10 Sample.two_workflows
  = fts_match Sample.fts_env
      (KeywordExtractor.join " OR "
         (map match_condition ["message"; "a"; "founder"]))
      "workflows" 10.
Proof.
  destruct (search_keyword_blank Sample.fts_env "  " "workflows" 10 Sample.two_workflows)
    as [Hblank _].
  destruct (search_keyword_blank Sample.fts_env "message a founder" "workflows" 10
              Sample.two_workflows) as [_ Hsent].
  split; [apply Hblank; reflexivity|].
  destruct (Hsent eq_refl) as (keyword & keywords & Hsplit & Hrun).
  rewrite Hrun; vm_compute in Hsplit.
  injection Hsplit as <- <-; reflexivity.
Defined.

(** ** The keywords column *)

Lemma append_snoc (a : string) (c : ascii) (b : string) :
  ((a ++ String c EmptyString) ++ b = a ++ String c b)%string.
Proof. induction a as [|x a IH]; cbn; [reflexivity | rewrite IH; reflexivity]. Qed.

Lemma append_empty (a : string) : (a ++ EmptyString = a)%string.
Proof. induction a as [|x a IH]; cbn; [reflexivity | rewrite IH; reflexivity]. Qed.

Lemma lower_not_comma (c : ascii) : is_lower c = true -> (nat_of_ascii c =? 44)%nat = false.
Proof.
  unfold is_lower; rewrite andb_true_iff, !Nat.leb_le, Nat.eqb_neq; lia.
Qed.

(** Reading a word without a comma moves it into the piece being read. *)
Lemma split_comma_word (w : string) :
  all_chars is_lower w = true ->
  forall rest cur,
    split_comma (w ++ rest) cur = split_comma rest (cur ++ w).
Proof.
  induction w as [|c w IH]; cbn [all_chars]; intros H rest cur.
  - rewrite append_empty; reflexivity.
  - apply andb_true_iff in H; destruct H as [Hc Hw].
    cbn [append split_comma]; rewrite (lower_not_comma c Hc), (IH Hw), append_snoc.
    reflexivity.
Qed.

Lemma split_comma_join (ks : list string) :
  Forall (fun k => all_chars is_lower k = true) ks ->
  forall k cur,
    all_chars is_lower k = true ->
    split_comma (join "," (k :: ks)) cur = (cur ++ k)%string :: ks.
Proof.
  induction 1 as [|k' ks Hk' Hks IH]; intros k cur Hk.
  - cbn [join]; rewrite <- (append_empty k) at 1.
    rewrite (split_comma_word k Hk); reflexivity.
  - change (join "," (k :: k' :: ks)) with (k ++ "," ++ join "," (k' :: ks))%string.
    rewrite (split_comma_word k Hk).
    change ("," ++ join "," (k' :: ks))%string with (String "," (join "," (k' :: ks))).
    cbn [split_comma]; change (nat_of_ascii "," =? 44)%nat with true; cbv iota.
    rewrite (IH k' EmptyString Hk'); reflexivity.
Qed.

(** X18.  The comma-separated string that [extract_as_string] builds, which
    [record_workflow] stores in the [keywords] column, is split by
    [split(",")] in [find_similar_workflows] into the keywords that [extract]
    returned, in the same order; when there is no keyword the stored string
    is empty and the split gives one empty word, not an empty list. *)
Theorem keywords_column_round_trip (self : KeywordExtractor.t) (text : string) :
  split_comma (extract_as_string self text) EmptyString
  = match extract self text with
    | [] => [EmptyString]
    | ks => ks
    end.
Proof.
  unfold extract_as_string.
  pose proof (extract_ranked self text) as Hex; cbv zeta in Hex.
  destruct Hex as (_ & Hin & _).
  assert (Hlow : Forall (fun k => all_chars is_lower k = true) (extract self text)).
  { pose proof (candidates_ok text) as Hok.
    rewrite Forall_forall in Hin, Hok |- *; intros k Hk.
    destruct (Hok k (Hin k Hk)) as [Hl _]; exact Hl. }
  destruct (extract self text) as [|k ks]; [reflexivity|].
  inversion Hlow as [|? ? Hk Hks]; subst.
  rewrite (split_comma_join ks Hks k EmptyString Hk); reflexivity.
Qed.

(** X19.  The keywords of a smaller [max_keywords] are the first ones of the
    keywords of a larger [max_keywords]: raising the maximum only appends
    keywords, it neither reorders nor replaces them.  A maximum of zero or
    less gives no keyword. *)
Theorem extract_prefix (k1 k2 : Z) (text : string) :
  k1 <= k2 ->
  extract {| max_keywords := k1 |} text
  = firstn (Z.to_nat k1) (extract {| max_keywords := k2 |} text) /\
  (k1 <= 0 -> extract {| max_keywords := k1 |} text = []).
Proof.
  intros Hle; unfold extract, most_common; cbn [max_keywords]; split.
  - rewrite firstn_map, firstn_firstn.
    replace (Nat.min (Z.to_nat k1) (Z.to_nat k2)) with (Z.to_nat k1) by lia.
    reflexivity.
  - intros H0; replace (Z.to_nat k1) with 0%nat by lia; reflexivity.
Qed.

Lemma extract_prefix_witness :
  extract {| max_keywords := 2 |}
    "Please connect with a product manager, then message the product manager"
  = firstn 2 (extract {| max_keywords := 15 |}
    "Please connect with a product manager, then message the product manager").
Proof.
  destruct (extract_prefix 2 15
    "Please connect with a product manager, then message the product manager")
    as [H _]; [lia | exact H].
Defined.

(** ** What [find_similar_workflows] returns *)

(** X21.  The three ways in which [find_similar_workflows] ends.  When the
    query of the lexical phase returns a row it raises [TypeError].  When it
    returns none, and the manager has an embedding store, and [limit] is
    positive, it raises [OperationalError] in the semantic phase.  In the
    remaining case (no candidate row, and no embedding store or a limit of
    zero or less) it returns the empty list.  So it never returns a
    workflow. *)
Theorem find_similar_workflows_outcomes (self : WorkflowManager.t) (env : Env)
    (user_id : Z) (prompt : string) (category : option string) (limit : Z)
    (st : state) :
  let rows := candidate_rows user_id category limit st in
  let run := find_similar_workflows self env user_id prompt category limit st in
  (rows <> [] -> run = Err TypeError) /\
  (rows = [] -> WorkflowManager.embedding_store self = true -> 0 < limit ->
   run = Err Py.OperationalError) /\
  (rows = [] -> WorkflowManager.embedding_store self = false \/ limit <= 0 ->
   run = Ok []) /\
  (run = Err TypeError \/ run = Err Py.OperationalError \/ run = Ok []).
Proof.
  cbv zeta.
  assert (Hnone : candidate_rows user_id category limit st = [] ->
                  find_similar_workflows self env user_id prompt category limit st
                  = if WorkflowManager.embedding_store self && (0 <? limit)
                    then Err Py.OperationalError else Ok []).
  { intros Hrows.
    rewrite (no_candidate_rows self env user_id prompt category limit st Hrows),
      semantic_phase_outcome.
    cbn [List.length Z.of_nat].
    destruct (WorkflowManager.embedding_store self && (0 <? limit)); [reflexivity|].
    cbn [Py.bind]; rewrite slice_to_nil; reflexivity. }
  split; [apply find_similar_workflows_raises|]; split; [|split].
  - intros Hrows Hon Hpos; rewrite (Hnone Hrows), Hon.
    apply Z.ltb_lt in Hpos; rewrite Hpos; reflexivity.
  - intros Hrows Hoff; rewrite (Hnone Hrows).
    destruct Hoff as [Hoff|Hle]; [rewrite Hoff; reflexivity|].
    apply Z.ltb_ge in Hle; rewrite Hle, andb_false_r; reflexivity.
  - destruct (candidate_rows user_id category limit st) as [|row rows] eqn:Hrows.
    + rewrite (Hnone eq_refl).
      destruct (WorkflowManager.embedding_store self && (0 <? limit)); auto.
    + left; apply find_similar_workflows_raises; rewrite Hrows; discriminate.
Qed.
